(** * Quantile-binned uncertainty evaluation (pykale)

    A shallow embedding of [kale/evaluate/uncertainty_metrics.py] and of
    [quantile_binning_and_est_errors] from
    [kale/interpret/uncertainty_quantiles.py].

    Conventions of the embedding.
    - Python floats are rendered as exact rationals ([Q]); a value that
      numpy may turn into [nan] (the mean of an empty list) is an
      [option Q] whose [None] is [nan].
    - A raised exception is the [Raise] alternative of [result].
    - A Python [dict] is an insertion-ordered association list with
      unique keys.
    - A pandas frame is a list of rows; the frames handed to one scorer
      share one row index, so a boolean mask is applied by position. *)

From Stdlib Require Import String.
From Stdlib Require Import List ZArith QArith Qround Bool Lia Lqa.
From Stdlib Require Import Permutation Sorted.
Import ListNotations.

Local Open Scope nat_scope.

(** ** The Python fragment the program runs on *)

Module Py.

Inductive exn : Type :=
| ValueError
| KeyError
| IndexError
| ZeroDivisionError
| NotImplementedError.

Inductive result (A : Type) : Type :=
| Ok (a : A)
| Raise (e : exn).
Arguments Ok {A} a.
Arguments Raise {A} e.

Definition bind {A B} (c : result A) (k : A -> result B) : result B :=
  match c with
  | Ok a => k a
  | Raise e => Raise e
  end.

Definition is_ok {A} (c : result A) : bool :=
  match c with Ok _ => true | Raise _ => false end.

(** [for x in xs: acc = f(acc, x)], stopping at the first exception. *)
Fixpoint foldM {A S} (f : S -> A -> result S) (xs : list A) (s : S)
  : result S :=
  match xs with
  | [] => Ok s
  | x :: xs' => bind (f s x) (foldM f xs')
  end.

(** [[f(x) for x in xs]], stopping at the first exception. *)
Fixpoint mapM {A B} (f : A -> result B) (xs : list A) : result (list B) :=
  match xs with
  | [] => Ok []
  | x :: xs' =>
      bind (f x) (fun y => bind (mapM f xs') (fun ys => Ok (y :: ys)))
  end.

(** [l[i]] for a non-negative [i]. *)
Definition index {A} (l : list A) (i : nat) : result A :=
  match nth_error l i with
  | Some x => Ok x
  | None => Raise IndexError
  end.

(** [l[-1]]. *)
Definition index_last {A} (l : list A) : result A :=
  match rev l with
  | x :: _ => Ok x
  | [] => Raise IndexError
  end.

(** [l[i] = x] *)
Fixpoint set_index {A} (l : list A) (i : nat) (x : A) : result (list A) :=
  match l, i with
  | [], _ => Raise IndexError
  | _ :: l', O => Ok (x :: l')
  | y :: l', S i' => bind (set_index l' i' x) (fun r => Ok (y :: r))
  end.

(** [l[i].append(x)] *)
Definition append_at {A} (l : list (list A)) (i : nat) (x : A)
  : result (list (list A)) :=
  bind (index l i) (fun row => set_index l i (row ++ [x])).

(** [l[i] = l[i] + xs] *)
Definition extend_at {A} (l : list (list A)) (i : nat) (xs : list A)
  : result (list (list A)) :=
  bind (index l i) (fun row => set_index l i (row ++ xs)).

(** [l[i][j].append(x)] *)
Definition append_at2 {A} (l : list (list (list A))) (i j : nat) (x : A)
  : result (list (list (list A))) :=
  bind (index l i) (fun row =>
  bind (append_at row j x) (fun row' => set_index l i row')).

(** [l[i][j] = l[i][j] + xs] *)
Definition extend_at2 {A} (l : list (list (list A))) (i j : nat)
  (xs : list A) : result (list (list (list A))) :=
  bind (index l i) (fun row =>
  bind (extend_at row j xs) (fun row' => set_index l i row')).

(** [l[i][j]] *)
Definition index2 {A} (l : list (list A)) (i j : nat) : result A :=
  bind (index l i) (fun row => index row j).

(** [range(n)] *)
Definition range (n : nat) : list nat := seq 0 n.

(** [[[] for _ in range(n)]] *)
Definition empties {A} (n : nat) : list (list A) := repeat [] n.

(** ** Dictionaries *)

Definition dict (V : Type) : Type := list (string * V).

(** [d[k] = v]: an existing key keeps its position. *)
Fixpoint dict_set {V} (d : dict V) (k : string) (v : V) : dict V :=
  match d with
  | [] => [(k, v)]
  | (k', v') :: d' =>
      if String.eqb k k' then (k, v) :: d'
      else (k', v') :: dict_set d' k v
  end.

Fixpoint dict_get {V} (d : dict V) (k : string) : result V :=
  match d with
  | [] => Raise KeyError
  | (k', v) :: d' => if String.eqb k k' then Ok v else dict_get d' k
  end.

(** [dict(zip(ks, vs))] *)
Definition dict_zip {V} (ks : list string) (vs : list V) : dict V :=
  fold_left (fun d kv => dict_set d (fst kv) (snd kv)) (combine ks vs) [].

Definition keys {V} (d : dict V) : list string := map fst d.

(** ** Numbers *)

Definition of_nat (n : nat) : Q := inject_Z (Z.of_nat n).

Definition Qsum (l : list Q) : Q := fold_left Qplus l 0%Q.

(** The arithmetic mean of a non-empty list. *)
Definition mean (l : list Q) : Q := (Qsum l / of_nat (length l))%Q.

(** [np.mean(l)]; [None] is the [nan] numpy returns for an empty list. *)
Definition np_mean (l : list Q) : option Q :=
  match l with
  | [] => None
  | _ => Some (mean l)
  end.

(** [np.mean] of a list whose entries may already be [nan]. *)
Definition np_mean_nan (l : list (option Q)) : option Q :=
  match fold_right
          (fun x acc =>
             match x, acc with
             | Some a, Some r => Some (a :: r)
             | _, _ => None
             end) (Some []) l with
  | Some qs => np_mean qs
  | None => None
  end.

Definition Qltb (a b : Q) : bool := negb (Qle_bool b a).

(** Insertion into a list sorted by [<=]; the new element goes before
    the elements equal to it. *)
Fixpoint insert_sorted (x : Q) (l : list Q) : list Q :=
  match l with
  | [] => [x]
  | y :: l' => if Qle_bool x y then x :: l else y :: insert_sorted x l'
  end.

(** A stable sort in ascending order. *)
Definition sort (l : list Q) : list Q := fold_right insert_sorted [] l.

(** [np.quantile(a, q)] with the default (linear) method: the value at
    the virtual index [q * (n - 1)] of the sorted data, interpolated
    between the two neighbouring entries. *)
Definition np_quantile (a : list Q) (q : Q) : result Q :=
  let s := sort a in
  match s with
  | [] => Raise IndexError
  | x0 :: _ =>
      let n := length s in
      let h := (q * of_nat (n - 1))%Q in
      let lo := Qfloor h in
      let gamma := (h - inject_Z lo)%Q in
      let clip (z : Z) : nat := Z.to_nat (Z.min (Z.max z 0) (Z.of_nat (n - 1))) in
      let prev := nth (clip lo) s x0 in
      let next := nth (clip (lo + 1)%Z) s x0 in
      Ok (prev + (next - prev) * gamma)%Q
  end.

(** [np.arange(1 / n, 1, 1 / n)[: n - 1]]: the levels [1/n .. (n-1)/n]. *)
Definition quantile_levels (n : nat) : result (list Q) :=
  match n with
  | O => Raise ZeroDivisionError
  | _ => Ok (map (fun k => (of_nat (S k) / of_nat n)%Q) (range (n - 1)))
  end.

End Py.

Notation "x <- c ;; k" := (Py.bind c (fun x => k))
  (at level 61, c at next level, right associativity).

(** ** kale/evaluate/uncertainty_metrics.py *)

Module Metrics.
Import Py.

(** *** Frames

    [fold_errors] has the columns [uid], [target_idx] and
    ["{type} Error"]; [fold_bins] has [uid], [target_idx] and
    ["{type} Uncertainty bins"].  The field [*_type] is the
    uncertainty type its value column is named after. *)

Record err_row : Type :=
  { e_uid : string; e_target : Z; e_error : Q }.

Record bin_row : Type :=
  { b_uid : string; b_target : Z; b_bin : Z }.

Record err_frame : Type :=
  { ef_type : string; ef_rows : list err_row }.

Record bin_frame : Type :=
  { bf_type : string; bf_rows : list bin_row }.

(** [frame[mask]] for a boolean mask over the shared row index. *)
Definition select {A} (mask : list bool) (rows : list A) : list A :=
  map snd (filter fst (combine mask rows)).

(** [fold_errors["target_idx"] == target_idx] *)
Definition target_mask (fold_errors : err_frame) (target_idx : Z)
  : list bool :=
  map (fun r => Z.eqb (e_target r) target_idx) (ef_rows fold_errors).

(** [fold_errors[mask][["uid", key + " Error"]]] *)
Definition true_errors_rows (fold_errors : err_frame) (target_idx : Z)
  (key : string) : result (list err_row) :=
  if String.eqb key (ef_type fold_errors)
  then Ok (select (target_mask fold_errors target_idx) (ef_rows fold_errors))
  else Raise KeyError.

(** [fold_bins[mask][["uid", key + " Uncertainty bins"]]]; the mask is
    the one computed on [fold_errors]. *)
Definition pred_bins_rows (fold_errors : err_frame) (fold_bins : bin_frame)
  (target_idx : Z) (key : string) : result (list bin_row) :=
  if String.eqb key (bf_type fold_bins)
  then Ok (select (target_mask fold_errors target_idx) (bf_rows fold_bins))
  else Raise KeyError.

(** The two dictionaries every scorer builds for one target:
    [dict(zip(uid, error * error_scaling_factor))] and
    [dict(zip(uid, bin))].  The scorers that do not scale pass [1]. *)
Definition target_dicts (fold_errors : err_frame) (fold_bins : bin_frame)
  (target_idx : Z) (key : string) (scale : option Q)
  : result (dict Q * dict Z) :=
  te <- true_errors_rows fold_errors target_idx key ;;
  pb <- pred_bins_rows fold_errors fold_bins target_idx key ;;
  let errs := match scale with
              | Some s => map (fun r => (e_error r * s)%Q) te
              | None => map e_error te
              end in
  Ok (dict_zip (map e_uid te) errs, dict_zip (map b_uid pb) (map b_bin pb)).

(** *** Bin grouping

    The loop that the three scorers share:
    [inner_list = [key for key, val in pred_bins_ti.items() if str(j) == str(val)]]
    and, for each id of it,
    [[val for key, val in true_errors_ti.items() if str(key) == str(id_)][0]]. *)

Definition inner_list (pred_bins_ti : dict Z) (j : nat) : list string :=
  map fst (filter (fun kv => Z.eqb (Z.of_nat j) (snd kv)) pred_bins_ti).

Definition lookup_error (true_errors_ti : dict Q) (id_ : string) : result Q :=
  index (map snd (filter (fun kv => String.eqb (fst kv) id_) true_errors_ti)) 0.

Definition group_bin (true_errors_ti : dict Q) (pred_bins_ti : dict Z)
  (j : nat) : result (list string * list Q) :=
  let ids := inner_list pred_bins_ti j in
  inner_list_errors <- mapM (lookup_error true_errors_ti) ids ;;
  Ok (ids, inner_list_errors).

(** Returns the pairs [(pred_bins_keys[j], pred_bins_errors[j])]. *)
Definition group_bins (true_errors_ti : dict Q) (pred_bins_ti : dict Z)
  (num_bins : nat) : result (list (list string * list Q)) :=
  mapM (group_bin true_errors_ti pred_bins_ti) (range num_bins).

(** *** bin_wise_bound_eval *)

Record bound_fold_result : Type :=
  { bnd_mean_all_targets : option Q;
    bnd_mean_all_bins : list Q;
    bnd_mean_all : list (list Q);
    bnd_all_bins_concat_targets_sep : list (list (list Q)) }.

(** The test applied to one error of predicted bin [q]. *)
Definition within_bounds (num_bins q : nat) (fold_bounds : list Q)
  (error : Q) : result bool :=
  if Nat.eqb q 0 then
    upper <- index fold_bounds q ;;
    Ok (Qle_bool error upper && Qltb 0 error)
  else if Nat.ltb q (num_bins - 1) then
    lower <- index fold_bounds (q - 1) ;;
    upper <- index fold_bounds q ;;
    Ok (Qle_bool error upper && Qltb lower error)
  else
    lower <- index fold_bounds (q - 1) ;;
    Ok (Qltb lower error).

(** [inner_bin_correct] after the loop over [inbin_errors]. *)
Definition count_correct (num_bins q : nat) (fold_bounds : list Q)
  (inbin_errors : list Q) : result nat :=
  foldM (fun inner_bin_correct error =>
           ok <- within_bounds num_bins q fold_bounds error ;;
           Ok (if ok then S inner_bin_correct else inner_bin_correct))
        inbin_errors 0.

(** Lines 621-626: the test on [inner_bin_correct] comes first. *)
Definition accuracy_of (inner_bin_correct len_inbin : nat) : Q :=
  if Nat.eqb inner_bin_correct 0 then 0
  else if Nat.eqb len_inbin 0 then 1
  else (of_nat inner_bin_correct / of_nat len_inbin)%Q.

Definition accuracy_bin (num_bins q : nat) (fold_bounds : list Q)
  (inbin_errors : list Q) : result Q :=
  inner_bin_correct <- count_correct num_bins q fold_bounds inbin_errors ;;
  Ok (accuracy_of inner_bin_correct (length inbin_errors)).

(** [sum(acc * size)] and [sum(size)] as the loop of lines 635-641
    leaves them. *)
Definition weighted_sums (accs : list Q) (sizes : list nat) : Q * Q :=
  fold_left (fun ws p => (fst ws + fst p * of_nat (snd p), snd ws + of_nat (snd p))%Q)
            (combine accs sizes) (0%Q, 0%Q).

(** Line 642: [weighted_mean_ti / total_weights], a division of
    Python floats. *)
Definition weighted_ave (bins_acc : list Q) (bins_sizes : list nat)
  : result Q :=
  let ws := weighted_sums bins_acc bins_sizes in
  if Qeq_bool (snd ws) 0 then Raise ZeroDivisionError
  else Ok (fst ws / snd ws)%Q.

(** Lines 646-664, with its guard against a zero weight. *)
Definition weighted_ave_bin (bin_accs : list Q) (bin_asizes : list nat) : Q :=
  let ws := weighted_sums bin_accs bin_asizes in
  if Qeq_bool (fst ws) 0 || Qeq_bool (snd ws) 0 then 0
  else (fst ws / snd ws)%Q.

Record bound_state : Type :=
  { all_target_perc : list Q;
    all_qs_perc : list (list Q);
    all_qs_size : list (list nat);
    all_qs_errorbound_concat_targets_sep : list (list (list Q)) }.

Record bound_bins : Type :=
  { bins_acc : list Q; bins_sizes : list nat; bb_state : bound_state }.

(** One iteration of the loop over [q] (lines 594-632). *)
Definition bound_bin_step (num_bins i_ti : nat) (fold_bounds : list Q)
  (pred_bins_errors : list (list Q)) (s : bound_bins) (q : nat)
  : result bound_bins :=
  inbin_errors <- index pred_bins_errors q ;;
  acc <- accuracy_bin num_bins q fold_bounds inbin_errors ;;
  let st := bb_state s in
  perc <- append_at (all_qs_perc st) q acc ;;
  size <- append_at (all_qs_size st) q (length inbin_errors) ;;
  sep <- append_at2 (all_qs_errorbound_concat_targets_sep st) i_ti q acc ;;
  Ok {| bins_acc := bins_acc s ++ [acc];
        bins_sizes := bins_sizes s ++ [length inbin_errors];
        bb_state := {| all_target_perc := all_target_perc st;
                       all_qs_perc := perc;
                       all_qs_size := size;
                       all_qs_errorbound_concat_targets_sep := sep |} |}.

(** One iteration of the loop over the targets (lines 562-643). *)
Definition bound_target_step (fold_bounds_all_targets : list (list Q))
  (fold_errors : err_frame) (fold_bins : bin_frame)
  (uncertainty_type : string) (num_bins : nat)
  (st : bound_state) (it : nat * Z) : result bound_state :=
  let '(i_ti, target_idx) := it in
  ds <- target_dicts fold_errors fold_bins target_idx uncertainty_type None ;;
  let '(true_errors_ti, pred_bins_ti) := ds in
  fold_bounds <- index fold_bounds_all_targets i_ti ;;
  groups <- group_bins true_errors_ti pred_bins_ti num_bins ;;
  let pred_bins_errors := map snd groups in
  bb <- foldM (bound_bin_step num_bins i_ti fold_bounds pred_bins_errors)
              (range num_bins)
              {| bins_acc := []; bins_sizes := []; bb_state := st |} ;;
  ave <- weighted_ave (bins_acc bb) (bins_sizes bb) ;;
  let st' := bb_state bb in
  Ok {| all_target_perc := all_target_perc st' ++ [ave];
        all_qs_perc := all_qs_perc st';
        all_qs_size := all_qs_size st';
        all_qs_errorbound_concat_targets_sep :=
          all_qs_errorbound_concat_targets_sep st' |}.

(** [enumerate(targets)] *)
Definition enumerate {A} (l : list A) : list (nat * A) :=
  combine (seq 0 (length l)) l.

Definition bin_wise_bound_eval (fold_bounds_all_targets : list (list Q))
  (fold_errors : err_frame) (fold_bins : bin_frame) (targets : list Z)
  (uncertainty_type : string) (num_bins : nat) : result bound_fold_result :=
  st <- foldM (bound_target_step fold_bounds_all_targets fold_errors
                 fold_bins uncertainty_type num_bins)
              (enumerate targets)
              {| all_target_perc := [];
                 all_qs_perc := empties num_bins;
                 all_qs_size := empties num_bins;
                 all_qs_errorbound_concat_targets_sep :=
                   repeat (empties num_bins) (length targets) |} ;;
  Ok {| bnd_mean_all_targets := np_mean (all_target_perc st);
        bnd_mean_all_bins :=
          map (fun p => weighted_ave_bin (fst p) (snd p))
              (combine (all_qs_perc st) (all_qs_size st));
        bnd_mean_all := all_qs_perc st;
        bnd_all_bins_concat_targets_sep :=
          all_qs_errorbound_concat_targets_sep st |}.

(** *** bin_wise_errors *)

Record error_fold_result : Type :=
  { err_mean_all_targets : option Q;
    err_mean_all_bins : list (option Q);
    err_all_bins : list (list Q);
    err_all_bins_concat_targets_sep : list (list (list (list Q))) }.

Record error_state : Type :=
  { all_target_error : list (option Q);
    all_qs_error : list (list Q);
    all_qs_error_concat_targets_sep : list (list (list (list Q))) }.

(** One iteration of the loop over [bin] (lines 730-741); the second
    component is [inner_errors]. *)
Definition error_bin_step (i : nat) (pred_bins_errors : list (list Q))
  (s : error_state * list Q) (bin : nat) : result (error_state * list Q) :=
  let '(st, inner_errors) := s in
  pred_b_errors <- index pred_bins_errors bin ;;
  match pred_b_errors with
  | [] => Ok s
  | _ =>
      let mean_error := mean pred_b_errors in
      qs <- append_at (all_qs_error st) bin mean_error ;;
      sep <- append_at2 (all_qs_error_concat_targets_sep st) i bin
                        pred_b_errors ;;
      Ok ({| all_target_error := all_target_error st;
             all_qs_error := qs;
             all_qs_error_concat_targets_sep := sep |},
          inner_errors ++ [mean_error])
  end.

(** One iteration of the loop over the targets (lines 702-743). *)
Definition error_target_step (fold_errors : err_frame)
  (fold_bins : bin_frame) (num_bins : nat) (uncertainty_key : string)
  (error_scaling_factor : Q) (st : error_state) (it : nat * Z)
  : result error_state :=
  let '(i, target_idx) := it in
  ds <- target_dicts fold_errors fold_bins target_idx uncertainty_key
                     (Some error_scaling_factor) ;;
  let '(true_errors_ti, pred_bins_ti) := ds in
  groups <- group_bins true_errors_ti pred_bins_ti num_bins ;;
  let pred_bins_errors := map snd groups in
  r <- foldM (error_bin_step i pred_bins_errors) (range num_bins) (st, []) ;;
  let '(st', inner_errors) := r in
  Ok {| all_target_error := all_target_error st' ++ [np_mean inner_errors];
        all_qs_error := all_qs_error st';
        all_qs_error_concat_targets_sep :=
          all_qs_error_concat_targets_sep st' |}.

Definition bin_wise_errors (fold_errors : err_frame) (fold_bins : bin_frame)
  (num_bins : nat) (targets : list Z) (uncertainty_key : string)
  (error_scaling_factor : Q) : result error_fold_result :=
  st <- foldM (error_target_step fold_errors fold_bins num_bins
                 uncertainty_key error_scaling_factor)
              (enumerate targets)
              {| all_target_error := [];
                 all_qs_error := empties num_bins;
                 all_qs_error_concat_targets_sep :=
                   repeat (empties num_bins) (length targets) |} ;;
  Ok {| err_mean_all_targets := np_mean_nan (all_target_error st);
        err_mean_all_bins :=
          map (fun x => match x with
                        | [] => None
                        | _ => Some (mean x)
                        end) (all_qs_error st);
        err_all_bins := all_qs_error st;
        err_all_bins_concat_targets_sep :=
          all_qs_error_concat_targets_sep st |}.

(** *** bin_wise_jaccard *)

(** Modelled from the spec: [jaccard_similarity] of
    [kale.evaluate.similarity_metrics], which is not part of the
    sources at hand.  The spec gives it as [|A n B| / |A u B|] on the two
    id sets, with [0 / 0] read as [0]. *)
Definition jaccard_similarity (list1 list2 : list string) : Q :=
  let a := nodup string_dec list1 in
  let b := nodup string_dec list2 in
  let inter := length (filter (fun x => existsb (String.eqb x) b) a) in
  let union := length (nodup string_dec (a ++ b)) in
  if Nat.eqb union 0 then 0 else (of_nat inter / of_nat union)%Q.

(** [x in l] *)
Definition mem (x : string) (l : list string) : bool :=
  existsb (String.eqb x) l.

(** [sum(el in gt for el in pred)], also [sum(1 for x in pred if x in gt)]. *)
Definition count_in (pred gt : list string) : nat :=
  length (filter (fun el => mem el gt) pred).

(** Lines 899-908. *)
Definition recall_precision (pred_b_keys gt_bins_keys : list string)
  : Q * Q :=
  if Nat.eqb (length gt_bins_keys) 0 then (1, 0)%Q
  else
    let recall :=
      (of_nat (count_in pred_b_keys gt_bins_keys)
       / of_nat (length gt_bins_keys))%Q in
    let precision :=
      if Nat.eqb (length pred_b_keys) 0 && Nat.ltb 0 (length gt_bins_keys)
      then 0%Q
      else (of_nat (count_in pred_b_keys gt_bins_keys)
            / of_nat (length pred_b_keys))%Q in
    (recall, precision).

(** The test of lines 850-872 for quantile group [q] on one error. *)
Definition in_quantile_group (quantile_thresholds : list Q) (q : nat)
  (error : Q) : result bool :=
  if Nat.eqb q 0 then
    upper <- index quantile_thresholds q ;;
    Ok (Qle_bool error upper)
  else if Nat.ltb q (length quantile_thresholds) then
    lower <- index quantile_thresholds (q - 1) ;;
    upper <- index quantile_thresholds q ;;
    Ok (Qle_bool error upper && Qltb lower error)
  else
    lower <- index quantile_thresholds (q - 1) ;;
    Ok (Qltb lower error).

(** One quantile group: [(inner_list_e, inner_list_id)]. *)
Definition quantile_group (quantile_thresholds : list Q)
  (true_errors_ti : dict Q) (q : nat) : result (list Q * list string) :=
  foldM (fun g kv =>
           ok <- in_quantile_group quantile_thresholds q (snd kv) ;;
           Ok (if ok then (fst g ++ [snd kv], snd g ++ [fst kv]) else g))
        true_errors_ti ([], []).

(** Lines 833-841: the thresholds the ground-truth groups are cut at. *)
Definition quantile_thresholds_of (true_errors_ti : dict Q)
  (num_bins_quantiles : nat) (combine_middle_bins : bool)
  : result (list Q) :=
  let sorted_errors := sort (map snd true_errors_ti) in
  quantiles <- quantile_levels num_bins_quantiles ;;
  quantile_thresholds <- mapM (np_quantile sorted_errors) quantiles ;;
  if combine_middle_bins then
    first <- index quantile_thresholds 0 ;;
    last <- index_last quantile_thresholds ;;
    Ok [first; last]
  else Ok quantile_thresholds.

(** Lines 832-875: [(errors_groups[q], key_groups[q])] for every [q],
    before the flip of line 880. *)
Definition quantile_groups (true_errors_ti : dict Q)
  (num_bins_quantiles : nat) (combine_middle_bins : bool)
  : result (list (list Q * list string)) :=
  quantile_thresholds <-
    quantile_thresholds_of true_errors_ti num_bins_quantiles
                           combine_middle_bins ;;
  mapM (quantile_group quantile_thresholds true_errors_ti)
       (range (length quantile_thresholds + 1)).

Record jaccard_fold_result : Type :=
  { jac_mean_all_targets : option Q;
    jac_mean_all_bins : list (option Q);
    jac_all_bins : list (list Q);
    jac_mean_all_targets_recall : option Q;
    jac_mean_all_bins_recall : list (option Q);
    jac_all_bins_recall : list (list Q);
    jac_mean_all_targets_precision : option Q;
    jac_mean_all_bins_precision : list (option Q);
    jac_all_bins_precision : list (list Q);
    jac_all_bins_concat_targets_sep : list (list (list Q)) }.

Record jaccard_state : Type :=
  { all_target_jacc : list (option Q);
    all_qs_jacc : list (list Q);
    all_qs_jacc_concat_targets_sep : list (list (list Q));
    all_target_recall : list (option Q);
    all_qs_recall : list (list Q);
    all_target_precision : list (option Q);
    all_qs_precision : list (list Q) }.

Record jaccard_bins : Type :=
  { inner_jaccard_sims : list Q;
    inner_recalls : list Q;
    inner_precisions : list Q;
    jb_state : jaccard_state }.

(** One iteration of the loop over [bin] (lines 887-913). *)
Definition jaccard_bin_step (i : nat)
  (pred_bins_keys key_groups : list (list string))
  (s : jaccard_bins) (bin : nat) : result jaccard_bins :=
  pred_b_keys <- index pred_bins_keys bin ;;
  gt_bins_keys <- index key_groups bin ;;
  let j_sim := jaccard_similarity pred_b_keys gt_bins_keys in
  let st := jb_state s in
  qs_jacc <- append_at (all_qs_jacc st) bin j_sim ;;
  sep <- append_at2 (all_qs_jacc_concat_targets_sep st) i bin j_sim ;;
  let '(recall, precision) := recall_precision pred_b_keys gt_bins_keys in
  qs_recall <- append_at (all_qs_recall st) bin recall ;;
  qs_precision <- append_at (all_qs_precision st) bin precision ;;
  Ok {| inner_jaccard_sims := inner_jaccard_sims s ++ [j_sim];
        inner_recalls := inner_recalls s ++ [recall];
        inner_precisions := inner_precisions s ++ [precision];
        jb_state := {| all_target_jacc := all_target_jacc st;
                       all_qs_jacc := qs_jacc;
                       all_qs_jacc_concat_targets_sep := sep;
                       all_target_recall := all_target_recall st;
                       all_qs_recall := qs_recall;
                       all_target_precision := all_target_precision st;
                       all_qs_precision := qs_precision |} |}.

(** One iteration of the loop over the targets (lines 808-917). *)
Definition jaccard_target_step (fold_errors : err_frame)
  (fold_bins : bin_frame) (num_bins num_bins_quantiles : nat)
  (uncertainty_key : string) (combine_middle_bins : bool)
  (st : jaccard_state) (it : nat * Z) : result jaccard_state :=
  let '(i, target_idx) := it in
  ds <- target_dicts fold_errors fold_bins target_idx uncertainty_key None ;;
  let '(true_errors_ti, pred_bins_ti) := ds in
  groups <- group_bins true_errors_ti pred_bins_ti num_bins ;;
  qgroups <- quantile_groups true_errors_ti num_bins_quantiles
                             combine_middle_bins ;;
  let pred_bins_keys := rev (map fst groups) in
  let key_groups := rev (map snd qgroups) in
  jb <- foldM (jaccard_bin_step i pred_bins_keys key_groups)
              (range num_bins)
              {| inner_jaccard_sims := []; inner_recalls := [];
                 inner_precisions := []; jb_state := st |} ;;
  let st' := jb_state jb in
  Ok {| all_target_jacc :=
          all_target_jacc st' ++ [np_mean (inner_jaccard_sims jb)];
        all_qs_jacc := all_qs_jacc st';
        all_qs_jacc_concat_targets_sep :=
          all_qs_jacc_concat_targets_sep st';
        all_target_recall :=
          all_target_recall st' ++ [np_mean (inner_recalls jb)];
        all_qs_recall := all_qs_recall st';
        all_target_precision :=
          all_target_precision st' ++ [np_mean (inner_precisions jb)];
        all_qs_precision := all_qs_precision st' |}.

Definition bin_wise_jaccard (fold_errors : err_frame) (fold_bins : bin_frame)
  (num_bins num_bins_quantiles : nat) (targets : list Z)
  (uncertainty_key : string) (combine_middle_bins : bool)
  : result jaccard_fold_result :=
  st <- foldM (jaccard_target_step fold_errors fold_bins num_bins
                 num_bins_quantiles uncertainty_key combine_middle_bins)
              (enumerate targets)
              {| all_target_jacc := [];
                 all_qs_jacc := empties num_bins;
                 all_qs_jacc_concat_targets_sep :=
                   repeat (empties num_bins) (length targets);
                 all_target_recall := [];
                 all_qs_recall := empties num_bins;
                 all_target_precision := [];
                 all_qs_precision := empties num_bins |} ;;
  Ok {| jac_mean_all_targets := np_mean_nan (all_target_jacc st);
        jac_mean_all_bins := map np_mean (all_qs_jacc st);
        jac_all_bins := all_qs_jacc st;
        jac_mean_all_targets_recall := np_mean_nan (all_target_recall st);
        jac_mean_all_bins_recall := map np_mean (all_qs_recall st);
        jac_all_bins_recall := all_qs_recall st;
        jac_mean_all_targets_precision :=
          np_mean_nan (all_target_precision st);
        jac_mean_all_bins_precision := map np_mean (all_qs_precision st);
        jac_all_bins_precision := all_qs_precision st;
        jac_all_bins_concat_targets_sep :=
          all_qs_jacc_concat_targets_sep st |}.

(** *** The evaluators *)

(** The per-model table [data_structs], column by column.  The value
    columns ["{type} Error"] and ["{type} Uncertainty bins"] are keyed
    by their uncertainty type. *)
Record data_frame : Type :=
  { df_uid : list string;
    df_target_idx : list Z;
    df_testing_fold : list Z;
    df_error : dict (list Q);
    df_uncertainty_bins : dict (list Z) }.

(** One table of [estimated_bounds]: the column [fold] and the columns
    ["{type} Uncertainty bounds"], one threshold sequence per row. *)
Record bounds_frame : Type :=
  { bt_fold : list Z;
    bt_uncertainty_bounds : dict (list (list Q)) }.

(** Modelled from the spec: [strip_for_bound] of
    [kale.prepdata.string_transform], which is not part of the sources
    at hand.  The spec describes a bound cell as an ordered sequence of
    thresholds; the cells are kept parsed, so nothing is left to strip. *)
Definition strip_for_bound (cells : list (list Q)) : list (list Q) := cells.

Record fold_data : Type :=
  { fd_errors : err_frame;
    fd_bins : bin_frame;
    fd_filter : list bool;
    fd_fold_num : option nat }.

(** The keyword arguments that reach [_process_single_fold]. *)
Record kwargs : Type :=
  { kw_model : string;
    kw_estimated_bounds : option (dict bounds_frame);
    kw_error_scaling_factor : option Q }.

(** The attributes [BaseUncertaintyEvaluator.__init__] sets. *)
Record evaluator : Type :=
  { num_bins : nat;
    original_num_bins : nat;
    targets : list Z;
    num_folds : nat;
    combine_middle_bins : bool }.

Definition BaseUncertaintyEvaluator (num_bins_arg : nat) (targets_arg : list Z)
  (num_folds_arg : nat) (combine_middle_bins_arg : bool) : evaluator :=
  {| num_bins := if combine_middle_bins_arg then 3 else num_bins_arg;
     original_num_bins := num_bins_arg;
     targets := targets_arg;
     num_folds := num_folds_arg;
     combine_middle_bins := combine_middle_bins_arg |}.

(** [zip] of three columns into rows. *)
Definition rows3 {A B C R} (mk : A -> B -> C -> R)
  (a : list A) (b : list B) (c : list C) : list R :=
  map (fun x => mk (fst (fst x)) (snd (fst x)) (snd x))
      (combine (combine a b) c).

(** [FoldDataProcessor.extract_fold_data] *)
Definition extract_fold_data (data_structs : data_frame) (fold : nat)
  (uncertainty_type : string) : result fold_data :=
  let fold_filter :=
    map (fun f => Z.eqb f (Z.of_nat fold)) (df_testing_fold data_structs) in
  ecol <- dict_get (df_error data_structs) uncertainty_type ;;
  bcol <- dict_get (df_uncertainty_bins data_structs) uncertainty_type ;;
  Ok {| fd_errors :=
          {| ef_type := uncertainty_type;
             ef_rows := select fold_filter
                          (rows3 Build_err_row (df_uid data_structs)
                                 (df_target_idx data_structs) ecol) |};
        fd_bins :=
          {| bf_type := uncertainty_type;
             bf_rows := select fold_filter
                          (rows3 Build_bin_row (df_uid data_structs)
                                 (df_target_idx data_structs) bcol) |};
        fd_filter := fold_filter;
        fd_fold_num := None |}.

(** The six operations a concrete evaluator supplies (the abstract
    methods of [BaseUncertaintyEvaluator]) together with its own
    [_extract_fold_data]. *)
Record handler (Acc FR Res Fin : Type) : Type :=
  { initialize_results : evaluator -> Res;
    initialize_fold_accumulator : evaluator -> Acc;
    extract : data_frame -> nat -> string -> result fold_data;
    process_single_fold :
      evaluator -> fold_data -> string -> kwargs -> result FR;
    accumulate_fold_result : evaluator -> Acc -> FR -> result Acc;
    aggregate_results : Res -> string -> string -> Acc -> result Res;
    finalize_results : Res -> Fin }.
Arguments initialize_results {Acc FR Res Fin} h.
Arguments initialize_fold_accumulator {Acc FR Res Fin} h.
Arguments extract {Acc FR Res Fin} h.
Arguments process_single_fold {Acc FR Res Fin} h.
Arguments accumulate_fold_result {Acc FR Res Fin} h.
Arguments aggregate_results {Acc FR Res Fin} h.
Arguments finalize_results {Acc FR Res Fin} h.

(** What a run has completed so far, in order: the extraction of one
    fold's data and the scoring of one fold, each for a model and an
    uncertainty type. *)
Inductive event : Type :=
| Extracted (model uncertainty_type : string) (fold : nat)
| Scored (model uncertainty_type : string) (fold : nat).

Section Template.
Context {Acc FR Res Fin : Type} (h : handler Acc FR Res Fin)
        (self : evaluator).

(** The loop of [_process_folds] over the remaining folds; [log] is
    the list of completed steps. *)
Fixpoint process_folds_from (data_structs : data_frame)
  (uncertainty_type : string) (kw : kwargs) (folds : list nat)
  (fold_accumulator : Acc) (log : list event)
  : list event * result Acc :=
  match folds with
  | [] => (log, Ok fold_accumulator)
  | fold :: rest =>
      match extract h data_structs fold uncertainty_type with
      | Raise e => (log, Raise e)
      | Ok fd =>
          let log1 := log ++ [Extracted (kw_model kw) uncertainty_type fold] in
          match process_single_fold h self fd uncertainty_type kw with
          | Raise e => (log1, Raise e)
          | Ok fold_result =>
              let log2 :=
                log1 ++ [Scored (kw_model kw) uncertainty_type fold] in
              match accumulate_fold_result h self fold_accumulator
                                           fold_result with
              | Raise e => (log2, Raise e)
              | Ok acc' =>
                  process_folds_from data_structs uncertainty_type kw
                                     rest acc' log2
              end
          end
      end
  end.

Definition process_folds (data_structs : data_frame)
  (uncertainty_type : string) (kw : kwargs) (log : list event)
  : list event * result Acc :=
  process_folds_from data_structs uncertainty_type kw
                     (range (num_folds self))
                     (initialize_fold_accumulator h self) log.

(** The loop over [uncertainty_pairs] for one model. *)
Fixpoint evaluate_pairs (model : string) (data_structs : data_frame)
  (kw : kwargs) (uncertainty_pairs : list (list string))
  (results : Res) (log : list event) : list event * result Res :=
  match uncertainty_pairs with
  | [] => (log, Ok results)
  | uncert_pair :: rest =>
      match index uncert_pair 0 with
      | Raise e => (log, Raise e)
      | Ok uncertainty_type =>
          match process_folds data_structs uncertainty_type kw log with
          | (log', Raise e) => (log', Raise e)
          | (log', Ok fold_results) =>
              match aggregate_results h results model uncertainty_type
                                      fold_results with
              | Raise e => (log', Raise e)
              | Ok results' =>
                  evaluate_pairs model data_structs kw rest results' log'
              end
          end
      end
  end.

(** The loop over [bin_predictions.items()]; [model=model] is added
    to the keyword arguments of every call. *)
Fixpoint evaluate_models (bin_predictions : dict data_frame)
  (uncertainty_pairs : list (list string)) (kw : kwargs)
  (results : Res) (log : list event) : list event * result Res :=
  match bin_predictions with
  | [] => (log, Ok results)
  | (model, data_structs) :: rest =>
      let kw' := {| kw_model := model;
                    kw_estimated_bounds := kw_estimated_bounds kw;
                    kw_error_scaling_factor :=
                      kw_error_scaling_factor kw |} in
      match evaluate_pairs model data_structs kw' uncertainty_pairs
                           results log with
      | (log', Raise e) => (log', Raise e)
      | (log', Ok results') =>
          evaluate_models rest uncertainty_pairs kw results' log'
      end
  end.

(** [BaseUncertaintyEvaluator.evaluate]: the result and the steps
    completed before it returned or raised. *)
Definition evaluate (bin_predictions : dict data_frame)
  (uncertainty_pairs : list (list string)) (kw : kwargs)
  : list event * result Fin :=
  match evaluate_models bin_predictions uncertainty_pairs kw
                        (initialize_results h self) [] with
  | (log, Raise e) => (log, Raise e)
  | (log, Ok results) => (log, Ok (finalize_results h results))
  end.

End Template.

(** [l[target_idx][key] = v] on a list of dictionaries. *)
Definition set_key_at {V} (l : list (dict V)) (target_idx : nat)
  (key : string) (v : V) : result (list (dict V)) :=
  d <- index l target_idx ;;
  set_index l target_idx (dict_set d key v).

(** [model + " " + uncertainty_type] *)
Definition result_key (model uncertainty_type : string) : string :=
  (model ++ " " ++ uncertainty_type)%string.

(** [not estimated_bounds] and [not model]. *)
Definition falsy_dict {V} (d : option (dict V)) : bool :=
  match d with
  | None => true
  | Some [] => true
  | Some (_ :: _) => false
  end.

Definition falsy_str (s : string) : bool := String.eqb s "".

Module BoundEvaluationHandler.

Record results : Type :=
  { all_bound_percents : dict (list (list Q));
    all_bound_percents_notargetsep : dict (list (list Q));
    all_concat_errorbound_bins_target_sep_foldwise :
      list (dict (list (list Q)));
    all_concat_errorbound_bins_target_sep_all :
      list (dict (list (list Q))) }.

Record accumulator : Type :=
  { fold_learned_bounds_mean_targets : list (option Q);
    fold_learned_bounds_mean_bins : list (list Q);
    fold_learned_bounds_bins_targetsnotsep : list (list Q);
    fold_all_bins_concat_targets_sep_foldwise : list (list (list Q));
    fold_all_bins_concat_targets_sep_all : list (list (list Q)) }.

(** The dictionary [_finalize_results] returns, one field per key:
    ["Error Bounds All"], ["all_bound_percents_notargetsep"],
    ["all errorbound concat bins targets sep foldwise"] and
    ["all errorbound concat bins targets sep all"]. *)
Record final : Type :=
  { Error_Bounds_All : dict (list (list Q));
    final_all_bound_percents_notargetsep : dict (list (list Q));
    all_errorbound_concat_bins_targets_sep_foldwise :
      list (dict (list (list Q)));
    all_errorbound_concat_bins_targets_sep_all :
      list (dict (list (list Q))) }.

Definition _initialize_results (self : evaluator) : results :=
  {| all_bound_percents := [];
     all_bound_percents_notargetsep := [];
     all_concat_errorbound_bins_target_sep_foldwise :=
       repeat [] (length (targets self));
     all_concat_errorbound_bins_target_sep_all :=
       repeat [] (length (targets self)) |}.

Definition _initialize_fold_accumulator (self : evaluator) : accumulator :=
  {| fold_learned_bounds_mean_targets := [];
     fold_learned_bounds_mean_bins := empties (num_bins self);
     fold_learned_bounds_bins_targetsnotsep := empties (num_bins self);
     fold_all_bins_concat_targets_sep_foldwise :=
       repeat (empties (num_bins self)) (length (targets self));
     fold_all_bins_concat_targets_sep_all :=
       repeat (empties (num_bins self)) (length (targets self)) |}.

Definition _extract_fold_data (data_structs : data_frame) (fold : nat)
  (uncertainty_type : string) : result fold_data :=
  fd <- extract_fold_data data_structs fold uncertainty_type ;;
  Ok {| fd_errors := fd_errors fd;
        fd_bins := fd_bins fd;
        fd_filter := fd_filter fd;
        fd_fold_num := Some fold |}.

Definition _process_single_fold (self : evaluator) (fd : fold_data)
  (uncertainty_type : string) (kw : kwargs) : result bound_fold_result :=
  let estimated_bounds := kw_estimated_bounds kw in
  let model := kw_model kw in
  if falsy_dict estimated_bounds || falsy_str model then Raise ValueError
  else
    let tables := match estimated_bounds with Some d => d | None => [] end in
    frame <- dict_get tables (model ++ " Error Bounds")%string ;;
    fold_num <- match fd_fold_num fd with
                | Some f => Ok f
                | None => Raise KeyError
                end ;;
    col <- dict_get (bt_uncertainty_bounds frame) uncertainty_type ;;
    let fold_bounds :=
      strip_for_bound
        (select (map (fun f => Z.eqb f (Z.of_nat fold_num)) (bt_fold frame))
                col) in
    bin_wise_bound_eval fold_bounds (fd_errors fd) (fd_bins fd)
                        (targets self) uncertainty_type (num_bins self).

(** The inner loop over [target_idx] of [_accumulate_fold_result]. *)
Definition accumulate_target (fold_result : bound_fold_result)
  (idx_bin : nat) (acc : accumulator) (target_idx : nat)
  : result accumulator :=
  x <- index2 (bnd_all_bins_concat_targets_sep fold_result)
              target_idx idx_bin ;;
  foldwise <- extend_at2 (fold_all_bins_concat_targets_sep_foldwise acc)
                         target_idx idx_bin x ;;
  all <- extend_at2 (fold_all_bins_concat_targets_sep_all acc)
                    target_idx idx_bin x ;;
  Ok {| fold_learned_bounds_mean_targets :=
          fold_learned_bounds_mean_targets acc;
        fold_learned_bounds_mean_bins := fold_learned_bounds_mean_bins acc;
        fold_learned_bounds_bins_targetsnotsep :=
          fold_learned_bounds_bins_targetsnotsep acc;
        fold_all_bins_concat_targets_sep_foldwise := foldwise;
        fold_all_bins_concat_targets_sep_all := all |}.

(** The loop over [idx_bin] of [_accumulate_fold_result]. *)
Definition accumulate_bin (self : evaluator)
  (fold_result : bound_fold_result) (acc : accumulator) (idx_bin : nat)
  : result accumulator :=
  v <- index (bnd_mean_all_bins fold_result) idx_bin ;;
  mean_bins <- append_at (fold_learned_bounds_mean_bins acc) idx_bin v ;;
  ma <- index (bnd_mean_all fold_result) idx_bin ;;
  notsep <- extend_at (fold_learned_bounds_bins_targetsnotsep acc)
                      idx_bin ma ;;
  foldM (accumulate_target fold_result idx_bin)
        (range (length (targets self)))
        {| fold_learned_bounds_mean_targets :=
             fold_learned_bounds_mean_targets acc;
           fold_learned_bounds_mean_bins := mean_bins;
           fold_learned_bounds_bins_targetsnotsep := notsep;
           fold_all_bins_concat_targets_sep_foldwise :=
             fold_all_bins_concat_targets_sep_foldwise acc;
           fold_all_bins_concat_targets_sep_all :=
             fold_all_bins_concat_targets_sep_all acc |}.

Definition _accumulate_fold_result (self : evaluator)
  (acc : accumulator) (fold_result : bound_fold_result)
  : result accumulator :=
  foldM (accumulate_bin self fold_result)
        (range (length (bnd_mean_all_bins fold_result)))
        {| fold_learned_bounds_mean_targets :=
             fold_learned_bounds_mean_targets acc
             ++ [bnd_mean_all_targets fold_result];
           fold_learned_bounds_mean_bins := fold_learned_bounds_mean_bins acc;
           fold_learned_bounds_bins_targetsnotsep :=
             fold_learned_bounds_bins_targetsnotsep acc;
           fold_all_bins_concat_targets_sep_foldwise :=
             fold_all_bins_concat_targets_sep_foldwise acc;
           fold_all_bins_concat_targets_sep_all :=
             fold_all_bins_concat_targets_sep_all acc |}.

(** The loop over [target_idx] of [_aggregate_results]: the
    per-target entries are stored as the accumulator holds them. *)
Definition aggregate_target (key : string) (fold_results : accumulator)
  (r : results) (target_idx : nat) : result results :=
  fw <- index (fold_all_bins_concat_targets_sep_foldwise fold_results)
              target_idx ;;
  foldwise <- set_key_at (all_concat_errorbound_bins_target_sep_foldwise r)
                         target_idx key fw ;;
  al <- index (fold_all_bins_concat_targets_sep_all fold_results)
              target_idx ;;
  all <- set_key_at (all_concat_errorbound_bins_target_sep_all r)
                    target_idx key al ;;
  Ok {| all_bound_percents := all_bound_percents r;
        all_bound_percents_notargetsep := all_bound_percents_notargetsep r;
        all_concat_errorbound_bins_target_sep_foldwise := foldwise;
        all_concat_errorbound_bins_target_sep_all := all |}.

Definition _aggregate_results (r : results) (model uncertainty_type : string)
  (fold_results : accumulator) : result results :=
  let key := result_key model uncertainty_type in
  foldM (aggregate_target key fold_results)
        (range (length (all_concat_errorbound_bins_target_sep_foldwise r)))
        {| all_bound_percents :=
             dict_set (all_bound_percents r) key
                      (rev (fold_learned_bounds_mean_bins fold_results));
           all_bound_percents_notargetsep :=
             dict_set (all_bound_percents_notargetsep r) key
                      (rev (fold_learned_bounds_bins_targetsnotsep
                              fold_results));
           all_concat_errorbound_bins_target_sep_foldwise :=
             all_concat_errorbound_bins_target_sep_foldwise r;
           all_concat_errorbound_bins_target_sep_all :=
             all_concat_errorbound_bins_target_sep_all r |}.

Definition _finalize_results (r : results) : final :=
  {| Error_Bounds_All := all_bound_percents r;
     final_all_bound_percents_notargetsep :=
       all_bound_percents_notargetsep r;
     all_errorbound_concat_bins_targets_sep_foldwise :=
       all_concat_errorbound_bins_target_sep_foldwise r;
     all_errorbound_concat_bins_targets_sep_all :=
       all_concat_errorbound_bins_target_sep_all r |}.

Definition methods : handler accumulator bound_fold_result results final :=
  {| initialize_results := _initialize_results;
     initialize_fold_accumulator := _initialize_fold_accumulator;
     extract := _extract_fold_data;
     process_single_fold := _process_single_fold;
     accumulate_fold_result := _accumulate_fold_result;
     aggregate_results := _aggregate_results;
     finalize_results := _finalize_results |}.

End BoundEvaluationHandler.

Definition evaluate_bounds (estimated_bounds : option (dict bounds_frame))
  (bin_predictions : dict data_frame) (uncertainty_pairs : list (list string))
  (num_bins_arg : nat) (targets_arg : list Z) (num_folds_arg : nat)
  (combine_middle_bins_arg : bool)
  : list event * result BoundEvaluationHandler.final :=
  let evaluator_ := BaseUncertaintyEvaluator num_bins_arg targets_arg
                      num_folds_arg combine_middle_bins_arg in
  evaluate BoundEvaluationHandler.methods evaluator_ bin_predictions
           uncertainty_pairs
           {| kw_model := "";
              kw_estimated_bounds := estimated_bounds;
              kw_error_scaling_factor := None |}.

Module JaccardEvaluationHandler.

Record results : Type :=
  { all_jaccard_data : dict (list (list (option Q)));
    all_jaccard_bins_targets_sep : dict (list (list Q));
    all_recall_data : dict (list (list (option Q)));
    all_recall_bins_targets_sep : dict (list (list Q));
    all_precision_data : dict (list (list (option Q)));
    all_precision__bins_targets_sep : dict (list (list Q));
    all_concat_jacc_bins_target_sep_foldwise : list (dict (list (list Q)));
    all_concat_jacc_bins_target_sep_all : list (dict (list (list Q))) }.

Record accumulator : Type :=
  { fold_mean_targets : list (option Q);
    fold_mean_bins : list (list (option Q));
    fold_all_bins : list (list Q);
    fold_mean_targets_recall : list (option Q);
    fold_mean_bins_recall : list (list (option Q));
    fold_all_bins_recall : list (list Q);
    fold_mean_targets_precision : list (option Q);
    fold_mean_bins_precision : list (list (option Q));
    fold_all_bins_precision : list (list Q);
    fold_all_bins_concat_targets_sep_foldwise : list (list (list Q));
    fold_all_bins_concat_targets_sep_all : list (list (list Q)) }.

(** [_finalize_results] renames the eight entries (["Jaccard All"],
    ["Jaccard targets seperated"], ...) and changes nothing else, so
    the final dictionary is the record of results itself. *)
Definition final : Type := results.

Definition _initialize_results (self : evaluator) : results :=
  {| all_jaccard_data := [];
     all_jaccard_bins_targets_sep := [];
     all_recall_data := [];
     all_recall_bins_targets_sep := [];
     all_precision_data := [];
     all_precision__bins_targets_sep := [];
     all_concat_jacc_bins_target_sep_foldwise :=
       repeat [] (length (targets self));
     all_concat_jacc_bins_target_sep_all :=
       repeat [] (length (targets self)) |}.

Definition _initialize_fold_accumulator (self : evaluator) : accumulator :=
  {| fold_mean_targets := [];
     fold_mean_bins := empties (num_bins self);
     fold_all_bins := empties (num_bins self);
     fold_mean_targets_recall := [];
     fold_mean_bins_recall := empties (num_bins self);
     fold_all_bins_recall := empties (num_bins self);
     fold_mean_targets_precision := [];
     fold_mean_bins_precision := empties (num_bins self);
     fold_all_bins_precision := empties (num_bins self);
     fold_all_bins_concat_targets_sep_foldwise :=
       repeat (empties (num_bins self)) (length (targets self));
     fold_all_bins_concat_targets_sep_all :=
       repeat (empties (num_bins self)) (length (targets self)) |}.

Definition _extract_fold_data := extract_fold_data.

(** The bin counts handed to the scorer (lines 247-252):
    [(num_bins, num_bins_for_quantiles)]. *)
Definition scorer_bins (self : evaluator) : nat * nat :=
  if combine_middle_bins self then (3, original_num_bins self)
  else (num_bins self, num_bins self).

Definition _process_single_fold (self : evaluator) (fd : fold_data)
  (uncertainty_type : string) (kw : kwargs) : result jaccard_fold_result :=
  let '(num_bins_, num_bins_for_quantiles) := scorer_bins self in
  bin_wise_jaccard (fd_errors fd) (fd_bins fd) num_bins_
                   num_bins_for_quantiles (targets self) uncertainty_type
                   (combine_middle_bins self).

Definition with_concat (acc : accumulator)
  (foldwise all : list (list (list Q))) : accumulator :=
  {| fold_mean_targets := fold_mean_targets acc;
     fold_mean_bins := fold_mean_bins acc;
     fold_all_bins := fold_all_bins acc;
     fold_mean_targets_recall := fold_mean_targets_recall acc;
     fold_mean_bins_recall := fold_mean_bins_recall acc;
     fold_all_bins_recall := fold_all_bins_recall acc;
     fold_mean_targets_precision := fold_mean_targets_precision acc;
     fold_mean_bins_precision := fold_mean_bins_precision acc;
     fold_all_bins_precision := fold_all_bins_precision acc;
     fold_all_bins_concat_targets_sep_foldwise := foldwise;
     fold_all_bins_concat_targets_sep_all := all |}.

Definition accumulate_target (fold_result : jaccard_fold_result)
  (idx_bin : nat) (acc : accumulator) (target_idx : nat)
  : result accumulator :=
  x <- index2 (jac_all_bins_concat_targets_sep fold_result)
              target_idx idx_bin ;;
  foldwise <- extend_at2 (fold_all_bins_concat_targets_sep_foldwise acc)
                         target_idx idx_bin x ;;
  all <- extend_at2 (fold_all_bins_concat_targets_sep_all acc)
                    target_idx idx_bin x ;;
  Ok (with_concat acc foldwise all).

Definition accumulate_bin (self : evaluator)
  (fold_result : jaccard_fold_result) (acc : accumulator) (idx_bin : nat)
  : result accumulator :=
  mj <- index (jac_mean_all_bins fold_result) idx_bin ;;
  mean_bins <- append_at (fold_mean_bins acc) idx_bin mj ;;
  aj <- index (jac_all_bins fold_result) idx_bin ;;
  all_bins <- extend_at (fold_all_bins acc) idx_bin aj ;;
  mr <- index (jac_mean_all_bins_recall fold_result) idx_bin ;;
  mean_bins_recall <- append_at (fold_mean_bins_recall acc) idx_bin mr ;;
  ar <- index (jac_all_bins_recall fold_result) idx_bin ;;
  all_bins_recall <- extend_at (fold_all_bins_recall acc) idx_bin ar ;;
  mp <- index (jac_mean_all_bins_precision fold_result) idx_bin ;;
  mean_bins_precision <-
    append_at (fold_mean_bins_precision acc) idx_bin mp ;;
  ap <- index (jac_all_bins_precision fold_result) idx_bin ;;
  all_bins_precision <-
    extend_at (fold_all_bins_precision acc) idx_bin ap ;;
  foldM (accumulate_target fold_result idx_bin)
        (range (length (targets self)))
        {| fold_mean_targets := fold_mean_targets acc;
           fold_mean_bins := mean_bins;
           fold_all_bins := all_bins;
           fold_mean_targets_recall := fold_mean_targets_recall acc;
           fold_mean_bins_recall := mean_bins_recall;
           fold_all_bins_recall := all_bins_recall;
           fold_mean_targets_precision := fold_mean_targets_precision acc;
           fold_mean_bins_precision := mean_bins_precision;
           fold_all_bins_precision := all_bins_precision;
           fold_all_bins_concat_targets_sep_foldwise :=
             fold_all_bins_concat_targets_sep_foldwise acc;
           fold_all_bins_concat_targets_sep_all :=
             fold_all_bins_concat_targets_sep_all acc |}.

Definition _accumulate_fold_result (self : evaluator)
  (acc : accumulator) (fold_result : jaccard_fold_result)
  : result accumulator :=
  foldM (accumulate_bin self fold_result)
        (range (length (jac_mean_all_bins fold_result)))
        {| fold_mean_targets :=
             fold_mean_targets acc ++ [jac_mean_all_targets fold_result];
           fold_mean_bins := fold_mean_bins acc;
           fold_all_bins := fold_all_bins acc;
           fold_mean_targets_recall :=
             fold_mean_targets_recall acc
             ++ [jac_mean_all_targets_recall fold_result];
           fold_mean_bins_recall := fold_mean_bins_recall acc;
           fold_all_bins_recall := fold_all_bins_recall acc;
           fold_mean_targets_precision :=
             fold_mean_targets_precision acc
             ++ [jac_mean_all_targets_precision fold_result];
           fold_mean_bins_precision := fold_mean_bins_precision acc;
           fold_all_bins_precision := fold_all_bins_precision acc;
           fold_all_bins_concat_targets_sep_foldwise :=
             fold_all_bins_concat_targets_sep_foldwise acc;
           fold_all_bins_concat_targets_sep_all :=
             fold_all_bins_concat_targets_sep_all acc |}.

Definition aggregate_target (key : string) (fold_results : accumulator)
  (r : results) (target_idx : nat) : result results :=
  fw <- index (fold_all_bins_concat_targets_sep_foldwise fold_results)
              target_idx ;;
  foldwise <- set_key_at (all_concat_jacc_bins_target_sep_foldwise r)
                         target_idx key fw ;;
  al <- index (fold_all_bins_concat_targets_sep_all fold_results)
              target_idx ;;
  all <- set_key_at (all_concat_jacc_bins_target_sep_all r)
                    target_idx key al ;;
  Ok {| all_jaccard_data := all_jaccard_data r;
        all_jaccard_bins_targets_sep := all_jaccard_bins_targets_sep r;
        all_recall_data := all_recall_data r;
        all_recall_bins_targets_sep := all_recall_bins_targets_sep r;
        all_precision_data := all_precision_data r;
        all_precision__bins_targets_sep :=
          all_precision__bins_targets_sep r;
        all_concat_jacc_bins_target_sep_foldwise := foldwise;
        all_concat_jacc_bins_target_sep_all := all |}.

(** No reversal here: the scorer has already flipped its groups. *)
Definition _aggregate_results (r : results) (model uncertainty_type : string)
  (fold_results : accumulator) : result results :=
  let key := result_key model uncertainty_type in
  foldM (aggregate_target key fold_results)
        (range (length (all_concat_jacc_bins_target_sep_foldwise r)))
        {| all_jaccard_data :=
             dict_set (all_jaccard_data r) key (fold_mean_bins fold_results);
           all_jaccard_bins_targets_sep :=
             dict_set (all_jaccard_bins_targets_sep r) key
                      (fold_all_bins fold_results);
           all_recall_data :=
             dict_set (all_recall_data r) key
                      (fold_mean_bins_recall fold_results);
           all_recall_bins_targets_sep :=
             dict_set (all_recall_bins_targets_sep r) key
                      (fold_all_bins_recall fold_results);
           all_precision_data :=
             dict_set (all_precision_data r) key
                      (fold_mean_bins_precision fold_results);
           all_precision__bins_targets_sep :=
             dict_set (all_precision__bins_targets_sep r) key
                      (fold_all_bins_precision fold_results);
           all_concat_jacc_bins_target_sep_foldwise :=
             all_concat_jacc_bins_target_sep_foldwise r;
           all_concat_jacc_bins_target_sep_all :=
             all_concat_jacc_bins_target_sep_all r |}.

Definition _finalize_results (r : results) : final := r.

Definition methods : handler accumulator jaccard_fold_result results final :=
  {| initialize_results := _initialize_results;
     initialize_fold_accumulator := _initialize_fold_accumulator;
     extract := _extract_fold_data;
     process_single_fold := _process_single_fold;
     accumulate_fold_result := _accumulate_fold_result;
     aggregate_results := _aggregate_results;
     finalize_results := _finalize_results |}.

End JaccardEvaluationHandler.

Definition evaluate_jaccard (bin_predictions : dict data_frame)
  (uncertainty_pairs : list (list string)) (num_bins_arg : nat)
  (targets_arg : list Z) (num_folds_arg : nat)
  (combine_middle_bins_arg : bool)
  : list event * result JaccardEvaluationHandler.final :=
  let evaluator_ := BaseUncertaintyEvaluator num_bins_arg targets_arg
                      num_folds_arg combine_middle_bins_arg in
  evaluate JaccardEvaluationHandler.methods evaluator_ bin_predictions
           uncertainty_pairs
           {| kw_model := "";
              kw_estimated_bounds := None;
              kw_error_scaling_factor := None |}.

Module ErrorEvaluationHandler.

Record results : Type :=
  { all_mean_error_bins : dict (list (list (option Q)));
    all_mean_error_bins_targets_sep : dict (list (list Q));
    all_concat_error_bins_target_sep_foldwise :
      list (dict (list (list (list Q))));
    all_concat_error_bins_target_sep_all : list (dict (list (list Q)));
    all_concat_error_bins_target_nosep : dict (list (list Q)) }.

Record accumulator : Type :=
  { fold_mean_targets : list (option Q);
    fold_mean_bins : list (list (option Q));
    fold_all_bins : list (list Q);
    fold_all_bins_concat_targets_sep_foldwise :
      list (list (list (list Q)));
    fold_all_bins_concat_targets_sep_all : list (list (list Q));
    fold_all_bins_concat_targets_nosep : list (list Q) }.

(** [_finalize_results] renames the five entries
    (["all mean error bins nosep"], ["all mean error bins targets sep"],
    ["all error concat bins targets nosep"],
    ["all error concat bins targets sep foldwise"],
    ["all error concat bins targets sep all"]) and changes nothing
    else. *)
Definition final : Type := results.

Definition _initialize_results (self : evaluator) : results :=
  {| all_mean_error_bins := [];
     all_mean_error_bins_targets_sep := [];
     all_concat_error_bins_target_sep_foldwise :=
       repeat [] (length (targets self));
     all_concat_error_bins_target_sep_all :=
       repeat [] (length (targets self));
     all_concat_error_bins_target_nosep := [] |}.

Definition _initialize_fold_accumulator (self : evaluator) : accumulator :=
  {| fold_mean_targets := [];
     fold_mean_bins := empties (num_bins self);
     fold_all_bins := empties (num_bins self);
     fold_all_bins_concat_targets_sep_foldwise :=
       repeat (empties (num_bins self)) (length (targets self));
     fold_all_bins_concat_targets_sep_all :=
       repeat (empties (num_bins self)) (length (targets self));
     fold_all_bins_concat_targets_nosep := empties (num_bins self) |}.

Definition _extract_fold_data := extract_fold_data.

Definition _process_single_fold (self : evaluator) (fd : fold_data)
  (uncertainty_type : string) (kw : kwargs) : result error_fold_result :=
  let error_scaling_factor :=
    match kw_error_scaling_factor kw with
    | Some s => s
    | None => 1%Q
    end in
  bin_wise_errors (fd_errors fd) (fd_bins fd) (num_bins self)
                  (targets self) uncertainty_type error_scaling_factor.

Definition with_concat (acc : accumulator)
  (foldwise : list (list (list (list Q)))) (all : list (list (list Q)))
  : accumulator :=
  {| fold_mean_targets := fold_mean_targets acc;
     fold_mean_bins := fold_mean_bins acc;
     fold_all_bins := fold_all_bins acc;
     fold_all_bins_concat_targets_sep_foldwise := foldwise;
     fold_all_bins_concat_targets_sep_all := all;
     fold_all_bins_concat_targets_nosep :=
       fold_all_bins_concat_targets_nosep acc |}.

Definition accumulate_target (fold_result : error_fold_result)
  (idx_bin : nat) (acc : accumulator) (target_idx : nat)
  : result accumulator :=
  x <- index2 (err_all_bins_concat_targets_sep fold_result)
              target_idx idx_bin ;;
  foldwise <- extend_at2 (fold_all_bins_concat_targets_sep_foldwise acc)
                         target_idx idx_bin x ;;
  old <- index2 (fold_all_bins_concat_targets_sep_all acc)
                target_idx idx_bin ;;
  let combined := match x with
                  | [] => old
                  | first :: _ => old ++ first
                  end in
  row <- index (fold_all_bins_concat_targets_sep_all acc) target_idx ;;
  row' <- set_index row idx_bin combined ;;
  all <- set_index (fold_all_bins_concat_targets_sep_all acc)
                   target_idx row' ;;
  Ok (with_concat acc foldwise all).

Definition accumulate_bin (self : evaluator)
  (fold_result : error_fold_result) (acc : accumulator) (idx_bin : nat)
  : result accumulator :=
  m <- index (err_mean_all_bins fold_result) idx_bin ;;
  mean_bins <- append_at (fold_mean_bins acc) idx_bin m ;;
  a <- index (err_all_bins fold_result) idx_bin ;;
  all_bins <- extend_at (fold_all_bins acc) idx_bin a ;;
  concat_no_sep <-
    mapM (fun x => index x idx_bin)
         (err_all_bins_concat_targets_sep fold_result) ;;
  let flattened_concat_no_sep := concat (concat concat_no_sep) in
  nosep <- extend_at (fold_all_bins_concat_targets_nosep acc) idx_bin
                     flattened_concat_no_sep ;;
  foldM (accumulate_target fold_result idx_bin)
        (range (length (targets self)))
        {| fold_mean_targets := fold_mean_targets acc;
           fold_mean_bins := mean_bins;
           fold_all_bins := all_bins;
           fold_all_bins_concat_targets_sep_foldwise :=
             fold_all_bins_concat_targets_sep_foldwise acc;
           fold_all_bins_concat_targets_sep_all :=
             fold_all_bins_concat_targets_sep_all acc;
           fold_all_bins_concat_targets_nosep := nosep |}.

Definition _accumulate_fold_result (self : evaluator)
  (acc : accumulator) (fold_result : error_fold_result)
  : result accumulator :=
  foldM (accumulate_bin self fold_result)
        (range (length (err_mean_all_bins fold_result)))
        {| fold_mean_targets :=
             fold_mean_targets acc ++ [err_mean_all_targets fold_result];
           fold_mean_bins := fold_mean_bins acc;
           fold_all_bins := fold_all_bins acc;
           fold_all_bins_concat_targets_sep_foldwise :=
             fold_all_bins_concat_targets_sep_foldwise acc;
           fold_all_bins_concat_targets_sep_all :=
             fold_all_bins_concat_targets_sep_all acc;
           fold_all_bins_concat_targets_nosep :=
             fold_all_bins_concat_targets_nosep acc |}.

(** The loop over [target_idx] of [_aggregate_results], on the lists
    already reversed bin-wise. *)
Definition aggregate_target (key : string)
  (foldwise_rev : list (list (list (list Q))))
  (all_rev : list (list (list Q)))
  (r : results) (target_idx : nat) : result results :=
  fw <- index foldwise_rev target_idx ;;
  foldwise <- set_key_at (all_concat_error_bins_target_sep_foldwise r)
                         target_idx key fw ;;
  al <- index all_rev target_idx ;;
  all <- set_key_at (all_concat_error_bins_target_sep_all r)
                    target_idx key al ;;
  Ok {| all_mean_error_bins := all_mean_error_bins r;
        all_mean_error_bins_targets_sep :=
          all_mean_error_bins_targets_sep r;
        all_concat_error_bins_target_sep_foldwise := foldwise;
        all_concat_error_bins_target_sep_all := all;
        all_concat_error_bins_target_nosep :=
          all_concat_error_bins_target_nosep r |}.

Definition _aggregate_results (r : results) (model uncertainty_type : string)
  (fold_results : accumulator) : result results :=
  let key := result_key model uncertainty_type in
  let fold_mean_bins_ := rev (fold_mean_bins fold_results) in
  let fold_all_bins_ := rev (fold_all_bins fold_results) in
  let nosep_ := rev (fold_all_bins_concat_targets_nosep fold_results) in
  let foldwise_ :=
    map (@rev _) (fold_all_bins_concat_targets_sep_foldwise fold_results) in
  let all_ :=
    map (@rev _) (fold_all_bins_concat_targets_sep_all fold_results) in
  foldM (aggregate_target key foldwise_ all_)
        (range (length foldwise_))
        {| all_mean_error_bins :=
             dict_set (all_mean_error_bins r) key fold_mean_bins_;
           all_mean_error_bins_targets_sep :=
             dict_set (all_mean_error_bins_targets_sep r) key fold_all_bins_;
           all_concat_error_bins_target_sep_foldwise :=
             all_concat_error_bins_target_sep_foldwise r;
           all_concat_error_bins_target_sep_all :=
             all_concat_error_bins_target_sep_all r;
           all_concat_error_bins_target_nosep :=
             dict_set (all_concat_error_bins_target_nosep r) key nosep_ |}.

Definition _finalize_results (r : results) : final := r.

Definition methods : handler accumulator error_fold_result results final :=
  {| initialize_results := _initialize_results;
     initialize_fold_accumulator := _initialize_fold_accumulator;
     extract := _extract_fold_data;
     process_single_fold := _process_single_fold;
     accumulate_fold_result := _accumulate_fold_result;
     aggregate_results := _aggregate_results;
     finalize_results := _finalize_results |}.

End ErrorEvaluationHandler.

Definition get_mean_errors (bin_predictions : dict data_frame)
  (uncertainty_pairs : list (list string)) (num_bins_arg : nat)
  (targets_arg : list Z) (num_folds_arg : nat) (error_scaling_factor : Q)
  (combine_middle_bins_arg : bool)
  : list event * result ErrorEvaluationHandler.final :=
  let evaluator_ := BaseUncertaintyEvaluator num_bins_arg targets_arg
                      num_folds_arg combine_middle_bins_arg in
  evaluate ErrorEvaluationHandler.methods evaluator_ bin_predictions
           uncertainty_pairs
           {| kw_model := "";
              kw_estimated_bounds := None;
              kw_error_scaling_factor := Some error_scaling_factor |}.

End Metrics.

(** ** kale/interpret/uncertainty_quantiles.py *)

Module Quantiles.
Import Py.

Section IsotonicRegression.

(** [IsotonicRegression(out_of_bounds="clip", increasing=True)] of
    scikit-learn: [fit] is [ir.fit_transform(uncertainties, errors)]
    and yields the fitted [ir.predict], or raises. *)
Variable fit : list Q -> list Q -> result (list Q -> list Q).

(** The body of the [for q in range(len(quantiles))] loop. *)
Definition quantile_step (predict : list Q -> list Q)
  (uncertainties : list Q) (s : list (list Q) * list Q) (q : Q)
  : result (list (list Q) * list Q) :=
  let '(uncert_boundaries, estimated_errors) := s in
  v <- np_quantile uncertainties q ;;
  let q_conf_higher := [v] in
  let q_error_higher := predict q_conf_higher in
  e <- index q_error_higher 0 ;;
  Ok (uncert_boundaries ++ [q_conf_higher], estimated_errors ++ [e]).

Definition quantile_binning_and_est_errors (errors uncertainties : list Q)
  (num_bins : nat) (type : string) (acceptable_thresh : Q)
  (combine_middle_bins : bool) : result (list (list Q) * list Q) :=
  if negb (Nat.eqb (length errors) (length uncertainties))
  then Raise ValueError
  else
    let valid_types := ["quantile"; "error-wise"]%string in
    if negb (existsb (String.eqb type) valid_types) then Raise ValueError
    else
      predict <- fit uncertainties errors ;;
      r <- (if String.eqb type "quantile" then
              quantiles <- quantile_levels num_bins ;;
              foldM (quantile_step predict uncertainties) quantiles ([], [])
            else if String.eqb type "error_wise" then
              Raise NotImplementedError
            else Ok ([], [])) ;;
      let '(uncert_boundaries, estimated_errors) := r in
      if combine_middle_bins then
        e0 <- index estimated_errors 0 ;;
        e1 <- index_last estimated_errors ;;
        u0 <- index uncert_boundaries 0 ;;
        u1 <- index_last uncert_boundaries ;;
        Ok ([u0; u1], [e0; e1])
      else Ok (uncert_boundaries, estimated_errors).

End IsotonicRegression.

End Quantiles.

(** * Properties *)

Import Py Metrics.

(** ** Sample data *)

Module Fixture.

Definition key : string := "S-MHA".

(** One target, three samples: errors [2, 4, 10], bins [0, 0, 1]. *)
Definition errors3 : err_frame :=
  {| ef_type := key;
     ef_rows := [ {| e_uid := "a"; e_target := 0; e_error := 2 |};
                  {| e_uid := "b"; e_target := 0; e_error := 4 |};
                  {| e_uid := "c"; e_target := 0; e_error := 10 |} ] |}.

Definition bins3 : bin_frame :=
  {| bf_type := key;
     bf_rows := [ {| b_uid := "a"; b_target := 0; b_bin := 0 |};
                  {| b_uid := "b"; b_target := 0; b_bin := 0 |};
                  {| b_uid := "c"; b_target := 0; b_bin := 1 |} ] |}.

(** A fold without any row. *)
Definition no_errors : err_frame := {| ef_type := key; ef_rows := [] |}.
Definition no_bins : bin_frame := {| bf_type := key; bf_rows := [] |}.

(** The per-model table behind [errors3] and [bins3], all in fold 0. *)
Definition table3 : data_frame :=
  {| df_uid := ["a"; "b"; "c"]%string;
     df_target_idx := [0; 0; 0]%Z;
     df_testing_fold := [0; 0; 0]%Z;
     df_error := [(key, [2; 4; 10]%Q)];
     df_uncertainty_bins := [(key, [0; 0; 1]%Z)] |}.

(** Bounds [3, 5] for fold 0. *)
Definition bounds3 : dict bounds_frame :=
  [("m Error Bounds"%string,
    {| bt_fold := [0%Z];
       bt_uncertainty_bounds := [(key, [[3; 5]%Q])] |})].

Definition value_or {A} (c : result A) (d : A) : A :=
  match c with Ok a => a | Raise _ => d end.

(** The dictionaries, the predicted groups and the two-way quantile
    groups of target 0 of [errors3] and [bins3]. *)
Definition dicts3 : dict Q * dict Z :=
  Eval vm_compute in
    value_or (target_dicts errors3 bins3 0 key None) ([], []).

Definition groups3 : list (list string * list Q) :=
  Eval vm_compute in value_or (group_bins (fst dicts3) (snd dicts3) 2) [].

Definition qgroups3 : list (list Q * list string) :=
  Eval vm_compute in value_or (quantile_groups (fst dicts3) 2 false) [].

(** The state of the bin loop of [bin_wise_jaccard] for target 0, on
    entry and after the first bin. *)
Definition jaccard_bins0 : jaccard_bins :=
  {| inner_jaccard_sims := []; inner_recalls := []; inner_precisions := [];
     jb_state := {| all_target_jacc := [];
                    all_qs_jacc := empties 2;
                    all_qs_jacc_concat_targets_sep := [empties 2];
                    all_target_recall := [];
                    all_qs_recall := empties 2;
                    all_target_precision := [];
                    all_qs_precision := empties 2 |} |}.

Definition jaccard_bins1 : jaccard_bins :=
  Eval vm_compute in
    value_or (jaccard_bin_step 0 (rev (map fst groups3))
                               (rev (map snd qgroups3)) jaccard_bins0 0)
             jaccard_bins0.

End Fixture.

(** ** Vocabulary of the statements *)

(** A run that raised [ValueError] with nothing extracted or scored. *)
Definition fails_before_any_fold {A} (run : list event * result A) : Prop :=
  run = ([], Raise ValueError).

(** The test of one quantile group, as a predicate on an entry. *)
Definition in_group (quantile_thresholds : list Q) (q : nat)
  (kv : string * Q) : bool :=
  match in_quantile_group quantile_thresholds q (snd kv) with
  | Ok b => b
  | Raise _ => false
  end.

(** The number of distinct ids of a group, and of those it shares with
    another group. *)
Definition card (a : list string) : nat := length (nodup string_dec a).

Definition inter_card (a b : list string) : nat :=
  length (nodup string_dec (filter (fun x => mem x b) a)).

(** The recall and precision policy on the two values of one bin. *)
Definition recall_precision_policy (pred gt : list string) (recall precision : Q)
  : Prop :=
  (gt = [] -> recall = 1%Q /\ precision = 0%Q)
  /\ (gt <> [] ->
      recall = (of_nat (inter_card pred gt) / of_nat (card gt))%Q
      /\ (pred = [] -> precision = 0%Q)
      /\ (pred <> [] ->
          precision = (of_nat (inter_card pred gt) / of_nat (card pred))%Q)).

(** The index clipping of [np_quantile], and the value it interpolates
    on sorted data [s] that starts with [x0]. *)
Definition clip (n : nat) (z : Z) : nat :=
  Z.to_nat (Z.min (Z.max z 0) (Z.of_nat (n - 1))).

Definition interpolate (s : list Q) (x0 q : Q) : Q :=
  let h := (q * of_nat (length s - 1))%Q in
  let prev := nth (clip (length s) (Qfloor h)) s x0 in
  let next := nth (clip (length s) (Qfloor h + 1)) s x0 in
  (prev + (next - prev) * (h - inject_Z (Qfloor h)))%Q.

(** The group of index [q]: the entries that pass its test, in the
    order of the dictionary. *)
Definition group_of (ts : list Q) (te : dict Q) (q : nat)
  : list Q * list string :=
  (map snd (filter (in_group ts q) te), map fst (filter (in_group ts q) te)).

Definition disjoint (a b : list string) : Prop :=
  forall x, In x a -> ~ In x b.

(** The value of [np.quantile] on data that is not empty. *)
Definition quantile_value (a : list Q) (q : Q) : Q :=
  match np_quantile a q with
  | Ok v => v
  | Raise _ => 0%Q
  end.

Definition rel_result {A B} (R : A -> B -> Prop)
  (c1 : result A) (c2 : result B) : Prop :=
  match c1, c2 with
  | Ok a, Ok b => R a b
  | Raise e1, Raise e2 => e1 = e2
  | _, _ => False
  end.

Definition rel_option {A B} (R : A -> B -> Prop)
  (o1 : option A) (o2 : option B) : Prop :=
  match o1, o2 with
  | Some a, Some b => R a b
  | None, None => True
  | _, _ => False
  end.

(** Entries with the same key and related values. *)
Definition rel_entry {A B} (R : A -> B -> Prop)
  (kv1 : string * A) (kv2 : string * B) : Prop :=
  fst kv1 = fst kv2 /\ R (snd kv1) (snd kv2).

(** Groups with the same ids and related errors. *)
Definition rel_group (R : Q -> Q -> Prop) (g1 g2 : list string * list Q)
  : Prop :=
  fst g1 = fst g2 /\ Forall2 R (snd g1) (snd g2).

(** [y] is [s] times [x]. *)
Definition scaled (s x y : Q) : Prop := (y == s * x)%Q.

Definition rel_error_state (s : Q) (st1 st2 : error_state) : Prop :=
  Forall2 (rel_option (scaled s)) (all_target_error st1) (all_target_error st2)
  /\ Forall2 (Forall2 (scaled s)) (all_qs_error st1) (all_qs_error st2)
  /\ Forall2 (Forall2 (Forall2 (Forall2 (scaled s))))
             (all_qs_error_concat_targets_sep st1)
             (all_qs_error_concat_targets_sep st2).

(** The four outputs of [bin_wise_errors], value by value. *)
Definition rel_error_result (s : Q) (r1 r2 : error_fold_result) : Prop :=
  rel_option (scaled s) (err_mean_all_targets r1) (err_mean_all_targets r2)
  /\ Forall2 (rel_option (scaled s)) (err_mean_all_bins r1) (err_mean_all_bins r2)
  /\ Forall2 (Forall2 (scaled s)) (err_all_bins r1) (err_all_bins r2)
  /\ Forall2 (Forall2 (Forall2 (Forall2 (scaled s))))
             (err_all_bins_concat_targets_sep r1)
             (err_all_bins_concat_targets_sep r2).

(** Every row has [n] entries. *)
Definition rows_of {A} (n : nat) (l : list (list A)) : Prop :=
  Forall (fun row => length row = n) l.

(** Every value of the dictionary has [n] entries. *)
Definition values_of {A} (n : nat) (d : dict (list A)) : Prop :=
  Forall (fun kv => length (snd kv) = n) d.

Definition bound_acc_axes (n : nat) (acc : BoundEvaluationHandler.accumulator)
  : Prop :=
  length (BoundEvaluationHandler.fold_learned_bounds_mean_bins acc) = n
  /\ length (BoundEvaluationHandler.fold_learned_bounds_bins_targetsnotsep acc)
     = n
  /\ rows_of n (BoundEvaluationHandler.fold_all_bins_concat_targets_sep_foldwise
                  acc)
  /\ rows_of n (BoundEvaluationHandler.fold_all_bins_concat_targets_sep_all acc).

Definition bound_results_axes (n : nat) (r : BoundEvaluationHandler.results)
  : Prop :=
  values_of n (BoundEvaluationHandler.all_bound_percents r)
  /\ values_of n (BoundEvaluationHandler.all_bound_percents_notargetsep r)
  /\ Forall (values_of n)
            (BoundEvaluationHandler.all_concat_errorbound_bins_target_sep_foldwise
               r)
  /\ Forall (values_of n)
            (BoundEvaluationHandler.all_concat_errorbound_bins_target_sep_all r).

Definition bound_final_axes (n : nat) (f : BoundEvaluationHandler.final)
  : Prop :=
  values_of n (BoundEvaluationHandler.Error_Bounds_All f)
  /\ values_of n (BoundEvaluationHandler.final_all_bound_percents_notargetsep f)
  /\ Forall (values_of n)
            (BoundEvaluationHandler.all_errorbound_concat_bins_targets_sep_foldwise
               f)
  /\ Forall (values_of n)
            (BoundEvaluationHandler.all_errorbound_concat_bins_targets_sep_all f).

Definition jaccard_acc_axes (n : nat)
  (acc : JaccardEvaluationHandler.accumulator) : Prop :=
  length (JaccardEvaluationHandler.fold_mean_bins acc) = n
  /\ length (JaccardEvaluationHandler.fold_all_bins acc) = n
  /\ length (JaccardEvaluationHandler.fold_mean_bins_recall acc) = n
  /\ length (JaccardEvaluationHandler.fold_all_bins_recall acc) = n
  /\ length (JaccardEvaluationHandler.fold_mean_bins_precision acc) = n
  /\ length (JaccardEvaluationHandler.fold_all_bins_precision acc) = n
  /\ rows_of n (JaccardEvaluationHandler.fold_all_bins_concat_targets_sep_foldwise
                  acc)
  /\ rows_of n (JaccardEvaluationHandler.fold_all_bins_concat_targets_sep_all
                  acc).

Definition jaccard_results_axes (n : nat)
  (r : JaccardEvaluationHandler.results) : Prop :=
  values_of n (JaccardEvaluationHandler.all_jaccard_data r)
  /\ values_of n (JaccardEvaluationHandler.all_jaccard_bins_targets_sep r)
  /\ values_of n (JaccardEvaluationHandler.all_recall_data r)
  /\ values_of n (JaccardEvaluationHandler.all_recall_bins_targets_sep r)
  /\ values_of n (JaccardEvaluationHandler.all_precision_data r)
  /\ values_of n (JaccardEvaluationHandler.all_precision__bins_targets_sep r)
  /\ Forall (values_of n)
            (JaccardEvaluationHandler.all_concat_jacc_bins_target_sep_foldwise r)
  /\ Forall (values_of n)
            (JaccardEvaluationHandler.all_concat_jacc_bins_target_sep_all r).

Definition error_acc_axes (n : nat) (acc : ErrorEvaluationHandler.accumulator)
  : Prop :=
  length (ErrorEvaluationHandler.fold_mean_bins acc) = n
  /\ length (ErrorEvaluationHandler.fold_all_bins acc) = n
  /\ length (ErrorEvaluationHandler.fold_all_bins_concat_targets_nosep acc) = n
  /\ rows_of n (ErrorEvaluationHandler.fold_all_bins_concat_targets_sep_foldwise
                  acc)
  /\ rows_of n (ErrorEvaluationHandler.fold_all_bins_concat_targets_sep_all acc).

Definition error_results_axes (n : nat) (r : ErrorEvaluationHandler.results)
  : Prop :=
  values_of n (ErrorEvaluationHandler.all_mean_error_bins r)
  /\ values_of n (ErrorEvaluationHandler.all_mean_error_bins_targets_sep r)
  /\ values_of n (ErrorEvaluationHandler.all_concat_error_bins_target_nosep r)
  /\ Forall (values_of n)
            (ErrorEvaluationHandler.all_concat_error_bins_target_sep_foldwise r)
  /\ Forall (values_of n)
            (ErrorEvaluationHandler.all_concat_error_bins_target_sep_all r).

(** The number of thresholds below an error: the index of the interval
    of ascending bounds the error lies in. *)
Definition bin_of (fold_bounds : list Q) (error : Q) : nat :=
  length (filter (fun b => Qltb b error) fold_bounds).

(** A fraction: a value between 0 and 1. *)
Definition fraction (a : Q) : Prop := (0 <= a)%Q /\ (a <= 1)%Q.

(** The shape of the accumulators of [bin_wise_bound_eval] for
    [n_targets] targets and [n_bins] bins, when [k] targets are done and
    the first [q] bins of the next one: every per-bin list holds one
    value per finished target (and one more for the bins already
    visited), every cell of the per-target table holds the one accuracy
    of its target and bin, or nothing yet. *)
Definition bound_shape (n_targets n_bins k q : nat) (st : bound_state)
  : Prop :=
  length (all_target_perc st) = k
  /\ length (all_qs_perc st) = n_bins
  /\ (forall j, j < n_bins ->
                length (nth j (all_qs_perc st) [])
                = if Nat.ltb j q then S k else k)
  /\ length (all_qs_size st) = n_bins
  /\ (forall j, j < n_bins ->
                length (nth j (all_qs_size st) [])
                = if Nat.ltb j q then S k else k)
  /\ length (all_qs_errorbound_concat_targets_sep st) = n_targets
  /\ (forall t, t < n_targets ->
                length (nth t (all_qs_errorbound_concat_targets_sep st) [])
                = n_bins)
  /\ (forall t j, t < n_targets -> j < n_bins ->
                  length (nth j (nth t (all_qs_errorbound_concat_targets_sep st)
                                     []) [])
                  = if Nat.ltb t k || (Nat.eqb t k && Nat.ltb j q)
                    then 1 else 0).

(** Every value the bound scorer has accumulated is a fraction. *)
Definition bound_fractions (st : bound_state) : Prop :=
  Forall fraction (all_target_perc st)
  /\ Forall (Forall fraction) (all_qs_perc st)
  /\ Forall (Forall (Forall fraction))
            (all_qs_errorbound_concat_targets_sep st).

(** A bin label that names one of the [num_bins] bins. *)
Definition label_in_range (num_bins : nat) (label : Z) : bool :=
  (0 <=? label)%Z && (label <? Z.of_nat num_bins)%Z.

(** [l] is an initial segment of [l']. *)
Definition prefix {A} (l l' : list A) : Prop := exists rest, l' = l ++ rest.

(** The steps of one fold, and the steps of a whole run: models in the
    order of the dictionary, for each the uncertainty types in the order
    of the pairs, for each the folds in ascending order. *)
Definition fold_events (model uncertainty_type : string) (fold : nat)
  : list event :=
  [Extracted model uncertainty_type fold; Scored model uncertainty_type fold].

Definition pair_types (uncertainty_pairs : list (list string)) : list string :=
  map (fun uncert_pair => hd EmptyString uncert_pair) uncertainty_pairs.

Definition schedule (models uncertainty_types : list string) (n_folds : nat)
  : list event :=
  flat_map (fun model =>
              flat_map (fun uncertainty_type =>
                          flat_map (fold_events model uncertainty_type)
                                   (range n_folds))
                       uncertainty_types)
           models.

(** A stage of a run that took the log from [log] to [log']: it added an
    initial segment of the steps [full], all of them if it finished. *)
Definition stage (log log' : list event) (finished : bool)
  (full : list event) : Prop :=
  exists done, log' = log ++ done /\ prefix done full
               /\ (finished = true -> done = full).

(** A table of [n] bins with [k] values each, all of them fractions. *)
Definition fraction_table (n k : nat) (l : list (list Q)) : Prop :=
  length l = n /\ rows_of k l /\ Forall (Forall fraction) l.

(** What the accumulation reads of a fold result of
    [bin_wise_bound_eval] for [n] bins and [n_targets] targets. *)
Definition bound_fold_ok (n n_targets : nat) (fr : bound_fold_result) : Prop :=
  length (bnd_mean_all_bins fr) = n
  /\ Forall fraction (bnd_mean_all_bins fr)
  /\ fraction_table n n_targets (bnd_mean_all fr).

(** The two per-bin accumulators of the bound evaluator after [k]
    folds. *)
Definition bound_acc_count (n n_targets k : nat)
  (acc : BoundEvaluationHandler.accumulator) : Prop :=
  fraction_table n k (BoundEvaluationHandler.fold_learned_bounds_mean_bins acc)
  /\ fraction_table n (k * n_targets)
       (BoundEvaluationHandler.fold_learned_bounds_bins_targetsnotsep acc).

(** The same accumulators inside the loop over the bins of fold [k],
    when the first [q] bins have received their values. *)
Definition bound_acc_partial (n n_targets k q : nat)
  (acc : BoundEvaluationHandler.accumulator) : Prop :=
  let mb := BoundEvaluationHandler.fold_learned_bounds_mean_bins acc in
  let ns := BoundEvaluationHandler.fold_learned_bounds_bins_targetsnotsep acc in
  length mb = n /\ length ns = n
  /\ (forall j, j < n ->
       length (nth j mb []) = if Nat.ltb j q then S k else k)
  /\ (forall j, j < n ->
       length (nth j ns [])
       = if Nat.ltb j q then S k * n_targets else k * n_targets)
  /\ Forall (Forall fraction) mb /\ Forall (Forall fraction) ns.

(** The two aggregated dictionaries of the bound evaluator. *)
Definition bound_results_count (n n_targets n_folds : nat)
  (r : BoundEvaluationHandler.results) : Prop :=
  Forall (fun kv => fraction_table n n_folds (snd kv))
         (BoundEvaluationHandler.all_bound_percents r)
  /\ Forall (fun kv => fraction_table n (n_folds * n_targets) (snd kv))
            (BoundEvaluationHandler.all_bound_percents_notargetsep r).

(** A table as pandas holds it: every column has one entry per row. *)
Definition well_formed (data_structs : data_frame) : Prop :=
  length (df_target_idx data_structs) = length (df_uid data_structs)
  /\ length (df_testing_fold data_structs) = length (df_uid data_structs)
  /\ Forall (fun kv => length (snd kv) = length (df_uid data_structs))
            (df_error data_structs)
  /\ Forall (fun kv => length (snd kv) = length (df_uid data_structs))
            (df_uncertainty_bins data_structs).

(** An error row and a bin row of the same sample and target. *)
Definition aligned (e : err_row) (b : bin_row) : Prop :=
  e_uid e = b_uid b /\ e_target e = b_target b.

(** What [bin_wise_errors] keeps of the errors of one predicted group:
    nothing for an empty group, else the group as one entry of the
    per-target table and its mean as one entry of the per-bin list. *)
Definition cell (errs : list Q) : list (list Q) :=
  match errs with
  | [] => []
  | _ => [errs]
  end.

Definition cell_means (errs : list Q) : list Q := map mean (cell errs).

(** The scaled errors of one target, grouped by predicted bin. *)
Definition target_groups (fold_errors : err_frame) (fold_bins : bin_frame)
  (num_bins : nat) (uncertainty_key : string) (error_scaling_factor : Q)
  (target_idx : Z) : result (list (list Q)) :=
  ds <- target_dicts fold_errors fold_bins target_idx uncertainty_key
                     (Some error_scaling_factor) ;;
  groups <- group_bins (fst ds) (snd ds) num_bins ;;
  Ok (map snd groups).

(** The statistics of [bin_wise_errors] as functions of the grouped
    errors [groups], one row per target and one group per bin. *)
Definition errors_of_groups (num_bins : nat) (groups : list (list (list Q)))
  : error_fold_result :=
  let all_qs_error :=
    map (fun b => flat_map (fun row => cell_means (nth b row [])) groups)
        (range num_bins) in
  {| err_mean_all_targets :=
       np_mean_nan (map (fun row => np_mean (flat_map cell_means row)) groups);
     err_mean_all_bins :=
       map (fun x => match x with
                     | [] => None
                     | _ => Some (mean x)
                     end) all_qs_error;
     err_all_bins := all_qs_error;
     err_all_bins_concat_targets_sep := map (map cell) groups |}.

(** The state of the loops of [bin_wise_errors] when the targets with
    groups [done] are finished and the first [q] groups of the next
    target, with groups [row], have been visited. *)
Definition error_progress (n_targets n : nat) (done : list (list (list Q)))
  (row : list (list Q)) (q : nat) (st : error_state) : Prop :=
  all_target_error st = map (fun r => np_mean (flat_map cell_means r)) done
  /\ length (all_qs_error st) = n
  /\ (forall b, b < n ->
       nth b (all_qs_error st) []
       = flat_map (fun r => cell_means (nth b r [])) done
         ++ (if Nat.ltb b q then cell_means (nth b row []) else []))
  /\ length (all_qs_error_concat_targets_sep st) = n_targets
  /\ (forall t, t < n_targets ->
       length (nth t (all_qs_error_concat_targets_sep st) []) = n)
  /\ (forall t b, t < n_targets -> b < n ->
       nth b (nth t (all_qs_error_concat_targets_sep st) []) []
       = if Nat.ltb t (length done) then cell (nth b (nth t done []) [])
         else if Nat.eqb t (length done) && Nat.ltb b q
              then cell (nth b row [])
              else []).




(** The three scores [bin_wise_jaccard] takes of a predicted group and
    the ground-truth group it is compared with. *)
Definition pair_jaccard (pg : list string * list string) : Q :=
  jaccard_similarity (fst pg) (snd pg).

Definition pair_recall (pg : list string * list string) : Q :=
  fst (recall_precision (fst pg) (snd pg)).

Definition pair_precision (pg : list string * list string) : Q :=
  snd (recall_precision (fst pg) (snd pg)).

(** The two groups compared in position [bin] of the flipped lists. *)
Definition pair_at (pred_bins_keys key_groups : list (list string))
  (bin : nat) : result (list string * list string) :=
  pred_b_keys <- index pred_bins_keys bin ;;
  gt_bins_keys <- index key_groups bin ;;
  Ok (pred_b_keys, gt_bins_keys).

(** For one target, the pairs of groups compared in the positions
    [0 .. num_bins-1]: both lists of groups are flipped first. *)
Definition target_pairs (fold_errors : err_frame) (fold_bins : bin_frame)
  (num_bins num_bins_quantiles : nat) (uncertainty_key : string)
  (combine_middle_bins : bool) (target_idx : Z)
  : result (list (list string * list string)) :=
  ds <- target_dicts fold_errors fold_bins target_idx uncertainty_key None ;;
  groups <- group_bins (fst ds) (snd ds) num_bins ;;
  qgroups <- quantile_groups (fst ds) num_bins_quantiles
                             combine_middle_bins ;;
  mapM (pair_at (rev (map fst groups)) (rev (map snd qgroups)))
       (range num_bins).

(** The scores [score] of position [b] of every row, in row order. *)
Definition column_of (score : list string * list string -> Q)
  (rows : list (list (list string * list string))) (b : nat) : list Q :=
  map (fun row => score (nth b row ([], []))) rows.

(** The statistics of [bin_wise_jaccard] as functions of the compared
    pairs [rows], one row per target and one pair per position. *)
Definition jaccard_of_pairs (num_bins : nat)
  (rows : list (list (list string * list string))) : jaccard_fold_result :=
  let all_qs score := map (column_of score rows) (range num_bins) in
  let all_target score := map (fun row => np_mean (map score row)) rows in
  {| jac_mean_all_targets := np_mean_nan (all_target pair_jaccard);
     jac_mean_all_bins := map np_mean (all_qs pair_jaccard);
     jac_all_bins := all_qs pair_jaccard;
     jac_mean_all_targets_recall := np_mean_nan (all_target pair_recall);
     jac_mean_all_bins_recall := map np_mean (all_qs pair_recall);
     jac_all_bins_recall := all_qs pair_recall;
     jac_mean_all_targets_precision :=
       np_mean_nan (all_target pair_precision);
     jac_mean_all_bins_precision := map np_mean (all_qs pair_precision);
     jac_all_bins_precision := all_qs pair_precision;
     jac_all_bins_concat_targets_sep :=
       map (fun row => map (fun pg => [pair_jaccard pg]) row) rows |}.

(** A per-bin accumulator of [bin_wise_jaccard] when the targets with
    pairs [done] are finished and the pairs [ys] of the next target have
    been scored. *)
Definition columns (n : nat) (score : list string * list string -> Q)
  (done : list (list (list string * list string)))
  (ys : list (list string * list string)) (l : list (list Q)) : Prop :=
  length l = n
  /\ forall b, b < n ->
       nth b l []
       = column_of score done b
         ++ (if Nat.ltb b (length ys) then [score (nth b ys ([], []))]
             else []).

(** The per-target table of [bin_wise_jaccard] at the same point. *)
Definition jaccard_table (n_targets n : nat)
  (done : list (list (list string * list string)))
  (ys : list (list string * list string)) (sep : list (list (list Q)))
  : Prop :=
  length sep = n_targets
  /\ (forall t, t < n_targets -> length (nth t sep []) = n)
  /\ forall t b, t < n_targets -> b < n ->
       nth b (nth t sep []) []
       = if Nat.ltb t (length done)
         then [pair_jaccard (nth b (nth t done []) ([], []))]
         else if Nat.eqb t (length done) && Nat.ltb b (length ys)
              then [pair_jaccard (nth b ys ([], []))]
              else [].

Definition jaccard_progress (n_targets n : nat)
  (done : list (list (list string * list string)))
  (ys : list (list string * list string)) (st : jaccard_state) : Prop :=
  all_target_jacc st = map (fun row => np_mean (map pair_jaccard row)) done
  /\ all_target_recall st
     = map (fun row => np_mean (map pair_recall row)) done
  /\ all_target_precision st
     = map (fun row => np_mean (map pair_precision row)) done
  /\ columns n pair_jaccard done ys (all_qs_jacc st)
  /\ columns n pair_recall done ys (all_qs_recall st)
  /\ columns n pair_precision done ys (all_qs_precision st)
  /\ jaccard_table n_targets n done ys (all_qs_jacc_concat_targets_sep st).

(** The state of the loop over the bins of one target: the accumulators
    and the three lists of the scores of the target so far. *)
Definition jaccard_bins_progress (n_targets n : nat)
  (done : list (list (list string * list string)))
  (ys : list (list string * list string)) (jb : jaccard_bins) : Prop :=
  jaccard_progress n_targets n done ys (jb_state jb)
  /\ inner_jaccard_sims jb = map pair_jaccard ys
  /\ inner_recalls jb = map pair_recall ys
  /\ inner_precisions jb = map pair_precision ys.

(** A table of [n] bins with [k] entries each, and the same table inside
    a loop over the bins that appends one entry per bin, when the first
    [q] bins have received theirs. *)
Definition counted {A} (n k : nat) (l : list (list A)) : Prop :=
  length l = n /\ rows_of k l.

Definition counted_partial {A} (n k q : nat) (l : list (list A)) : Prop :=
  length l = n
  /\ forall j, j < n ->
       length (nth j l []) = if Nat.ltb j q then S k else k.

(** The three tables of per-bin means of the Jaccard evaluator. *)
Definition jaccard_acc_count (n k : nat)
  (acc : JaccardEvaluationHandler.accumulator) : Prop :=
  counted n k (JaccardEvaluationHandler.fold_mean_bins acc)
  /\ counted n k (JaccardEvaluationHandler.fold_mean_bins_recall acc)
  /\ counted n k (JaccardEvaluationHandler.fold_mean_bins_precision acc).

Definition jaccard_acc_partial (n k q : nat)
  (acc : JaccardEvaluationHandler.accumulator) : Prop :=
  counted_partial n k q (JaccardEvaluationHandler.fold_mean_bins acc)
  /\ counted_partial n k q
       (JaccardEvaluationHandler.fold_mean_bins_recall acc)
  /\ counted_partial n k q
       (JaccardEvaluationHandler.fold_mean_bins_precision acc).

Definition jaccard_results_count (n n_folds : nat)
  (r : JaccardEvaluationHandler.results) : Prop :=
  Forall (fun kv => counted n n_folds (snd kv))
         (JaccardEvaluationHandler.all_jaccard_data r)
  /\ Forall (fun kv => counted n n_folds (snd kv))
            (JaccardEvaluationHandler.all_recall_data r)
  /\ Forall (fun kv => counted n n_folds (snd kv))
            (JaccardEvaluationHandler.all_precision_data r).

(** ** The result monad *)

Lemma bind_ok {A B} (c : result A) (k : A -> result B) (b : B) :
  Py.bind c k = Ok b -> exists a, c = Ok a /\ k a = Ok b.
Proof.
  destruct c as [a|e]; simpl; intros H; [exists a; auto | discriminate].
Qed.

Lemma bind_raise {A B} (c : result A) (k : A -> result B) (e : exn) :
  c = Raise e -> Py.bind c k = Raise e.
Proof. intros ->; reflexivity. Qed.

(** Peels the binds of a hypothesis [x <- c ;; k = Ok r]. *)
Ltac inv_bind H :=
  match type of H with
  | Py.bind ?c ?k = Ok ?r =>
      let a := fresh "a" in
      let Ha := fresh "H" a in
      apply bind_ok in H; destruct H as (a & Ha & H); try inv_bind H
  | _ => idtac
  end.

Lemma foldM_inv {A S} (P : S -> Prop) (f : S -> A -> result S) :
  (forall s x s', P s -> f s x = Ok s' -> P s') ->
  forall xs s s', P s -> foldM f xs s = Ok s' -> P s'.
Proof.
  intros Hstep xs; induction xs as [|x xs IH]; simpl; intros s s' Hs H.
  - now inversion H; subst.
  - apply bind_ok in H; destruct H as (s1 & H1 & H2); eauto.
Qed.

Lemma foldM_app {A S} (f : S -> A -> result S) (xs ys : list A) (s : S) :
  foldM f (xs ++ ys) s = Py.bind (foldM f xs s) (foldM f ys).
Proof.
  revert s; induction xs as [|x xs IH]; simpl; intros s; [reflexivity|].
  destruct (f s x); simpl; auto.
Qed.

(** A step that raises from every state makes the whole loop raise. *)
Lemma foldM_raises {A S} (f : S -> A -> result S) (xs : list A) (x : A) :
  In x xs -> (forall s, is_ok (f s x) = false) ->
  forall s, is_ok (foldM f xs s) = false.
Proof.
  induction xs as [|y xs IH]; simpl; [tauto|].
  intros [->|Hin] Hx s.
  - specialize (Hx s); destruct (f s x); [discriminate | reflexivity].
  - destruct (f s y); simpl; auto.
Qed.

Lemma bind_foldM_raises {A S B} (f : S -> A -> result S) (xs : list A)
  (x : A) (s : S) (k : S -> result B) :
  In x xs -> (forall s, is_ok (f s x) = false) ->
  is_ok (Py.bind (foldM f xs s) k) = false.
Proof.
  intros Hin Hx. pose proof (foldM_raises f xs x Hin Hx s) as H.
  destruct (foldM f xs s); [discriminate | reflexivity].
Qed.

Lemma mapM_ok_length {A B} (f : A -> result B) (xs : list A) (ys : list B) :
  mapM f xs = Ok ys -> length ys = length xs.
Proof.
  revert ys; induction xs as [|x xs IH]; simpl; intros ys H.
  - now inversion H.
  - inv_bind H. inversion H; subst; simpl; f_equal; auto.
Qed.

Lemma mapM_ok_nth {A B} (f : A -> result B) (xs : list A) (ys : list B) :
  mapM f xs = Ok ys ->
  forall i x, nth_error xs i = Some x ->
              exists y, nth_error ys i = Some y /\ f x = Ok y.
Proof.
  revert ys; induction xs as [|x xs IH]; simpl; intros ys H i x' Hi.
  - destruct i; discriminate.
  - inv_bind H. inversion H; subst.
    destruct i as [|i]; simpl in *.
    + inversion Hi; subst; eauto.
    + eauto.
Qed.

Lemma mapM_raises {A B} (f : A -> result B) (xs : list A) (x : A) (e : exn) :
  In x xs -> f x = Raise e ->
  (forall y e', In y xs -> f y = Raise e' -> e' = e) ->
  mapM f xs = Raise e.
Proof.
  induction xs as [|y xs IH]; simpl; [tauto|].
  intros Hin Hx Hall.
  destruct (f y) as [b|e'] eqn:Hy.
  - destruct Hin as [->|Hin]; [congruence|].
    simpl. rewrite IH; auto.
    intros z e' Hz; apply Hall; now right.
  - simpl. f_equal. apply (Hall y); [now left | assumption].
Qed.

Lemma mapM_total {A B} (f : A -> result B) (g : A -> B) (xs : list A) :
  (forall x, In x xs -> f x = Ok (g x)) -> mapM f xs = Ok (map g xs).
Proof.
  induction xs as [|x xs IH]; simpl; intros H; [reflexivity|].
  rewrite H by auto. simpl. rewrite IH by auto. reflexivity.
Qed.

(** ** The bound-accuracy scorer *)

Lemma weighted_sums_total_from (l : list (Q * nat)) (ws : Q * Q) :
  Forall (fun p => snd p = 0) l ->
  snd (fold_left (fun ws p => (fst ws + fst p * of_nat (snd p),
                               snd ws + of_nat (snd p))%Q) l ws) == snd ws.
Proof.
  revert ws; induction l as [|[a n] l IH]; simpl; intros ws Hl.
  - reflexivity.
  - inversion Hl as [|? ? Hn Hl']; subst; simpl in Hn; subst n.
    rewrite IH by assumption. simpl. unfold of_nat; simpl. ring.
Qed.

Lemma combine_repeat_zero (accs : list Q) (n : nat) :
  Forall (fun p : Q * nat => snd p = 0) (combine accs (repeat 0 n)).
Proof.
  revert n; induction accs as [|a accs IH]; intros [|n]; simpl;
    constructor; auto.
Qed.

Lemma accuracy_bin_empty (num_bins q : nat) (fold_bounds : list Q) :
  accuracy_bin num_bins q fold_bounds [] = Ok 0%Q.
Proof. reflexivity. Qed.

(** C1.  What the code does on a bin without samples: the test
    [inner_bin_correct == 0] is made first, so the accuracy of an empty
    bin is [0.0], not [1.0]; the branch for [len(inbin_errors) == 0] is
    never taken.  On one target with errors [2, 4, 10] in bins [0, 0, 1]
    and bounds [3, 5], the empty third bin is scored [0]. *)
Theorem empty_bin_accuracy_is_zero :
  (forall num_bins q fold_bounds,
      accuracy_bin num_bins q fold_bounds [] = Ok 0%Q)
  /\ (forall len_inbin, accuracy_of 0 len_inbin = 0%Q)
  /\ exists r,
      bin_wise_bound_eval [[3; 5]%Q] Fixture.errors3 Fixture.bins3 [0%Z]
                          Fixture.key 3 = Ok r
      /\ bnd_mean_all r = [[1 # 2]; [0]; [0]]%Q.
Proof.
  split; [exact accuracy_bin_empty|].
  split; [reflexivity|].
  eexists; split; vm_compute; reflexivity.
Qed.

(** C3.  The per-target summary divides the weighted sum by the total
    weight without a guard: when every bin of a target is empty the
    division raises [ZeroDivisionError], as on a fold that holds no row
    for the target. *)
Theorem empty_target_divides_by_zero :
  (forall bins_acc n,
      weighted_ave bins_acc (repeat 0 n) = Raise ZeroDivisionError)
  /\ bin_wise_bound_eval [[3; 5]%Q] Fixture.no_errors Fixture.no_bins [0%Z]
                         Fixture.key 3 = Raise ZeroDivisionError.
Proof.
  split; [|reflexivity].
  intros accs n. unfold weighted_ave, weighted_sums.
  pose proof (weighted_sums_total_from _ (0, 0)%Q (combine_repeat_zero accs n))
    as H.
  simpl in H. apply Qeq_bool_iff in H. rewrite H. reflexivity.
Qed.

(** C7.  [BoundEvaluationHandler._aggregate_results] reverses the two
    aggregate outputs only.  On the sample table (one model, one fold,
    one target, three bins) the scorer's per-bin accuracies are
    [[1/2], [0], [0]]; ["Error Bounds All"] holds them reversed, the two
    target-separated outputs hold them in the scorer's order. *)
Theorem bound_target_separated_outputs_not_reversed :
  let raw := [[1 # 2]; [0]; [0]]%Q in
  exists fin,
    snd (evaluate_bounds (Some Fixture.bounds3) [("m"%string, Fixture.table3)]
                         [[Fixture.key]] 3 [0%Z] 1 false) = Ok fin
    /\ dict_get (BoundEvaluationHandler.final_all_bound_percents_notargetsep fin)
                "m S-MHA" = Ok (rev raw)
    /\ (d <- index (BoundEvaluationHandler.all_errorbound_concat_bins_targets_sep_all
                      fin) 0 ;;
        dict_get d "m S-MHA") = Ok raw
    /\ (d <- index (BoundEvaluationHandler.all_errorbound_concat_bins_targets_sep_foldwise
                      fin) 0 ;;
        dict_get d "m S-MHA") = Ok raw
    /\ nth 0 raw [] <> nth 2 raw [].
Proof.
  eexists. split; [vm_compute; reflexivity|].
  repeat split; try (vm_compute; reflexivity).
  simpl. intros H. discriminate H.
Qed.

(** ** quantile_binning_and_est_errors *)

(** C2.  The set of valid types spells the mode ["error-wise"], the
    branch that raises [NotImplementedError] tests for ["error_wise"]:
    a call with ["error-wise"] passes the validation, skips both
    branches and goes on with two empty lists.  It returns them when
    [combine_middle_bins] is off and raises [IndexError] on
    [estimated_errors[0]] when it is on. *)
Theorem error_wise_is_not_rejected
  (fit : list Q -> list Q -> result (list Q -> list Q))
  (predict : list Q -> list Q) (errors uncertainties : list Q)
  (num_bins : nat) (acceptable_thresh : Q) (combine_middle_bins : bool) :
  length errors = length uncertainties ->
  fit uncertainties errors = Ok predict ->
  Quantiles.quantile_binning_and_est_errors fit errors uncertainties num_bins
    "error-wise" acceptable_thresh combine_middle_bins
  = if combine_middle_bins then Raise IndexError else Ok ([], []).
Proof.
  intros Hlen Hfit. unfold Quantiles.quantile_binning_and_est_errors.
  rewrite Hlen, Nat.eqb_refl. simpl. rewrite Hfit. simpl.
  destruct combine_middle_bins; reflexivity.
Qed.

Lemma error_wise_is_not_rejected_witness :
  Quantiles.quantile_binning_and_est_errors
    (fun _ _ => Ok (fun x => x)) [1; 2]%Q [3; 4]%Q 5 "error-wise" 5%Q false
  = Ok ([], []).
Proof.
  apply (error_wise_is_not_rejected (fun _ _ => Ok (fun x => x)) (fun x => x)
           [1; 2]%Q [3; 4]%Q 5 5%Q false); reflexivity.
Defined.

(** ** The bound evaluator and its required inputs *)

(** The sample call without a bound table raises [ValueError] only after
    the data of fold 0 has been extracted. *)
Lemma missing_bounds_checked_after_extraction :
  falsy_dict (@None (dict bounds_frame)) = true
  /\ evaluate_bounds None [("m"%string, Fixture.table3)] [[Fixture.key]]
                     3 [0%Z] 1 false
     = ([Extracted "m" Fixture.key 0], Raise ValueError)
  /\ ~ fails_before_any_fold
         (evaluate_bounds None [("m"%string, Fixture.table3)] [[Fixture.key]]
                          3 [0%Z] 1 false).
Proof.
  split; [reflexivity|]. split; [reflexivity|].
  unfold fails_before_any_fold. intros H. vm_compute in H. discriminate H.
Qed.

(** C8, amended.  With no bound table (absent or empty) or an empty name
    for the first model, a call with at least one model, one uncertainty
    pair and one fold raises [ValueError] from [_process_single_fold] of
    the first fold: by then that fold's data has been extracted (its
    columns exist), and no fold has been scored.  With no model to
    evaluate the call returns normally. *)
Theorem missing_bound_inputs_fail_in_first_fold
  (estimated_bounds : option (dict bounds_frame))
  (model : string) (data_structs : data_frame) (rest : dict data_frame)
  (uncertainty_type : string) (pair_rest : list string)
  (pairs_rest : list (list string)) (num_bins_arg : nat) (targets_arg : list Z)
  (more_folds : nat) (combine_middle_bins_arg : bool) (fd : fold_data) :
  falsy_dict estimated_bounds || falsy_str model = true ->
  extract_fold_data data_structs 0 uncertainty_type = Ok fd ->
  evaluate_bounds estimated_bounds ((model, data_structs) :: rest)
                  ((uncertainty_type :: pair_rest) :: pairs_rest)
                  num_bins_arg targets_arg (S more_folds)
                  combine_middle_bins_arg
  = ([Extracted model uncertainty_type 0], Raise ValueError)
  /\ exists fin,
      evaluate_bounds estimated_bounds [] ((uncertainty_type :: pair_rest)
                                             :: pairs_rest)
                      num_bins_arg targets_arg (S more_folds)
                      combine_middle_bins_arg
      = ([], Ok fin).
Proof.
  intros Hmissing Hextract. split.
  - unfold evaluate_bounds, evaluate. cbn [evaluate_models evaluate_pairs].
    cbn [index nth_error]. unfold process_folds.
    cbn [num_folds BaseUncertaintyEvaluator range seq process_folds_from].
    cbn [extract BoundEvaluationHandler.methods].
    unfold BoundEvaluationHandler._extract_fold_data. rewrite Hextract.
    cbn [Py.bind process_single_fold BoundEvaluationHandler.methods].
    unfold BoundEvaluationHandler._process_single_fold.
    cbn [kw_estimated_bounds kw_model]. rewrite Hmissing. reflexivity.
  - eexists. reflexivity.
Qed.

Lemma missing_bound_inputs_fail_in_first_fold_witness :
  evaluate_bounds None [("m"%string, Fixture.table3)] [[Fixture.key]]
                  3 [0%Z] 1 false
  = ([Extracted "m" Fixture.key 0], Raise ValueError).
Proof.
  refine (proj1 (missing_bound_inputs_fail_in_first_fold None "m"
                   Fixture.table3 [] Fixture.key [] [] 3 [0%Z] 0 false
                   _ _ _)).
  - reflexivity.
  - vm_compute. reflexivity.
Defined.

(** ** Dictionaries built by [dict(zip(...))] *)

Lemma keys_dict_set_values {V W} (d : dict V) (d' : dict W) k v w :
  keys d = keys d' -> keys (dict_set d k v) = keys (dict_set d' k w).
Proof.
  revert d'; induction d as [|[k1 v1] d IH]; intros [|[k2 v2] d'];
    simpl; intros H; try discriminate; [reflexivity|].
  inversion H; subst. destruct (String.eqb k k2); simpl; f_equal; auto.
Qed.

Lemma keys_fold_dict_set {V W} (ks : list string) :
  forall (vs : list V) (ws : list W) (d : dict V) (d' : dict W),
    length vs = length ws -> keys d = keys d' ->
    keys (fold_left (fun d kv => dict_set d (fst kv) (snd kv)) (combine ks vs) d)
    = keys (fold_left (fun d kv => dict_set d (fst kv) (snd kv))
                      (combine ks ws) d').
Proof.
  induction ks as [|k ks IH]; intros [|v vs] [|w ws] d d' Hlen Hk;
    simpl in *; try discriminate; auto.
  apply IH; [lia|]. now apply keys_dict_set_values.
Qed.

(** The keys of [dict(zip(ks, vs))] do not depend on the values. *)
Lemma keys_dict_zip_values {V W} (ks : list string) (vs : list V)
  (ws : list W) :
  length vs = length ws -> keys (dict_zip ks vs) = keys (dict_zip ks ws).
Proof. intros H. unfold dict_zip. now apply keys_fold_dict_set. Qed.

Lemma keys_target_dicts fe fb target_idx key s te pb :
  target_dicts fe fb target_idx key None = Ok (te, pb) ->
  exists te', target_dicts fe fb target_idx key (Some s) = Ok (te', pb)
              /\ keys te' = keys te.
Proof.
  unfold target_dicts. intros H.
  destruct (true_errors_rows fe target_idx key) as [rows|]; [|discriminate].
  destruct (pred_bins_rows fe fb target_idx key) as [brows|]; [|discriminate].
  simpl in *. inversion H; subst. eexists. split; [reflexivity|].
  apply keys_dict_zip_values. now rewrite !length_map.
Qed.

(** ** Bin grouping *)

Lemma lookup_error_missing (te : dict Q) (id_ : string) :
  ~ In id_ (keys te) -> lookup_error te id_ = Raise IndexError.
Proof.
  intros Hnot. unfold lookup_error.
  replace (filter (fun kv => String.eqb (fst kv) id_) te) with (@nil (string * Q));
    [reflexivity|].
  symmetry. induction te as [|[k v] te IH]; simpl; [reflexivity|].
  simpl in Hnot. destruct (String.eqb_spec k id_) as [->|Hne].
  - exfalso; apply Hnot; now left.
  - apply IH. intros Hin; apply Hnot; now right.
Qed.

Lemma lookup_error_raises (te : dict Q) (id_ : string) (e : exn) :
  lookup_error te id_ = Raise e -> e = IndexError.
Proof.
  unfold lookup_error, index.
  destruct (nth_error _ 0); intros H; inversion H; reflexivity.
Qed.

Lemma group_bin_raises te pb j e :
  group_bin te pb j = Raise e -> e = IndexError.
Proof.
  unfold group_bin. generalize (inner_list pb j) as ids.
  induction ids as [|x ids IH]; simpl; [discriminate|].
  destruct (lookup_error te x) eqn:Hx; simpl.
  - destruct (mapM (lookup_error te) ids); simpl in *; [discriminate|].
    intros H; apply IH; exact H.
  - intros H; inversion H; subst. eapply lookup_error_raises; eauto.
Qed.

Lemma inner_list_In pb id_ j :
  In id_ (inner_list pb j) <-> In (id_, Z.of_nat j) pb.
Proof.
  unfold inner_list. rewrite in_map_iff. split.
  - intros ([k v] & Hk & Hin). simpl in Hk; subst k.
    apply filter_In in Hin. destruct Hin as [Hin Heq]. simpl in Heq.
    apply Z.eqb_eq in Heq. now subst v.
  - intros Hin. exists (id_, Z.of_nat j). split; [reflexivity|].
    apply filter_In. split; [assumption|]. simpl. apply Z.eqb_refl.
Qed.

Lemma group_bin_dangling te pb id_ j :
  In (id_, Z.of_nat j) pb -> ~ In id_ (keys te) ->
  group_bin te pb j = Raise IndexError.
Proof.
  intros Hin Hnot. unfold group_bin.
  rewrite (mapM_raises (lookup_error te) (inner_list pb j) id_ IndexError).
  - reflexivity.
  - now apply inner_list_In.
  - now apply lookup_error_missing.
  - intros y e' _ Hy. eapply lookup_error_raises; eauto.
Qed.

Lemma group_bins_dangling te pb id_ j num_bins :
  In (id_, Z.of_nat j) pb -> j < num_bins -> ~ In id_ (keys te) ->
  group_bins te pb num_bins = Raise IndexError.
Proof.
  intros Hin Hj Hnot. unfold group_bins.
  apply (mapM_raises _ _ j).
  - unfold range. apply in_seq. lia.
  - eapply group_bin_dangling; eauto.
  - intros y e' _ Hy. eapply group_bin_raises; eauto.
Qed.

Lemma In_enumerate {A} (l : list A) (x : A) :
  In x l -> exists i, In (i, x) (enumerate l).
Proof.
  unfold enumerate. generalize 0 as start.
  induction l as [|y l IH]; simpl; intros start Hin; [tauto|].
  destruct Hin as [->|Hin].
  - exists start. now left.
  - destruct (IH (S start) Hin) as (i & Hi). exists i. now right.
Qed.

(** C9.  An id of the bin-label map of a target, labelled with one of
    the [num_bins] bins and missing from the error map, makes the shared
    grouping loop raise [IndexError] (the [[0]] of an empty list): the
    step of each scorer for that target raises it from every state, no
    scorer run over a list of targets that contains it returns, and a
    run that meets the target first raises [IndexError] itself. *)
Theorem dangling_bin_id_raises
  (fold_errors : err_frame) (fold_bins : bin_frame) (target_idx : Z)
  (key : string) (num_bins : nat) (true_errors_ti : dict Q)
  (pred_bins_ti : dict Z) (id_ : string) (j : nat) :
  target_dicts fold_errors fold_bins target_idx key None
  = Ok (true_errors_ti, pred_bins_ti) ->
  In (id_, Z.of_nat j) pred_bins_ti ->
  j < num_bins ->
  ~ In id_ (keys true_errors_ti) ->
  group_bins true_errors_ti pred_bins_ti num_bins = Raise IndexError
  /\ (forall bounds st i,
         bound_target_step bounds fold_errors fold_bins key num_bins st
                           (i, target_idx) = Raise IndexError)
  /\ (forall s st i,
         error_target_step fold_errors fold_bins num_bins key s st
                           (i, target_idx) = Raise IndexError)
  /\ (forall nbq cmb st i,
         jaccard_target_step fold_errors fold_bins num_bins nbq key cmb st
                             (i, target_idx) = Raise IndexError)
  /\ (forall targets, In target_idx targets ->
        (forall bounds,
            is_ok (bin_wise_bound_eval bounds fold_errors fold_bins targets
                                       key num_bins) = false)
        /\ (forall s,
               is_ok (bin_wise_errors fold_errors fold_bins num_bins targets
                                      key s) = false)
        /\ (forall nbq cmb,
               is_ok (bin_wise_jaccard fold_errors fold_bins num_bins nbq
                                       targets key cmb) = false))
  /\ (forall rest,
        (forall bounds,
            bin_wise_bound_eval bounds fold_errors fold_bins
                                (target_idx :: rest) key num_bins
            = Raise IndexError)
        /\ (forall s,
               bin_wise_errors fold_errors fold_bins num_bins
                               (target_idx :: rest) key s
               = Raise IndexError)
        /\ (forall nbq cmb,
               bin_wise_jaccard fold_errors fold_bins num_bins nbq
                                (target_idx :: rest) key cmb
               = Raise IndexError)).
Proof.
  intros Hd Hin Hj Hnot.
  pose proof (group_bins_dangling _ _ _ _ _ Hin Hj Hnot) as Hg.
  assert (Hb : forall bounds st i,
             bound_target_step bounds fold_errors fold_bins key num_bins st
                               (i, target_idx) = Raise IndexError).
  { intros bounds st i. unfold bound_target_step. rewrite Hd. simpl.
    unfold index at 1. destruct (nth_error bounds i); simpl; [|reflexivity].
    rewrite Hg. reflexivity. }
  assert (He : forall s st i,
             error_target_step fold_errors fold_bins num_bins key s st
                               (i, target_idx) = Raise IndexError).
  { intros s st i. unfold error_target_step.
    destruct (keys_target_dicts _ _ _ _ s _ _ Hd) as (te' & Hd' & Hk).
    rewrite Hd'. simpl.
    rewrite (group_bins_dangling te' pred_bins_ti id_ j num_bins); auto.
    now rewrite Hk. }
  assert (Hjac : forall nbq cmb st i,
             jaccard_target_step fold_errors fold_bins num_bins nbq key cmb st
                                 (i, target_idx) = Raise IndexError).
  { intros nbq cmb st i. unfold jaccard_target_step. rewrite Hd. simpl.
    rewrite Hg. reflexivity. }
  split; [exact Hg|]. split; [exact Hb|]. split; [exact He|].
  split; [exact Hjac|].
  split.
  2:{ intros rest. split; [|split]; intros.
      - unfold bin_wise_bound_eval, enumerate.
        cbn [length seq combine foldM]. now rewrite Hb.
      - unfold bin_wise_errors, enumerate.
        cbn [length seq combine foldM]. now rewrite He.
      - unfold bin_wise_jaccard, enumerate.
        cbn [length seq combine foldM]. now rewrite Hjac. }
  intros targets Ht. destruct (In_enumerate _ _ Ht) as (i & Hi).
  split; [|split].
  - intros bounds. unfold bin_wise_bound_eval.
    apply (bind_foldM_raises _ _ (i, target_idx)); [exact Hi|].
    intros st; now rewrite Hb.
  - intros s. unfold bin_wise_errors.
    apply (bind_foldM_raises _ _ (i, target_idx)); [exact Hi|].
    intros st; now rewrite He.
  - intros nbq cmb. unfold bin_wise_jaccard.
    apply (bind_foldM_raises _ _ (i, target_idx)); [exact Hi|].
    intros st; now rewrite Hjac.
Qed.

Lemma dangling_bin_id_raises_witness :
  group_bins [("a"%string, 2%Q)] [("z"%string, 1%Z)] 2 = Raise IndexError.
Proof.
  refine (proj1 (dangling_bin_id_raises
                   {| ef_type := Fixture.key;
                      ef_rows := [ {| e_uid := "a"; e_target := 0;
                                      e_error := 2 |} ] |}
                   {| bf_type := Fixture.key;
                      bf_rows := [ {| b_uid := "z"; b_target := 0;
                                      b_bin := 1 |} ] |}
                   0%Z Fixture.key 2 [("a"%string, 2%Q)] [("z"%string, 1%Z)]
                   "z" 1 _ _ _ _)).
  - reflexivity.
  - simpl. left. reflexivity.
  - lia.
  - simpl. intros [H|[]]. discriminate H.
Defined.

(** ** Keys of the groups *)

Lemma mapM_ok_Forall {A B} (f : A -> result B) (xs : list A) (ys : list B) :
  mapM f xs = Ok ys ->
  Forall (fun y => exists x, In x xs /\ f x = Ok y) ys.
Proof.
  revert ys; induction xs as [|x xs IH]; simpl; intros ys H.
  - inversion H; constructor.
  - inv_bind H. inversion H; subst. constructor.
    + exists x; auto.
    + eapply Forall_impl; [|apply IH; eassumption].
      intros y (x' & Hin & Hx'). exists x'; auto.
Qed.

Lemma In_keys_dict_set {V} (d : dict V) k v x :
  In x (keys (dict_set d k v)) <-> x = k \/ In x (keys d).
Proof.
  induction d as [|[k' v'] d IH]; simpl.
  - intuition.
  - destruct (String.eqb_spec k k') as [->|Hne]; simpl.
    + intuition.
    + rewrite IH. intuition.
Qed.

Lemma NoDup_keys_dict_set {V} (d : dict V) k v :
  NoDup (keys d) -> NoDup (keys (dict_set d k v)).
Proof.
  induction d as [|[k' v'] d IH]; simpl; intros H.
  - constructor; [intros []|constructor].
  - inversion H as [|? ? Hnot Hd]; subst.
    destruct (String.eqb_spec k k') as [->|Hne]; simpl.
    + constructor; assumption.
    + constructor; [|now apply IH].
      rewrite In_keys_dict_set. intros [->|Hin]; [now apply Hne|now apply Hnot].
Qed.

Lemma NoDup_keys_dict_zip {V} (ks : list string) (vs : list V) :
  NoDup (keys (dict_zip ks vs)).
Proof.
  unfold dict_zip.
  assert (H : forall l (d : dict V), NoDup (keys d) ->
              NoDup (keys (fold_left
                             (fun d kv => dict_set d (fst kv) (snd kv)) l d))).
  { induction l as [|kv l IH]; simpl; intros d Hd; [assumption|].
    apply IH. now apply NoDup_keys_dict_set. }
  apply H. constructor.
Qed.

Lemma NoDup_keys_filter {V} (p : string * V -> bool) (d : dict V) :
  NoDup (keys d) -> NoDup (map fst (filter p d)).
Proof.
  induction d as [|[k v] d IH]; simpl; intros H; [constructor|].
  inversion H as [|? ? Hnot Hd]; subst.
  destruct (p (k, v)); simpl; [|now apply IH].
  constructor; [|now apply IH].
  intros Hin. apply Hnot. apply in_map_iff in Hin.
  destruct Hin as ([k' v'] & Hk & Hin). simpl in Hk; subst k'.
  apply filter_In in Hin. destruct Hin as [Hin _].
  apply in_map_iff. exists (k, v'); auto.
Qed.

Lemma target_dicts_NoDup fe fb target_idx key scale te pb :
  target_dicts fe fb target_idx key scale = Ok (te, pb) ->
  NoDup (keys te) /\ NoDup (keys pb).
Proof.
  unfold target_dicts. intros H. inv_bind H. inversion H; subst.
  split; apply NoDup_keys_dict_zip.
Qed.

Lemma quantile_group_from ts q (te : dict Q) :
  forall es ks g,
    foldM (fun g kv =>
             ok <- in_quantile_group ts q (snd kv) ;;
             Ok (if ok then (fst g ++ [snd kv], snd g ++ [fst kv]) else g))
          te (es, ks) = Ok g ->
    g = (es ++ map snd (filter (in_group ts q) te),
         ks ++ map fst (filter (in_group ts q) te)).
Proof.
  induction te as [|[k v] te IH]; simpl; intros es ks g H.
  - inversion H; subst. now rewrite !app_nil_r.
  - apply bind_ok in H. destruct H as (g1 & H1 & H2).
    apply bind_ok in H1. destruct H1 as (b & Hb & H1).
    inversion H1; subst g1; clear H1.
    assert (Hg : in_group ts q (k, v) = b)
      by (unfold in_group; simpl; now rewrite Hb).
    rewrite Hg.
    destruct b; simpl in H2; apply IH in H2; subst g; simpl;
      now rewrite <- ?app_assoc.
Qed.

Lemma quantile_group_filter ts te q g :
  quantile_group ts te q = Ok g ->
  g = (map snd (filter (in_group ts q) te),
       map fst (filter (in_group ts q) te)).
Proof. intros H. apply quantile_group_from in H. exact H. Qed.

Lemma group_bins_keys te pb num_bins groups :
  group_bins te pb num_bins = Ok groups ->
  Forall (fun g => exists j, fst g = inner_list pb j) groups.
Proof.
  intros H. apply mapM_ok_Forall in H.
  eapply Forall_impl; [|exact H].
  intros g (j & _ & Hj). exists j. unfold group_bin in Hj.
  inv_bind Hj. now inversion Hj.
Qed.

Lemma quantile_groups_keys te nbq cmb qgroups :
  quantile_groups te nbq cmb = Ok qgroups ->
  Forall (fun g => exists p, snd g = map fst (filter p te)) qgroups.
Proof.
  unfold quantile_groups. intros H. inv_bind H.
  apply mapM_ok_Forall in H.
  eapply Forall_impl; [|exact H].
  intros g (q & _ & Hq). apply quantile_group_filter in Hq.
  subst g. eexists; reflexivity.
Qed.

Lemma index_In {A} (l : list A) i x : index l i = Ok x -> In x l.
Proof.
  unfold index. destruct (nth_error l i) eqn:H; intros E; inversion E; subst.
  eapply nth_error_In; eauto.
Qed.

(** ** Recall and precision *)

Lemma count_in_inter_card pred gt :
  NoDup pred -> count_in pred gt = inter_card pred gt.
Proof.
  intros H. unfold count_in, inter_card.
  rewrite nodup_fixed_point; [reflexivity|]. now apply NoDup_filter.
Qed.

Lemma length_card a : NoDup a -> length a = card a.
Proof. intros H. unfold card. now rewrite nodup_fixed_point. Qed.

Lemma recall_precision_sound pred gt :
  NoDup pred -> NoDup gt ->
  recall_precision_policy pred gt (fst (recall_precision pred gt))
                          (snd (recall_precision pred gt)).
Proof.
  intros Hp Hg. unfold recall_precision_policy, recall_precision.
  rewrite (count_in_inter_card _ _ Hp).
  rewrite <- (length_card _ Hg), <- (length_card _ Hp).
  split.
  - intros ->. simpl. auto.
  - intros Hne. destruct gt as [|g gt]; [congruence|].
    cbn [length Nat.eqb fst snd Nat.ltb Nat.leb andb]. split; [reflexivity|].
    split.
    + intros ->. reflexivity.
    + intros Hpne. destruct pred as [|p pred]; [congruence|]. reflexivity.
Qed.

(** C4.  In the loop of [bin_wise_jaccard] over the bins of one target,
    the recall and the precision recorded for a bin follow the policy:
    with an empty ground-truth group they are [1] and [0] whatever was
    predicted; otherwise the recall is [|pred n gt| / |gt|] and the
    precision is [0] for an empty predicted group and
    [|pred n gt| / |pred|] for any other. *)
Theorem recall_precision_per_bin
  (fold_errors : err_frame) (fold_bins : bin_frame) (target_idx : Z)
  (key : string) (num_bins num_bins_quantiles : nat)
  (combine_middle_bins : bool) (true_errors_ti : dict Q)
  (pred_bins_ti : dict Z) (groups : list (list string * list Q))
  (qgroups : list (list Q * list string)) (i bin : nat)
  (s s' : jaccard_bins) :
  target_dicts fold_errors fold_bins target_idx key None
  = Ok (true_errors_ti, pred_bins_ti) ->
  group_bins true_errors_ti pred_bins_ti num_bins = Ok groups ->
  quantile_groups true_errors_ti num_bins_quantiles combine_middle_bins
  = Ok qgroups ->
  jaccard_bin_step i (rev (map fst groups)) (rev (map snd qgroups)) s bin
  = Ok s' ->
  exists pred_b_keys gt_bins_keys recall precision,
    index (rev (map fst groups)) bin = Ok pred_b_keys
    /\ index (rev (map snd qgroups)) bin = Ok gt_bins_keys
    /\ inner_recalls s' = inner_recalls s ++ [recall]
    /\ inner_precisions s' = inner_precisions s ++ [precision]
    /\ append_at (all_qs_recall (jb_state s)) bin recall
       = Ok (all_qs_recall (jb_state s'))
    /\ append_at (all_qs_precision (jb_state s)) bin precision
       = Ok (all_qs_precision (jb_state s'))
    /\ recall_precision_policy pred_b_keys gt_bins_keys recall precision.
Proof.
  intros Hd Hg Hq Hstep.
  destruct (target_dicts_NoDup _ _ _ _ _ _ _ Hd) as [Hte Hpb].
  unfold jaccard_bin_step in Hstep.
  apply bind_ok in Hstep. destruct Hstep as (pred & Hpred & Hstep).
  apply bind_ok in Hstep. destruct Hstep as (gt & Hgt & Hstep).
  apply bind_ok in Hstep. destruct Hstep as (qsj & Hqsj & Hstep).
  apply bind_ok in Hstep. destruct Hstep as (sep & Hsep & Hstep).
  pose proof (recall_precision_sound pred gt) as Hpol.
  destruct (recall_precision pred gt) as [recall precision].
  apply bind_ok in Hstep. destruct Hstep as (qsr & Hqsr & Hstep).
  apply bind_ok in Hstep. destruct Hstep as (qsp & Hqsp & Hstep).
  inversion Hstep; subst s'; clear Hstep. simpl.
  exists pred, gt, recall, precision.
  repeat (split; [first [assumption | reflexivity]|]).
  apply Hpol.
  - apply index_In, in_rev in Hpred.
    apply group_bins_keys in Hg. rewrite Forall_forall in Hg.
    apply in_map_iff in Hpred. destruct Hpred as (g & <- & Hin).
    destruct (Hg g Hin) as (j & ->). unfold inner_list.
    now apply NoDup_keys_filter.
  - apply index_In, in_rev in Hgt.
    apply quantile_groups_keys in Hq. rewrite Forall_forall in Hq.
    apply in_map_iff in Hgt. destruct Hgt as (g & <- & Hin).
    destruct (Hq g Hin) as (p & ->).
    now apply NoDup_keys_filter.
Qed.

Lemma recall_precision_per_bin_witness :
  exists pred_b_keys gt_bins_keys recall precision,
    index (rev (map fst Fixture.groups3)) 0 = Ok pred_b_keys
    /\ index (rev (map snd Fixture.qgroups3)) 0 = Ok gt_bins_keys
    /\ inner_recalls Fixture.jaccard_bins1
       = inner_recalls Fixture.jaccard_bins0 ++ [recall]
    /\ inner_precisions Fixture.jaccard_bins1
       = inner_precisions Fixture.jaccard_bins0 ++ [precision]
    /\ append_at (all_qs_recall (jb_state Fixture.jaccard_bins0)) 0 recall
       = Ok (all_qs_recall (jb_state Fixture.jaccard_bins1))
    /\ append_at (all_qs_precision (jb_state Fixture.jaccard_bins0)) 0 precision
       = Ok (all_qs_precision (jb_state Fixture.jaccard_bins1))
    /\ recall_precision_policy pred_b_keys gt_bins_keys recall precision.
Proof.
  apply (recall_precision_per_bin Fixture.errors3 Fixture.bins3 0%Z
           Fixture.key 2 2 false (fst Fixture.dicts3) (snd Fixture.dicts3)
           Fixture.groups3 Fixture.qgroups3 0 0
           Fixture.jaccard_bins0 Fixture.jaccard_bins1);
    vm_compute; reflexivity.
Defined.

(** ** Sorting and quantiles *)

Section Quantile_facts.
Local Open Scope Q_scope.

Lemma In_insert_sorted x y l :
  In y (insert_sorted x l) <-> y = x \/ In y l.
Proof.
  induction l as [|z l IH]; simpl.
  - intuition.
  - destruct (Qle_bool x z); simpl; [intuition|].
    rewrite IH. intuition.
Qed.

Lemma insert_sorted_sorted x l :
  StronglySorted Qle l -> StronglySorted Qle (insert_sorted x l).
Proof.
  induction 1 as [|z l Hl IH Hz]; simpl.
  - constructor; constructor.
  - destruct (Qle_bool x z) eqn:Hxz.
    + apply Qle_bool_iff in Hxz. constructor.
      * constructor; assumption.
      * constructor; [assumption|].
        eapply Forall_impl; [|exact Hz]. intros w Hw. lra.
    + constructor; [assumption|].
      apply Forall_forall. intros w Hw. apply In_insert_sorted in Hw.
      destruct Hw as [->|Hw].
      * destruct (Qlt_le_dec z x) as [Hlt|Hle]; [lra|].
        apply Qle_bool_iff in Hle. congruence.
      * rewrite Forall_forall in Hz. now apply Hz.
Qed.

Lemma sort_sorted l : StronglySorted Qle (sort l).
Proof.
  induction l as [|x l IH]; simpl; [constructor|].
  now apply insert_sorted_sorted.
Qed.

Lemma length_insert_sorted x l :
  length (insert_sorted x l) = S (length l).
Proof.
  induction l as [|z l IH]; simpl; [reflexivity|].
  destruct (Qle_bool x z); simpl; auto.
Qed.

Lemma length_sort l : length (sort l) = length l.
Proof.
  induction l as [|x l IH]; simpl; [reflexivity|].
  now rewrite length_insert_sorted, IH.
Qed.

Lemma sorted_nth (s : list Q) (d : Q) :
  StronglySorted Qle s ->
  forall i j, (i <= j)%nat -> (j < length s)%nat -> nth i s d <= nth j s d.
Proof.
  induction 1 as [|x s Hs IH Hx]; simpl; intros i j Hij Hj; [lia|].
  destruct i as [|i], j as [|j]; try lia.
  - lra.
  - rewrite Forall_forall in Hx. apply Hx. apply nth_In. lia.
  - apply IH; lia.
Qed.

Lemma clip_mono n z1 z2 : (z1 <= z2)%Z -> (clip n z1 <= clip n z2)%nat.
Proof. unfold clip. lia. Qed.

Lemma clip_lt n z : (0 < n)%nat -> (clip n z < n)%nat.
Proof. unfold clip. lia. Qed.

Lemma np_quantile_eq a q x0 s' :
  sort a = x0 :: s' -> np_quantile a q = Ok (interpolate (sort a) x0 q).
Proof. intros H. unfold np_quantile. rewrite H. reflexivity. Qed.

Lemma np_quantile_ok a q : a <> [] -> exists v, np_quantile a q = Ok v.
Proof.
  intros Ha. destruct (sort a) as [|x0 s'] eqn:Hs.
  - exfalso. apply Ha. apply length_zero_iff_nil.
    rewrite <- (length_sort a), Hs. reflexivity.
  - rewrite (np_quantile_eq a q x0 s' Hs). eexists; reflexivity.
Qed.

Lemma interpolate_between (a b g : Q) :
  a <= b -> 0 <= g -> g <= 1 -> a <= a + (b - a) * g /\ a + (b - a) * g <= b.
Proof. intros Hab Hg0 Hg1. split; nra. Qed.

(** [np.quantile] does not decrease with the level. *)
Lemma np_quantile_mono a q1 q2 v1 v2 :
  q1 <= q2 -> np_quantile a q1 = Ok v1 -> np_quantile a q2 = Ok v2 ->
  v1 <= v2.
Proof.
  intros Hq H1 H2.
  destruct (sort a) as [|x0 s'] eqn:Hs.
  { unfold np_quantile in H1. rewrite Hs in H1. discriminate. }
  rewrite (np_quantile_eq a q1 x0 s' Hs) in H1.
  rewrite (np_quantile_eq a q2 x0 s' Hs) in H2.
  injection H1 as <-. injection H2 as <-.
  pose proof (sort_sorted a) as Hsorted.
  unfold interpolate.
  set (s := sort a) in *. set (n := length s).
  assert (Hn : (0 < n)%nat) by (unfold n; rewrite Hs; simpl; lia).
  set (N := of_nat (n - 1)).
  assert (HN : 0 <= N).
  { unfold N, of_nat. change 0%Q with (inject_Z 0).
    rewrite <- Zle_Qle. lia. }
  set (h1 := (q1 * N)%Q). set (h2 := (q2 * N)%Q).
  assert (Hh : h1 <= h2) by (unfold h1, h2; nra).
  pose proof (Qfloor_resp_le _ _ Hh) as Hlo.
  pose proof (Qfloor_le h1) as Hf1. pose proof (Qlt_floor h1) as Hc1.
  pose proof (Qfloor_le h2) as Hf2. pose proof (Qlt_floor h2) as Hc2.
  rewrite inject_Z_plus in Hc1, Hc2. change (inject_Z 1) with 1%Q in Hc1, Hc2.
  set (lo1 := Qfloor h1) in *. set (lo2 := Qfloor h2) in *.
  assert (Hmono : forall z1 z2, (z1 <= z2)%Z ->
                    nth (clip n z1) s x0 <= nth (clip n z2) s x0).
  { intros z1 z2 Hz. apply sorted_nth; [assumption| |].
    - now apply clip_mono.
    - now apply clip_lt. }
  pose proof (Hmono lo1 (lo1 + 1)%Z ltac:(lia)) as Hab1.
  pose proof (Hmono lo2 (lo2 + 1)%Z ltac:(lia)) as Hab2.
  destruct (interpolate_between _ _ (h1 - inject_Z lo1) Hab1
              ltac:(lra) ltac:(lra)) as [_ Hup1].
  destruct (interpolate_between _ _ (h2 - inject_Z lo2) Hab2
              ltac:(lra) ltac:(lra)) as [Hlow2 _].
  destruct (Z.eq_dec lo1 lo2) as [Heq|Hne].
  - rewrite <- Heq. rewrite <- Heq in Hf2, Hc2.
    set (pa := nth (clip n lo1) s x0) in *.
    set (pb := nth (clip n (lo1 + 1)) s x0) in *.
    nra.
  - pose proof (Hmono (lo1 + 1)%Z lo2 ltac:(lia)) as Hmid.
    lra.
Qed.

End Quantile_facts.

(** ** The ground-truth quantile partition *)

Lemma index_nth {A} (l : list A) (i : nat) (d : A) :
  i < length l -> index l i = Ok (nth i l d).
Proof.
  intros H. unfold index.
  rewrite (nth_error_nth' l d H). reflexivity.
Qed.

Lemma in_quantile_group_total ts q e :
  ts <> [] -> q <= length ts -> exists b, in_quantile_group ts q e = Ok b.
Proof.
  intros Hts Hq. unfold in_quantile_group.
  assert (Hlen : 0 < length ts) by (destruct ts; simpl; [congruence|lia]).
  destruct (Nat.eqb_spec q 0) as [->|Hq0].
  - rewrite (index_nth ts 0 0%Q) by lia. simpl. eauto.
  - destruct (Nat.ltb_spec q (length ts)) as [Hlt|Hge].
    + rewrite (index_nth ts (q - 1) 0%Q) by lia.
      rewrite (index_nth ts q 0%Q) by lia. simpl. eauto.
    + rewrite (index_nth ts (q - 1) 0%Q) by lia. simpl. eauto.
Qed.

Lemma quantile_group_total_from ts q (te : dict Q) :
  (forall e, exists b, in_quantile_group ts q e = Ok b) ->
  forall es ks,
    foldM (fun g kv =>
             ok <- in_quantile_group ts q (snd kv) ;;
             Ok (if ok then (fst g ++ [snd kv], snd g ++ [fst kv]) else g))
          te (es, ks)
    = Ok (es ++ map snd (filter (in_group ts q) te),
          ks ++ map fst (filter (in_group ts q) te)).
Proof.
  intros Htot. induction te as [|[k v] te IH]; simpl; intros es ks.
  - now rewrite !app_nil_r.
  - destruct (Htot v) as (b & Hb). rewrite Hb. simpl.
    assert (Hg : in_group ts q (k, v) = b)
      by (unfold in_group; simpl; now rewrite Hb).
    rewrite Hg. destruct b; simpl; rewrite IH; simpl;
      now rewrite <- ?app_assoc.
Qed.

Lemma quantile_group_total ts te q :
  ts <> [] -> q <= length ts ->
  quantile_group ts te q = Ok (group_of ts te q).
Proof.
  intros Hts Hq. unfold quantile_group, group_of.
  rewrite quantile_group_total_from; [reflexivity|].
  intros e. now apply in_quantile_group_total.
Qed.

Lemma quantile_groups_of_thresholds ts te :
  ts <> [] ->
  mapM (quantile_group ts te) (range (length ts + 1))
  = Ok (map (group_of ts te) (range (length ts + 1))).
Proof.
  intros Hts. apply mapM_total. intros q Hq.
  apply quantile_group_total; [assumption|].
  unfold range in Hq. apply in_seq in Hq. lia.
Qed.

Lemma in_group_first t0 rest kv :
  in_group (t0 :: rest) 0 kv = Qle_bool (snd kv) t0.
Proof. reflexivity. Qed.

Lemma in_group_last t0 mid tl kv :
  in_group (t0 :: mid ++ [tl]) (length (t0 :: mid ++ [tl])) kv
  = Qltb tl (snd kv).
Proof.
  unfold in_group, in_quantile_group.
  cbn [length Nat.eqb]. rewrite Nat.ltb_irrefl.
  replace (S (length (mid ++ [tl])) - 1) with (S (length mid))
    by (rewrite length_app; simpl; lia).
  unfold index. cbn [nth_error].
  rewrite nth_error_app2 by lia. rewrite Nat.sub_diag. reflexivity.
Qed.

Lemma group_of_ext ts ts' te q q' :
  (forall kv, in_group ts q kv = in_group ts' q' kv) ->
  group_of ts te q = group_of ts' te q'.
Proof.
  intros H. unfold group_of.
  now rewrite (filter_ext (in_group ts q) (in_group ts' q') H).
Qed.

(** Three tests of which every entry passes exactly one split the
    list. *)
Lemma three_way_split {A} (p0 p1 p2 : A -> bool) (l : list A) :
  (forall x, (p0 x, p1 x, p2 x) = (true, false, false)
             \/ (p0 x, p1 x, p2 x) = (false, true, false)
             \/ (p0 x, p1 x, p2 x) = (false, false, true)) ->
  Permutation (filter p0 l ++ filter p1 l ++ filter p2 l) l.
Proof.
  intros H. induction l as [|x l IH]; simpl; [constructor|].
  destruct (H x) as [E|[E|E]]; injection E as E0 E1 E2;
    rewrite E0, E1, E2; simpl.
  - now constructor.
  - symmetry. apply Permutation_cons_app. now symmetry.
  - symmetry. rewrite app_assoc. apply Permutation_cons_app.
    rewrite <- app_assoc. now symmetry.
Qed.

Lemma quantile_tests_exclusive (t0 tl e : Q) :
  (t0 <= tl)%Q ->
  let p0 := Qle_bool e t0 in
  let p1 := Qle_bool e tl && Qltb t0 e in
  let p2 := Qltb tl e in
  (p0, p1, p2) = (true, false, false)
  \/ (p0, p1, p2) = (false, true, false)
  \/ (p0, p1, p2) = (false, false, true).
Proof.
  intros Ht. unfold Qltb. simpl.
  destruct (Qle_bool e t0) eqn:E0; destruct (Qle_bool e tl) eqn:E1; simpl; auto.
  exfalso. apply Qle_bool_iff in E0.
  assert (Hle : (e <= tl)%Q) by lra.
  apply Qle_bool_iff in Hle. congruence.
Qed.

Lemma NoDup_app_disjoint (a b : list string) :
  NoDup (a ++ b) -> disjoint a b.
Proof.
  induction a as [|x a IH]; simpl; intros H y Hy; [destruct Hy|].
  inversion H as [|? ? Hnot Hab]; subst.
  destruct Hy as [->|Hy].
  - intros Hb. apply Hnot. apply in_or_app. now right.
  - now apply IH.
Qed.

Lemma seq_ends (m : nat) :
  seq 0 (S (S m)) = 0 :: seq 1 m ++ [S m].
Proof.
  change (seq 0 (S (S m))) with (0 :: seq 1 (S m)).
  now rewrite seq_S.
Qed.

Lemma np_quantile_value a q :
  a <> [] -> np_quantile a q = Ok (quantile_value a q).
Proof.
  intros Ha. unfold quantile_value.
  destruct (np_quantile_ok a q Ha) as (v & ->). reflexivity.
Qed.

Lemma quantile_value_mono a q1 q2 :
  a <> [] -> (q1 <= q2)%Q -> (quantile_value a q1 <= quantile_value a q2)%Q.
Proof.
  intros Ha Hq.
  eapply np_quantile_mono; [exact Hq| |]; now apply np_quantile_value.
Qed.

Lemma level_le (n k1 k2 : nat) :
  k1 <= k2 -> (of_nat k1 / of_nat n <= of_nat k2 / of_nat n)%Q.
Proof.
  intros Hk. unfold Qdiv. apply Qmult_le_compat_r.
  - unfold of_nat. rewrite <- Zle_Qle. lia.
  - apply Qinv_le_0_compat. unfold of_nat.
    change 0%Q with (inject_Z 0). rewrite <- Zle_Qle. lia.
Qed.

Lemma sort_not_nil (l : list Q) : l <> [] -> sort l <> [].
Proof.
  intros Hl Hs. apply Hl. apply length_zero_iff_nil.
  rewrite <- length_sort, Hs. reflexivity.
Qed.

(** The thresholds for [Q = m + 3] quantile bins on a map that is not
    empty: all of them without [combine_middle_bins], the first and the
    last with it. *)
Lemma quantile_thresholds_shape (te : dict Q) (m : nat) :
  te <> [] ->
  exists t0 mid tl,
    quantile_thresholds_of te (S (S (S m))) false = Ok (t0 :: mid ++ [tl])
    /\ quantile_thresholds_of te (S (S (S m))) true = Ok [t0; tl]
    /\ length mid = m
    /\ (t0 <= tl)%Q.
Proof.
  intros Hte.
  set (a := sort (map snd te)).
  assert (Ha : a <> []).
  { apply sort_not_nil. intros H. apply map_eq_nil in H. contradiction. }
  set (n := S (S (S m))).
  set (f := fun k => (of_nat (S k) / of_nat n)%Q).
  exists (quantile_value a (f 0)),
         (map (quantile_value a) (map f (seq 1 m))),
         (quantile_value a (f (S m))).
  assert (Hts : mapM (np_quantile a) (map f (range (n - 1)))
                = Ok (quantile_value a (f 0)
                        :: map (quantile_value a) (map f (seq 1 m))
                        ++ [quantile_value a (f (S m))])).
  { rewrite (mapM_total _ (quantile_value a)).
    - unfold range, n. cbn [Nat.sub]. rewrite ?Nat.sub_0_r, seq_ends.
      cbn [map]. now rewrite !map_app.
    - intros q _. now apply np_quantile_value. }
  unfold quantile_thresholds_of. fold a.
  change (quantile_levels n) with (Ok (map f (range (n - 1)))).
  cbn [Py.bind]. rewrite Hts. cbn [Py.bind].
  split; [reflexivity|]. split.
  - unfold index_last. cbn [rev index nth_error Py.bind].
    rewrite rev_app_distr. reflexivity.
  - split; [now rewrite !length_map, length_seq|].
    apply quantile_value_mono; [assumption|].
    unfold f. apply level_le. lia.
Qed.

(** C5.  For the error map of a target, not empty, and [Q >= 3]: with
    [combine_middle_bins] the ground-truth partition has exactly three
    groups, pairwise disjoint, that together hold every id of the map
    once; its first and last groups are the first and last of the [Q]
    groups computed without [combine_middle_bins]. *)
Theorem combined_quantile_partition
  (fold_errors : err_frame) (fold_bins : bin_frame) (target_idx : Z)
  (key : string) (true_errors_ti : dict Q) (pred_bins_ti : dict Z)
  (Q : nat) :
  target_dicts fold_errors fold_bins target_idx key None
  = Ok (true_errors_ti, pred_bins_ti) ->
  true_errors_ti <> [] ->
  3 <= Q ->
  exists g0 g1 g2 gs,
    quantile_groups true_errors_ti Q true = Ok [g0; g1; g2]
    /\ quantile_groups true_errors_ti Q false = Ok gs
    /\ length gs = Q
    /\ index gs 0 = Ok g0
    /\ index_last gs = Ok g2
    /\ Permutation (snd g0 ++ snd g1 ++ snd g2) (keys true_errors_ti)
    /\ disjoint (snd g0) (snd g1)
    /\ disjoint (snd g0) (snd g2)
    /\ disjoint (snd g1) (snd g2).
Proof.
  intros Hd Hte HQ.
  destruct Q as [|[|[|m]]]; try lia.
  destruct (quantile_thresholds_shape true_errors_ti m Hte)
    as (t0 & mid & tl & Hall & Hcomb & Hmid & Hle).
  set (te := true_errors_ti) in *.
  set (ts := t0 :: mid ++ [tl]) in *.
  exists (group_of [t0; tl] te 0), (group_of [t0; tl] te 1),
         (group_of [t0; tl] te 2),
         (map (group_of ts te) (range (length ts + 1))).
  assert (Hlen : length ts = S (S m)).
  { unfold ts. simpl. rewrite length_app. simpl. lia. }
  split.
  { unfold quantile_groups. rewrite Hcomb. cbn [Py.bind].
    rewrite quantile_groups_of_thresholds by discriminate. reflexivity. }
  split.
  { unfold quantile_groups. rewrite Hall. cbn [Py.bind].
    apply quantile_groups_of_thresholds. discriminate. }
  split.
  { unfold range. rewrite length_map, length_seq. lia. }
  split.
  { rewrite Nat.add_1_r. unfold range. cbn [seq map index nth_error].
    reflexivity. }
  split.
  { rewrite Nat.add_1_r. unfold range, index_last.
    rewrite seq_S, map_app, rev_app_distr. cbn [map rev app Nat.add].
    f_equal. apply group_of_ext. intros kv. unfold ts.
    now rewrite in_group_last. }
  assert (Hperm : Permutation
                    (snd (group_of [t0; tl] te 0)
                     ++ snd (group_of [t0; tl] te 1)
                     ++ snd (group_of [t0; tl] te 2)) (keys te)).
  { unfold group_of, keys. cbn [snd]. rewrite <- !map_app.
    apply Permutation_map. apply three_way_split.
    intros [k e]. apply (quantile_tests_exclusive t0 tl e Hle). }
  split; [exact Hperm|].
  destruct (target_dicts_NoDup _ _ _ _ _ _ _ Hd) as [Hnd _].
  fold te in Hnd.
  assert (Hnd3 : NoDup (snd (group_of [t0; tl] te 0)
                        ++ snd (group_of [t0; tl] te 1)
                        ++ snd (group_of [t0; tl] te 2))).
  { eapply Permutation_NoDup; [symmetry; exact Hperm | exact Hnd]. }
  pose proof (NoDup_app_disjoint _ _ Hnd3) as H0.
  split; [|split].
  - intros x Hx Hx1. apply (H0 x Hx). apply in_or_app. now left.
  - intros x Hx Hx2. apply (H0 x Hx). apply in_or_app. now right.
  - apply NoDup_app_disjoint. eapply NoDup_app_remove_l. exact Hnd3.
Qed.

Lemma combined_quantile_partition_witness :
  exists g0 g1 g2 gs,
    quantile_groups (fst Fixture.dicts3) 3 true = Ok [g0; g1; g2]
    /\ quantile_groups (fst Fixture.dicts3) 3 false = Ok gs
    /\ length gs = 3
    /\ index gs 0 = Ok g0
    /\ index_last gs = Ok g2
    /\ Permutation (snd g0 ++ snd g1 ++ snd g2) (keys (fst Fixture.dicts3))
    /\ disjoint (snd g0) (snd g1)
    /\ disjoint (snd g0) (snd g2)
    /\ disjoint (snd g1) (snd g2).
Proof.
  apply (combined_quantile_partition Fixture.errors3 Fixture.bins3 0%Z
           Fixture.key (fst Fixture.dicts3) (snd Fixture.dicts3) 3).
  - vm_compute. reflexivity.
  - vm_compute. discriminate.
  - lia.
Defined.

(** ** Results related value by value *)

Lemma rel_bind {A B A' B'} (R : A -> B -> Prop) (R' : A' -> B' -> Prop)
  (c1 : result A) (c2 : result B) (k1 : A -> result A') (k2 : B -> result B') :
  rel_result R c1 c2 ->
  (forall a b, R a b -> rel_result R' (k1 a) (k2 b)) ->
  rel_result R' (Py.bind c1 k1) (Py.bind c2 k2).
Proof.
  destruct c1, c2; simpl; intros H Hk; auto; contradiction.
Qed.

Lemma rel_index {A B} (R : A -> B -> Prop) (l1 : list A) (l2 : list B) (i : nat) :
  Forall2 R l1 l2 -> rel_result R (index l1 i) (index l2 i).
Proof.
  intros H. revert i. unfold index.
  induction H as [|x y l1 l2 Hxy H IH]; intros [|i]; simpl; auto.
Qed.

Lemma rel_set_index {A B} (R : A -> B -> Prop) (l1 : list A) (l2 : list B) (i : nat) x y :
  Forall2 R l1 l2 -> R x y ->
  rel_result (Forall2 R) (set_index l1 i x) (set_index l2 i y).
Proof.
  intros H Hxy. revert i.
  induction H as [|a b l1 l2 Hab H IH]; intros i; simpl; auto.
  destruct i as [|i]; simpl.
  - constructor; assumption.
  - eapply rel_bind; [apply IH|].
    intros r1 r2 Hr. simpl. constructor; assumption.
Qed.

Lemma rel_mapM {A B X} (R : A -> B -> Prop) (f : X -> result A) (g : X -> result B) (xs : list X) :
  (forall x, rel_result R (f x) (g x)) ->
  rel_result (Forall2 R) (mapM f xs) (mapM g xs).
Proof.
  intros H. induction xs as [|x xs IH]; simpl; [constructor|].
  eapply rel_bind; [apply H|]. intros a b Hab.
  eapply rel_bind; [apply IH|]. intros r1 r2 Hr. simpl.
  constructor; assumption.
Qed.

Lemma rel_foldM {A B X} (R : A -> B -> Prop) (f : A -> X -> result A) (g : B -> X -> result B)
  (xs : list X) :
  (forall s1 s2 x, R s1 s2 -> rel_result R (f s1 x) (g s2 x)) ->
  forall s1 s2, R s1 s2 -> rel_result R (foldM f xs s1) (foldM g xs s2).
Proof.
  intros H. induction xs as [|x xs IH]; simpl; intros s1 s2 Hs; [assumption|].
  eapply rel_bind; [apply H; assumption|]. intros a b Hab. now apply IH.
Qed.

Lemma rel_append_at {A B} (R : A -> B -> Prop) (l1 : list (list A)) (l2 : list (list B)) (i : nat) x y :
  Forall2 (Forall2 R) l1 l2 -> R x y ->
  rel_result (Forall2 (Forall2 R)) (append_at l1 i x) (append_at l2 i y).
Proof.
  intros H Hxy. unfold append_at.
  eapply rel_bind; [apply (rel_index (Forall2 R)); eassumption|].
  intros r1 r2 Hr. apply (rel_set_index (Forall2 R)); [assumption|].
  apply Forall2_app; [assumption|]. constructor; [assumption|constructor].
Qed.

Lemma rel_dict_set {A B} (R : A -> B -> Prop) (d1 : dict A) (d2 : dict B) k v1 v2 :
  Forall2 (rel_entry R) d1 d2 -> R v1 v2 ->
  Forall2 (rel_entry R) (dict_set d1 k v1) (dict_set d2 k v2).
Proof.
  intros H Hv. induction H as [|[k1 a] [k2 b] d1 d2 [Hk Hab] H IH]; simpl.
  - constructor; [split; auto|constructor].
  - simpl in Hk; subst k2. destruct (String.eqb k k1).
    + constructor; [split; auto|assumption].
    + constructor; [split; auto|assumption].
Qed.

Lemma rel_dict_zip {A B} (R : A -> B -> Prop) (ks : list string) (vs1 : list A) (vs2 : list B) :
  Forall2 R vs1 vs2 ->
  Forall2 (rel_entry R) (dict_zip ks vs1) (dict_zip ks vs2).
Proof.
  unfold dict_zip. intros H.
  assert (Hgen : forall ks d1 d2,
             Forall2 (rel_entry R) d1 d2 ->
             Forall2 (rel_entry R)
               (fold_left (fun d kv => dict_set d (fst kv) (snd kv))
                          (combine ks vs1) d1)
               (fold_left (fun d kv => dict_set d (fst kv) (snd kv))
                          (combine ks vs2) d2)).
  { induction H as [|v1 v2 vs1 vs2 Hv H IH]; intros [|k ks'] d1 d2 Hd;
      simpl; auto.
    apply IH. now apply rel_dict_set. }
  apply Hgen. constructor.
Qed.


Lemma rel_append_at2 {A B} (R : A -> B -> Prop)
  (l1 : list (list (list A))) (l2 : list (list (list B))) (i j : nat) x y :
  Forall2 (Forall2 (Forall2 R)) l1 l2 -> R x y ->
  rel_result (Forall2 (Forall2 (Forall2 R)))
             (append_at2 l1 i j x) (append_at2 l2 i j y).
Proof.
  intros H Hxy. unfold append_at2.
  eapply rel_bind; [apply (rel_index (Forall2 (Forall2 R))); eassumption|].
  intros r1 r2 Hr.
  eapply rel_bind; [apply rel_append_at; eassumption|].
  intros r1' r2' Hr'. now apply (rel_set_index (Forall2 (Forall2 R))).
Qed.

Lemma rel_empties {A B} (R : A -> B -> Prop) (n : nat) :
  Forall2 (Forall2 R) (empties n) (empties n).
Proof. induction n; simpl; constructor; auto. Qed.

Lemma Forall2_repeat {A B} (R : A -> B -> Prop) x y (n : nat) :
  R x y -> Forall2 R (repeat x n) (repeat y n).
Proof. intros H. induction n; simpl; constructor; auto. Qed.

Lemma rel_lookup_error {R : Q -> Q -> Prop} (te1 te2 : dict Q) id_ :
  Forall2 (rel_entry R) te1 te2 ->
  rel_result R (lookup_error te1 id_) (lookup_error te2 id_).
Proof.
  intros H. unfold lookup_error. apply rel_index.
  induction H as [|[k1 v1] [k2 v2] te1 te2 [Hk Hv] H IH]; simpl; [constructor|].
  simpl in Hk, Hv; subst k2.
  destruct (String.eqb k1 id_); simpl; [constructor|]; assumption.
Qed.

Lemma rel_group_bins {R : Q -> Q -> Prop} (te1 te2 : dict Q) (pb : dict Z)
  (num_bins : nat) :
  Forall2 (rel_entry R) te1 te2 ->
  rel_result (Forall2 (rel_group R))
             (group_bins te1 pb num_bins) (group_bins te2 pb num_bins).
Proof.
  intros H. unfold group_bins. apply rel_mapM. intros j. unfold group_bin.
  eapply rel_bind.
  - apply rel_mapM. intros id_. apply rel_lookup_error. exact H.
  - intros e1 e2 He. simpl. split; [reflexivity|assumption].
Qed.

(** ** Scaling the errors *)

Section Scaling.
Local Open Scope Q_scope.
Variable s : Q.

Lemma Qsum_scaled_from l1 l2 :
  Forall2 (scaled s) l1 l2 ->
  forall a1 a2, a2 == s * a1 ->
                fold_left Qplus l2 a2 == s * fold_left Qplus l1 a1.
Proof.
  induction 1 as [|x y l1 l2 Hxy H IH]; simpl; intros a1 a2 Ha; [assumption|].
  apply IH. unfold scaled in Hxy. rewrite Ha, Hxy. ring.
Qed.

Lemma mean_scaled l1 l2 : Forall2 (scaled s) l1 l2 ->
  scaled s (mean l1) (mean l2).
Proof.
  intros H. unfold scaled, mean, Qsum.
  rewrite (Qsum_scaled_from l1 l2 H 0 0) by ring.
  rewrite (Forall2_length H). unfold Qdiv. ring.
Qed.

Lemma np_mean_scaled l1 l2 :
  Forall2 (scaled s) l1 l2 -> rel_option (scaled s) (np_mean l1) (np_mean l2).
Proof.
  intros H. pose proof (mean_scaled _ _ H) as Hm.
  destruct H; simpl; auto.
Qed.

Lemma np_mean_nan_scaled l1 l2 :
  Forall2 (rel_option (scaled s)) l1 l2 ->
  rel_option (scaled s) (np_mean_nan l1) (np_mean_nan l2).
Proof.
  intros H. unfold np_mean_nan.
  assert (Hf : rel_option (Forall2 (scaled s))
                 (fold_right (fun x acc => match x, acc with
                                           | Some a, Some r => Some (a :: r)
                                           | _, _ => None
                                           end) (Some []) l1)
                 (fold_right (fun x acc => match x, acc with
                                           | Some a, Some r => Some (a :: r)
                                           | _, _ => None
                                           end) (Some []) l2)).
  { induction H as [|o1 o2 l1 l2 Ho H IH]; simpl; [constructor|].
    destruct o1, o2; simpl in Ho; try contradiction; auto.
    destruct (fold_right _ _ l1), (fold_right _ _ l2); simpl in *;
      try contradiction; auto. }
  destruct (fold_right _ _ l1), (fold_right _ _ l2); simpl in *;
    try contradiction; auto.
  now apply np_mean_scaled.
Qed.

Lemma target_dicts_scaled fe fb target_idx key :
  rel_result (fun d1 d2 => Forall2 (rel_entry (scaled s)) (fst d1) (fst d2)
                           /\ snd d1 = snd d2)
             (target_dicts fe fb target_idx key (Some 1))
             (target_dicts fe fb target_idx key (Some s)).
Proof.
  unfold target_dicts.
  destruct (true_errors_rows fe target_idx key) as [rows|e]; simpl; auto.
  destruct (pred_bins_rows fe fb target_idx key) as [brows|e]; simpl; auto.
  split; [|reflexivity]. apply rel_dict_zip.
  induction rows as [|r rows IH]; simpl; constructor; auto.
  unfold scaled. ring.
Qed.

Lemma error_bin_step_scaled i pbe1 pbe2 st1 st2 inner1 inner2 bin :
  Forall2 (Forall2 (scaled s)) pbe1 pbe2 ->
  (rel_error_state s) st1 st2 -> Forall2 (scaled s) inner1 inner2 ->
  rel_result (fun r1 r2 => (rel_error_state s) (fst r1) (fst r2)
                           /\ Forall2 (scaled s) (snd r1) (snd r2))
             (error_bin_step i pbe1 (st1, inner1) bin)
             (error_bin_step i pbe2 (st2, inner2) bin).
Proof.
  intros Hp (Ht & Hq & Hs) Hi. unfold error_bin_step.
  eapply rel_bind; [apply (rel_index (Forall2 (scaled s))); exact Hp|].
  intros e1 e2 He. destruct He as [|x y e1 e2 Hxy He].
  - simpl. repeat split; assumption.
  - assert (Hxs : Forall2 (scaled s) (x :: e1) (y :: e2)) by now constructor.
    pose proof (mean_scaled _ _ Hxs) as Hm.
    eapply rel_bind; [apply rel_append_at; eassumption|].
    intros q1 q2 Hq'.
    eapply rel_bind;
      [apply (rel_append_at2 (Forall2 (scaled s))); eassumption|].
    intros s1 s2 Hs'. simpl. repeat split; try assumption.
    apply Forall2_app; [assumption|]. constructor; [assumption|constructor].
Qed.

Lemma error_target_step_scaled fe fb num_bins key st1 st2 it :
  (rel_error_state s) st1 st2 ->
  rel_result (rel_error_state s)
             (error_target_step fe fb num_bins key 1 st1 it)
             (error_target_step fe fb num_bins key s st2 it).
Proof.
  intros Hst. destruct it as [i target_idx]. unfold error_target_step.
  eapply rel_bind; [apply target_dicts_scaled|].
  intros [te1 pb1] [te2 pb2] [Hte Hpb]. simpl in Hte, Hpb. subst pb2.
  eapply rel_bind; [apply (@rel_group_bins (scaled s)); exact Hte|].
  intros g1 g2 Hg.
  assert (Hpbe : Forall2 (Forall2 (scaled s)) (map snd g1) (map snd g2)).
  { induction Hg as [|a b g1 g2 [_ Hab] Hg IH]; simpl; constructor; auto. }
  eapply rel_bind.
  - apply (rel_foldM (fun r1 r2 => (rel_error_state s) (fst r1) (fst r2)
                                   /\ Forall2 (scaled s) (snd r1) (snd r2))).
    + intros [sa ia] [sb ib] bin [Hsab Hiab].
      now apply error_bin_step_scaled.
    + split; [exact Hst|constructor].
  - intros [sa ia] [sb ib] [(Ha & Hb & Hc) Hiab]. simpl in *.
    repeat split; try assumption.
    apply Forall2_app; [assumption|].
    constructor; [now apply np_mean_scaled|constructor].
Qed.

Lemma bin_wise_errors_scaled fe fb num_bins targets key :
  rel_result (rel_error_result s)
             (bin_wise_errors fe fb num_bins targets key 1)
             (bin_wise_errors fe fb num_bins targets key s).
Proof.
  unfold bin_wise_errors. eapply rel_bind.
  - apply (rel_foldM (rel_error_state s)).
    + intros s1 s2 it Hs. now apply error_target_step_scaled.
    + repeat split; simpl.
      * constructor.
      * apply rel_empties.
      * apply Forall2_repeat. apply rel_empties.
  - intros st1 st2 (Ha & Hb & Hc). simpl. repeat split; simpl; try assumption.
    + now apply np_mean_nan_scaled.
    + clear -Hb. induction Hb as [|x y l1 l2 Hxy Hb IH]; simpl;
        constructor; auto.
      pose proof (mean_scaled _ _ Hxy) as Hm.
      destruct Hxy; simpl; auto.
Qed.

End Scaling.

(** ** The mean-error scorer *)

Lemma mapM_ok_Forall2 {A B} (f : A -> result B) (xs : list A) (ys : list B) :
  mapM f xs = Ok ys -> Forall2 (fun x y => f x = Ok y) xs ys.
Proof.
  revert ys; induction xs as [|x xs IH]; simpl; intros ys H.
  - inversion H; constructor.
  - inv_bind H. inversion H; subst. constructor; auto.
Qed.

Lemma lookup_error_In (te : dict Q) id_ e :
  lookup_error te id_ = Ok e -> In (id_, e) te.
Proof.
  unfold lookup_error. intros H. apply index_In in H.
  apply in_map_iff in H. destruct H as ([k v] & Hv & Hin).
  simpl in Hv; subst v. apply filter_In in Hin. destruct Hin as [Hin Hk].
  simpl in Hk. apply String.eqb_eq in Hk. now subst k.
Qed.

Lemma In_dict_set {V} (d : dict V) k v kv :
  In kv (dict_set d k v) -> kv = (k, v) \/ In kv d.
Proof.
  induction d as [|[k' v'] d IH]; simpl.
  - intros [<-|[]]; auto.
  - destruct (String.eqb k k'); simpl.
    + intros [<-|H]; auto.
    + intros [<-|H]; auto. destruct (IH H); auto.
Qed.

Lemma In_dict_zip {V} (ks : list string) (vs : list V) kv :
  In kv (dict_zip ks vs) -> In kv (combine ks vs).
Proof.
  unfold dict_zip.
  assert (H : forall l (d : dict V),
             In kv (fold_left (fun d kv => dict_set d (fst kv) (snd kv)) l d) ->
             In kv d \/ In kv l).
  { induction l as [|[k v] l IH]; simpl; intros d Hin; [auto|].
    destruct (IH _ Hin) as [Hd|Hl]; [|auto].
    destruct (In_dict_set _ _ _ _ Hd) as [->|Hd']; auto. }
  intros Hin. destruct (H _ _ Hin) as [[]|Hl]. exact Hl.
Qed.

Lemma In_combine_maps {X K V} (u : X -> K) (g : X -> V) (rows : list X) k v :
  In (k, v) (combine (map u rows) (map g rows)) ->
  exists r, In r rows /\ k = u r /\ v = g r.
Proof.
  induction rows as [|r rows IH]; simpl; [tauto|].
  intros [E|H].
  - inversion E; subst. exists r; auto.
  - destruct (IH H) as (r' & Hr & Hk & Hv). exists r'; auto.
Qed.

Lemma In_select_map {X} (p : X -> bool) (rows : list X) r :
  In r (select (map p rows) rows) -> In r rows /\ p r = true.
Proof.
  unfold select. induction rows as [|x rows IH]; simpl; [tauto|].
  destruct (p x) eqn:Hx; simpl.
  - intros [<-|H]; auto. destruct (IH H); auto.
  - intros H. destruct (IH H); auto.
Qed.

(** Where the entries of the scaled error dictionary come from. *)
Lemma target_dicts_entries fe fb target_idx key s te pb id_ e :
  target_dicts fe fb target_idx key (Some s) = Ok (te, pb) ->
  In (id_, e) te ->
  exists r, In r (ef_rows fe) /\ e_uid r = id_ /\ e_target r = target_idx
            /\ e = (e_error r * s)%Q.
Proof.
  unfold target_dicts. intros H Hin.
  destruct (true_errors_rows fe target_idx key) as [rows|] eqn:Hrows;
    [|discriminate].
  destruct (pred_bins_rows fe fb target_idx key) as [brows|]; [|discriminate].
  simpl in H. inversion H; subst; clear H.
  apply In_dict_zip, In_combine_maps in Hin.
  destruct Hin as (r & Hr & -> & ->).
  unfold true_errors_rows in Hrows.
  destruct (String.eqb key (ef_type fe)); [|discriminate].
  inversion Hrows; subst; clear Hrows.
  unfold target_mask in Hr. apply In_select_map in Hr.
  destruct Hr as [Hr Ht]. apply Z.eqb_eq in Ht.
  exists r. auto.
Qed.

(** What the grouping loop yields for bin [b]. *)
Lemma group_bins_bin te pb num_bins groups b :
  group_bins te pb num_bins = Ok groups -> b < num_bins ->
  exists ids errs,
    nth_error groups b = Some (ids, errs)
    /\ (forall id_, In id_ ids <-> In (id_, Z.of_nat b) pb)
    /\ Forall2 (fun id_ e => In (id_, e) te) ids errs.
Proof.
  intros H Hb. unfold group_bins, range in H.
  destruct (mapM_ok_nth _ _ _ H b b) as ([ids errs] & Hnth & Hg).
  { rewrite nth_error_nth' with (d := 0) by (rewrite length_seq; lia).
    now rewrite seq_nth. }
  exists ids, errs. split; [assumption|].
  unfold group_bin in Hg. inv_bind Hg. inversion Hg; subst; clear Hg.
  split.
  - intros id_. apply inner_list_In.
  - apply mapM_ok_Forall2 in Ha.
    eapply Forall2_impl; [|exact Ha].
    intros id_ e. apply lookup_error_In.
Qed.

Lemma error_bin_step_empty i pbe st inner bin :
  index pbe bin = Ok [] ->
  error_bin_step i pbe (st, inner) bin = Ok (st, inner).
Proof. intros H. unfold error_bin_step. rewrite H. reflexivity. Qed.

Lemma error_bin_step_mean i pbe st inner bin errs st' inner' :
  index pbe bin = Ok errs -> errs <> [] ->
  error_bin_step i pbe (st, inner) bin = Ok (st', inner') ->
  inner' = inner ++ [mean errs]
  /\ all_target_error st' = all_target_error st
  /\ append_at (all_qs_error st) bin (mean errs) = Ok (all_qs_error st')
  /\ append_at2 (all_qs_error_concat_targets_sep st) i bin errs
     = Ok (all_qs_error_concat_targets_sep st').
Proof.
  intros H Hne. unfold error_bin_step. rewrite H. cbn [Py.bind].
  destruct errs as [|e errs]; [congruence|].
  intros Hstep. inv_bind Hstep. inversion Hstep; subst; clear Hstep.
  simpl. auto.
Qed.

(** C6.  In [bin_wise_errors] with scaling factor [s]:
    - the error dictionary of a target holds [error * s] for its rows,
      and the group of bin [b] holds exactly the ids labelled [b] with
      their entries of that dictionary;
    - the loop over the bins skips an empty group, leaving every
      accumulator as it is, and for any other group appends the
      arithmetic mean of its errors to [all_qs_error[b]] and to
      [inner_errors] (and the errors themselves to the per-target list);
    - in the returned summary a bin that no target contributed to is
      [None], and any other bin is the mean of the means recorded for it;
    - run with [s] instead of [1], the scorer raises the same exception
      or returns outputs of the same shape in which every value is [s]
      times the value of the run with [1]. *)
Theorem bin_mean_error_of_scaled_errors
  (fold_errors : err_frame) (fold_bins : bin_frame) (num_bins : nat)
  (targets : list Z) (uncertainty_key : string) (s : Q) :
  (forall target_idx te pb groups,
      target_dicts fold_errors fold_bins target_idx uncertainty_key (Some s)
      = Ok (te, pb) ->
      group_bins te pb num_bins = Ok groups ->
      (forall id_ e,
          In (id_, e) te ->
          exists r, In r (ef_rows fold_errors) /\ e_uid r = id_
                    /\ e_target r = target_idx /\ e = (e_error r * s)%Q)
      /\ forall b, b < num_bins ->
           exists ids errs,
             nth_error groups b = Some (ids, errs)
             /\ (forall id_, In id_ ids <-> In (id_, Z.of_nat b) pb)
             /\ Forall2 (fun id_ e => In (id_, e) te) ids errs
             /\ forall i st inner,
                 match errs with
                 | [] =>
                     error_bin_step i (map snd groups) (st, inner) b
                     = Ok (st, inner)
                 | _ :: _ =>
                     forall st' inner',
                       error_bin_step i (map snd groups) (st, inner) b
                       = Ok (st', inner') ->
                       inner' = inner ++ [mean errs]
                       /\ all_target_error st' = all_target_error st
                       /\ append_at (all_qs_error st) b (mean errs)
                          = Ok (all_qs_error st')
                       /\ append_at2 (all_qs_error_concat_targets_sep st)
                                     i b errs
                          = Ok (all_qs_error_concat_targets_sep st')
                 end)
  /\ (forall r,
         bin_wise_errors fold_errors fold_bins num_bins targets
                         uncertainty_key s = Ok r ->
         Forall2 (fun m means => match means with
                                 | [] => m = None
                                 | _ :: _ => m = Some (mean means)
                                 end)
                 (err_mean_all_bins r) (err_all_bins r))
  /\ rel_result (rel_error_result s)
                (bin_wise_errors fold_errors fold_bins num_bins targets
                                 uncertainty_key 1)
                (bin_wise_errors fold_errors fold_bins num_bins targets
                                 uncertainty_key s).
Proof.
  split; [|split; [|apply bin_wise_errors_scaled]].
  2:{ intros r H. unfold bin_wise_errors in H. inv_bind H.
      inversion H; subst; clear H. simpl.
      induction (all_qs_error a) as [|x l IH]; simpl; constructor; auto.
      destruct x; reflexivity. }
  intros target_idx te pb groups Hd Hg. split.
  - intros id_ e Hin. eapply target_dicts_entries; eauto.
  - intros b Hb.
    destruct (group_bins_bin _ _ _ _ _ Hg Hb) as (ids & errs & Hn & Hids & He).
    exists ids, errs. repeat (split; [assumption|]).
    intros i st inner.
    assert (Hidx : index (map snd groups) b = Ok errs).
    { unfold index. rewrite nth_error_map, Hn. reflexivity. }
    destruct errs as [|e errs].
    + now apply error_bin_step_empty.
    + intros st' inner' Hstep.
      eapply error_bin_step_mean; eauto. discriminate.
Qed.

Lemma bin_mean_error_of_scaled_errors_witness :
  rel_result (rel_error_result 2)
             (bin_wise_errors Fixture.errors3 Fixture.bins3 2 [0%Z]
                              Fixture.key 1)
             (bin_wise_errors Fixture.errors3 Fixture.bins3 2 [0%Z]
                              Fixture.key 2).
Proof.
  exact (proj2 (proj2 (bin_mean_error_of_scaled_errors
                         Fixture.errors3 Fixture.bins3 2 [0%Z] Fixture.key 2))).
Defined.

(** ** Invariants of the aggregation template *)

Section Template_invariant.
Context {Acc FR Res Fin : Type} (h : handler Acc FR Res Fin)
        (self : evaluator).
Variable IA : Acc -> Prop.
Variable IR : Res -> Prop.
Hypothesis IA_init : IA (initialize_fold_accumulator h self).
Hypothesis IA_step :
  forall acc fr acc',
    IA acc -> accumulate_fold_result h self acc fr = Ok acc' -> IA acc'.
Hypothesis IR_init : IR (initialize_results h self).
Hypothesis IR_step :
  forall r model uncertainty_type acc r',
    IR r -> IA acc ->
    aggregate_results h r model uncertainty_type acc = Ok r' -> IR r'.

Lemma process_folds_from_inv data_structs uncertainty_type kw folds :
  forall acc log log' acc',
    IA acc ->
    process_folds_from h self data_structs uncertainty_type kw folds acc log
    = (log', Ok acc') ->
    IA acc'.
Proof.
  induction folds as [|fold folds IH]; simpl; intros acc log log' acc' Ha H.
  - inversion H; subst; assumption.
  - destruct (extract h data_structs fold uncertainty_type); [|discriminate].
    destruct (process_single_fold h self a uncertainty_type kw);
      [|discriminate].
    destruct (accumulate_fold_result h self acc a0) eqn:Hacc; [|discriminate].
    eapply IH; [|exact H]. eapply IA_step; eauto.
Qed.

Lemma evaluate_pairs_inv model data_structs kw pairs :
  forall r log log' r',
    IR r ->
    evaluate_pairs h self model data_structs kw pairs r log = (log', Ok r') ->
    IR r'.
Proof.
  induction pairs as [|pair pairs IH]; simpl; intros r log log' r' Hr H.
  - inversion H; subst; assumption.
  - destruct (index pair 0) as [uncertainty_type|]; [|discriminate].
    destruct (process_folds h self data_structs uncertainty_type kw log)
      as [log1 [acc|]] eqn:Hpf; [|discriminate].
    destruct (aggregate_results h r model uncertainty_type acc) eqn:Hagg;
      [|discriminate].
    eapply IH; [|exact H]. eapply IR_step; [exact Hr| |exact Hagg].
    unfold process_folds in Hpf.
    eapply process_folds_from_inv; [exact IA_init|exact Hpf].
Qed.

Lemma evaluate_models_inv pairs kw bin_predictions :
  forall r log log' r',
    IR r ->
    evaluate_models h self bin_predictions pairs kw r log = (log', Ok r') ->
    IR r'.
Proof.
  induction bin_predictions as [|[model data_structs] rest IH]; simpl;
    intros r log log' r' Hr H.
  - inversion H; subst; assumption.
  - match type of H with
    | context [evaluate_pairs ?a ?b ?c ?d ?e ?f ?g ?i] =>
        destruct (evaluate_pairs a b c d e f g i) as [log1 [r1|]] eqn:Hp;
          [|discriminate]
    end.
    eapply IH; [|exact H]. eapply evaluate_pairs_inv; eauto.
Qed.

Lemma evaluate_inv bin_predictions pairs kw log fin :
  evaluate h self bin_predictions pairs kw = (log, Ok fin) ->
  exists r, IR r /\ fin = finalize_results h r.
Proof.
  unfold evaluate. intros H.
  destruct (evaluate_models h self bin_predictions pairs kw
                            (initialize_results h self) [])
    as [log1 [r|]] eqn:Hm; [|discriminate].
  inversion H; subst. exists r. split; [|reflexivity].
  eapply evaluate_models_inv; [exact IR_init|exact Hm].
Qed.

End Template_invariant.

(** ** Lengths under the indexed updates *)

Lemma set_index_length {A} (l : list A) i x l' :
  set_index l i x = Ok l' -> length l' = length l.
Proof.
  revert i l'; induction l as [|y l IH]; intros [|i] l' H; simpl in *;
    try discriminate.
  - inversion H; reflexivity.
  - inv_bind H. inversion H; subst. simpl. f_equal. eauto.
Qed.

Lemma set_index_Forall {A} (P : A -> Prop) (l : list A) i x l' :
  Forall P l -> P x -> set_index l i x = Ok l' -> Forall P l'.
Proof.
  intros Hl Hx. revert i l'.
  induction Hl as [|y l Hy Hl IH]; intros [|i] l' H; simpl in *;
    try discriminate.
  - inversion H; subst. constructor; assumption.
  - inv_bind H. inversion H; subst. constructor; eauto.
Qed.

Lemma index_Forall {A} (P : A -> Prop) (l : list A) i x :
  Forall P l -> index l i = Ok x -> P x.
Proof.
  intros Hl H. apply index_In in H. rewrite Forall_forall in Hl. auto.
Qed.

Lemma append_at_length {A} (l : list (list A)) i x l' :
  append_at l i x = Ok l' -> length l' = length l.
Proof.
  unfold append_at. intros H. inv_bind H. eapply set_index_length; eauto.
Qed.

Lemma extend_at_length {A} (l : list (list A)) i xs l' :
  extend_at l i xs = Ok l' -> length l' = length l.
Proof.
  unfold extend_at. intros H. inv_bind H. eapply set_index_length; eauto.
Qed.

Lemma extend_at2_rows {A} n (l : list (list (list A))) i j xs l' :
  rows_of n l -> extend_at2 l i j xs = Ok l' -> rows_of n l'.
Proof.
  unfold extend_at2, rows_of. intros Hl H. inv_bind H.
  eapply set_index_Forall; [exact Hl| |exact H].
  apply extend_at_length in Ha0. rewrite Ha0.
  eapply (index_Forall (fun row => length row = n)); eauto.
Qed.

Lemma rows_of_repeat {A} n m :
  rows_of n (repeat (@empties A n) m).
Proof.
  unfold rows_of. apply Forall_forall. intros row Hrow.
  apply repeat_spec in Hrow. subst. apply repeat_length.
Qed.

Lemma dict_set_values {A} n (d : dict (list A)) k v :
  values_of n d -> length v = n -> values_of n (dict_set d k v).
Proof.
  unfold values_of. intros Hd Hv.
  induction Hd as [|[k' v'] d Hkv Hd IH]; simpl.
  - constructor; [assumption|constructor].
  - destruct (String.eqb k k'); constructor; auto.
Qed.

Lemma set_key_at_values {A} n (l : list (dict (list A))) t k v l' :
  Forall (values_of n) l -> length v = n -> set_key_at l t k v = Ok l' ->
  Forall (values_of n) l'.
Proof.
  unfold set_key_at. intros Hl Hv H. inv_bind H.
  eapply set_index_Forall; [exact Hl| |exact H].
  apply dict_set_values; [|assumption].
  eapply (index_Forall (values_of n)); eauto.
Qed.

Lemma values_of_repeat {A} n m :
  Forall (@values_of A n) (repeat [] m).
Proof.
  apply Forall_forall. intros d Hd. apply repeat_spec in Hd. subst.
  constructor.
Qed.

Lemma append_at_keeps {A} n (l : list (list A)) i x l' :
  length l = n -> append_at l i x = Ok l' -> length l' = n.
Proof. intros <- H. eapply append_at_length; eauto. Qed.

Lemma extend_at_keeps {A} n (l : list (list A)) i xs l' :
  length l = n -> extend_at l i xs = Ok l' -> length l' = n.
Proof. intros <- H. eapply extend_at_length; eauto. Qed.

Lemma set_index_keeps {A} n (l : list A) i x l' :
  length l = n -> set_index l i x = Ok l' -> length l' = n.
Proof. intros <- H. eapply set_index_length; eauto. Qed.

Lemma index_rows {A} n (l : list (list A)) i row :
  rows_of n l -> index l i = Ok row -> length row = n.
Proof. intros Hl H. eapply (index_Forall (fun r => length r = n)); eauto. Qed.

Lemma set_index_rows {A} n (l : list (list A)) i row l' :
  rows_of n l -> length row = n -> set_index l i row = Ok l' -> rows_of n l'.
Proof. intros Hl Hr H. eapply set_index_Forall; eauto. Qed.

Lemma length_rev_keeps {A} n (l : list A) : length l = n -> length (rev l) = n.
Proof. intros <-. apply length_rev. Qed.

Lemma rows_of_map_rev {A} n (l : list (list A)) :
  rows_of n l -> rows_of n (map (@rev A) l).
Proof.
  unfold rows_of. intros H. apply Forall_map.
  eapply Forall_impl; [|exact H]. intros row Hr. simpl.
  now rewrite length_rev.
Qed.

Lemma length_empties {A} n : length (@empties A n) = n.
Proof. apply repeat_length. Qed.

Create HintDb axes.
#[local] Hint Resolve append_at_keeps extend_at_keeps set_index_keeps
  index_rows set_index_rows extend_at2_rows set_key_at_values
  dict_set_values length_rev_keeps rows_of_map_rev rows_of_repeat
  values_of_repeat length_empties : axes.

(** Splits the invariant, peels the binds of the step and closes each
    part with the length lemmas. *)
Ltac axes_step H :=
  inv_bind H;
  try (inversion H; subst; clear H);
  simpl in *;
  repeat match goal with
         | |- _ /\ _ => split
         end;
  eauto 6 with axes.

(** *** The bound evaluator *)

Lemma bound_accumulate_axes self n acc fr acc' :
  bound_acc_axes n acc ->
  BoundEvaluationHandler._accumulate_fold_result self acc fr = Ok acc' ->
  bound_acc_axes n acc'.
Proof.
  intros Hacc H. unfold BoundEvaluationHandler._accumulate_fold_result in H.
  eapply (foldM_inv (bound_acc_axes n)); [| |exact H].
  - clear. intros acc idx_bin acc' (H1 & H2 & H3 & H4) H.
    unfold BoundEvaluationHandler.accumulate_bin in H. inv_bind H.
    eapply (foldM_inv (bound_acc_axes n)); [| |exact H].
    + clear. intros acc t acc' (H1 & H2 & H3 & H4) H.
      unfold BoundEvaluationHandler.accumulate_target in H.
      unfold bound_acc_axes. axes_step H.
    + unfold bound_acc_axes. simpl.
      repeat split; eauto with axes.
  - destruct Hacc as (H1 & H2 & H3 & H4). unfold bound_acc_axes. simpl. auto.
Qed.

Lemma bound_aggregate_axes n r model uncertainty_type acc r' :
  bound_results_axes n r -> bound_acc_axes n acc ->
  BoundEvaluationHandler._aggregate_results r model uncertainty_type acc
  = Ok r' ->
  bound_results_axes n r'.
Proof.
  intros (R1 & R2 & R3 & R4) (A1 & A2 & A3 & A4) H.
  unfold BoundEvaluationHandler._aggregate_results in H.
  eapply (foldM_inv (bound_results_axes n)); [| |exact H].
  - clear - A3 A4. intros r t r' (R1 & R2 & R3 & R4) H.
    unfold BoundEvaluationHandler.aggregate_target in H.
    unfold bound_results_axes. axes_step H.
  - unfold bound_results_axes. simpl. repeat split; eauto with axes.
Qed.

Lemma evaluate_bounds_axes estimated_bounds bin_predictions uncertainty_pairs
  num_bins_arg targets_arg num_folds_arg combine log fin :
  evaluate_bounds estimated_bounds bin_predictions uncertainty_pairs
                  num_bins_arg targets_arg num_folds_arg combine
  = (log, Ok fin) ->
  bound_final_axes (if combine then 3 else num_bins_arg) fin.
Proof.
  unfold evaluate_bounds. intros H.
  set (n := if combine then 3 else num_bins_arg).
  apply (evaluate_inv BoundEvaluationHandler.methods _
           (bound_acc_axes n) (bound_results_axes n)) in H.
  - destruct H as (r & (R1 & R2 & R3 & R4) & ->).
    unfold bound_final_axes. simpl. auto.
  - unfold bound_acc_axes. simpl. fold n. repeat split; eauto with axes.
  - intros acc fr acc'. apply bound_accumulate_axes.
  - unfold bound_results_axes. simpl.
    repeat split; try constructor; apply values_of_repeat.
  - intros r model ut acc r'. apply bound_aggregate_axes.
Qed.

(** *** The Jaccard evaluator *)

Lemma jaccard_accumulate_axes self n acc fr acc' :
  jaccard_acc_axes n acc ->
  JaccardEvaluationHandler._accumulate_fold_result self acc fr = Ok acc' ->
  jaccard_acc_axes n acc'.
Proof.
  intros Hacc H. unfold JaccardEvaluationHandler._accumulate_fold_result in H.
  eapply (foldM_inv (jaccard_acc_axes n)); [| |exact H].
  - clear. intros acc idx_bin acc' (H1 & H2 & H3 & H4 & H5 & H6 & H7 & H8) H.
    unfold JaccardEvaluationHandler.accumulate_bin in H. inv_bind H.
    eapply (foldM_inv (jaccard_acc_axes n)); [| |exact H].
    + clear. intros acc t acc' (H1 & H2 & H3 & H4 & H5 & H6 & H7 & H8) H.
      unfold JaccardEvaluationHandler.accumulate_target in H.
      unfold jaccard_acc_axes. axes_step H.
    + unfold jaccard_acc_axes. simpl.
      repeat split; eauto with axes.
  - destruct Hacc as (H1 & H2 & H3 & H4 & H5 & H6 & H7 & H8).
    unfold jaccard_acc_axes. simpl. repeat split; assumption.
Qed.

Lemma jaccard_aggregate_axes n r model uncertainty_type acc r' :
  jaccard_results_axes n r -> jaccard_acc_axes n acc ->
  JaccardEvaluationHandler._aggregate_results r model uncertainty_type acc
  = Ok r' ->
  jaccard_results_axes n r'.
Proof.
  intros (R1 & R2 & R3 & R4 & R5 & R6 & R7 & R8)
         (A1 & A2 & A3 & A4 & A5 & A6 & A7 & A8) H.
  unfold JaccardEvaluationHandler._aggregate_results in H.
  eapply (foldM_inv (jaccard_results_axes n)); [| |exact H].
  - clear - A7 A8.
    intros r t r' (R1 & R2 & R3 & R4 & R5 & R6 & R7 & R8) H.
    unfold JaccardEvaluationHandler.aggregate_target in H.
    unfold jaccard_results_axes. axes_step H.
  - unfold jaccard_results_axes. simpl. repeat split; eauto with axes.
Qed.

Lemma evaluate_jaccard_axes bin_predictions uncertainty_pairs
  num_bins_arg targets_arg num_folds_arg combine log fin :
  evaluate_jaccard bin_predictions uncertainty_pairs num_bins_arg targets_arg
                   num_folds_arg combine
  = (log, Ok fin) ->
  jaccard_results_axes (if combine then 3 else num_bins_arg) fin.
Proof.
  unfold evaluate_jaccard. intros H.
  set (n := if combine then 3 else num_bins_arg).
  apply (evaluate_inv JaccardEvaluationHandler.methods _
           (jaccard_acc_axes n) (jaccard_results_axes n)) in H.
  - destruct H as (r & Hr & ->). exact Hr.
  - unfold jaccard_acc_axes. simpl. fold n. repeat split; eauto with axes.
  - intros acc fr acc'. apply jaccard_accumulate_axes.
  - unfold jaccard_results_axes. simpl.
    repeat split; try constructor; apply values_of_repeat.
  - intros r model ut acc r'. apply jaccard_aggregate_axes.
Qed.

(** *** The mean-error evaluator *)

Lemma error_accumulate_axes self n acc fr acc' :
  error_acc_axes n acc ->
  ErrorEvaluationHandler._accumulate_fold_result self acc fr = Ok acc' ->
  error_acc_axes n acc'.
Proof.
  intros Hacc H. unfold ErrorEvaluationHandler._accumulate_fold_result in H.
  eapply (foldM_inv (error_acc_axes n)); [| |exact H].
  - clear. intros acc idx_bin acc' (H1 & H2 & H3 & H4 & H5) H.
    unfold ErrorEvaluationHandler.accumulate_bin in H. inv_bind H.
    eapply (foldM_inv (error_acc_axes n)); [| |exact H].
    + clear. intros acc t acc' (H1 & H2 & H3 & H4 & H5) H.
      unfold ErrorEvaluationHandler.accumulate_target in H.
      unfold error_acc_axes. axes_step H.
    + unfold error_acc_axes. simpl.
      repeat split; eauto with axes.
  - destruct Hacc as (H1 & H2 & H3 & H4 & H5).
    unfold error_acc_axes. simpl. repeat split; assumption.
Qed.

Lemma error_aggregate_axes n r model uncertainty_type acc r' :
  error_results_axes n r -> error_acc_axes n acc ->
  ErrorEvaluationHandler._aggregate_results r model uncertainty_type acc
  = Ok r' ->
  error_results_axes n r'.
Proof.
  intros (R1 & R2 & R3 & R4 & R5) (A1 & A2 & A3 & A4 & A5) H.
  unfold ErrorEvaluationHandler._aggregate_results in H.
  apply rows_of_map_rev in A4. apply rows_of_map_rev in A5.
  eapply (foldM_inv (error_results_axes n)); [| |exact H].
  - clear - A4 A5. intros r t r' (R1 & R2 & R3 & R4 & R5) H.
    unfold ErrorEvaluationHandler.aggregate_target in H.
    unfold error_results_axes. axes_step H.
  - unfold error_results_axes. simpl. repeat split; eauto with axes.
Qed.

Lemma get_mean_errors_axes bin_predictions uncertainty_pairs
  num_bins_arg targets_arg num_folds_arg error_scaling_factor combine log fin :
  get_mean_errors bin_predictions uncertainty_pairs num_bins_arg targets_arg
                  num_folds_arg error_scaling_factor combine
  = (log, Ok fin) ->
  error_results_axes (if combine then 3 else num_bins_arg) fin.
Proof.
  unfold get_mean_errors. intros H.
  set (n := if combine then 3 else num_bins_arg).
  apply (evaluate_inv ErrorEvaluationHandler.methods _
           (error_acc_axes n) (error_results_axes n)) in H.
  - destruct H as (r & Hr & ->). exact Hr.
  - unfold error_acc_axes. simpl. fold n. repeat split; eauto with axes.
  - intros acc fr acc'. apply error_accumulate_axes.
  - unfold error_results_axes. simpl.
    repeat split; try constructor; apply values_of_repeat.
  - intros r model ut acc r'. apply error_aggregate_axes.
Qed.

(** ** The bin count under [combine_middle_bins] *)

Section Template_congruence.
Context {Acc FR Res Fin : Type} (h : handler Acc FR Res Fin)
        (self1 self2 : evaluator).
Hypothesis same_results : initialize_results h self1 = initialize_results h self2.
Hypothesis same_accumulator :
  initialize_fold_accumulator h self1 = initialize_fold_accumulator h self2.
Hypothesis same_process :
  forall fd uncertainty_type kw,
    process_single_fold h self1 fd uncertainty_type kw
    = process_single_fold h self2 fd uncertainty_type kw.
Hypothesis same_accumulate :
  forall acc fr,
    accumulate_fold_result h self1 acc fr = accumulate_fold_result h self2 acc fr.
Hypothesis same_folds : num_folds self1 = num_folds self2.

Lemma process_folds_from_congr data_structs uncertainty_type kw folds :
  forall acc log,
    process_folds_from h self1 data_structs uncertainty_type kw folds acc log
    = process_folds_from h self2 data_structs uncertainty_type kw folds acc log.
Proof.
  induction folds as [|fold folds IH]; simpl; intros acc log; [reflexivity|].
  destruct (extract h data_structs fold uncertainty_type); [|reflexivity].
  rewrite same_process.
  destruct (process_single_fold h self2 a uncertainty_type kw); [|reflexivity].
  rewrite same_accumulate.
  destruct (accumulate_fold_result h self2 acc a0); [|reflexivity].
  apply IH.
Qed.

Lemma evaluate_pairs_congr model data_structs kw pairs :
  forall r log,
    evaluate_pairs h self1 model data_structs kw pairs r log
    = evaluate_pairs h self2 model data_structs kw pairs r log.
Proof.
  induction pairs as [|pair pairs IH]; simpl; intros r log; [reflexivity|].
  destruct (index pair 0); [|reflexivity].
  unfold process_folds.
  rewrite same_folds, same_accumulator, process_folds_from_congr.
  destruct (process_folds_from _ _ _ _ _ _ _ _) as [log' [acc|]];
    [|reflexivity].
  destruct (aggregate_results h r model a acc); [|reflexivity].
  apply IH.
Qed.

Lemma evaluate_congr bin_predictions pairs kw :
  evaluate h self1 bin_predictions pairs kw
  = evaluate h self2 bin_predictions pairs kw.
Proof.
  unfold evaluate. rewrite same_results.
  generalize (initialize_results h self2) as r. generalize (@nil event) as log.
  induction bin_predictions as [|[model data_structs] rest IH]; simpl;
    intros log r; [reflexivity|].
  rewrite evaluate_pairs_congr.
  destruct (evaluate_pairs _ _ _ _ _ _ _ _) as [log' [r'|]]; [|reflexivity].
  specialize (IH log' r').
  destruct (evaluate_models h self1 rest pairs kw r' log') as [l1 [r1|]];
    destruct (evaluate_models h self2 rest pairs kw r' log') as [l2 [r2|]];
    congruence.
Qed.

End Template_congruence.

(** C10.  With [combine_middle_bins=True] an evaluator works on 3 bins
    and keeps the requested count as [original_num_bins]; every
    bin-indexed axis of the structures the three entry points return has
    length 3; the results of [evaluate_bounds] and [get_mean_errors] do
    not depend on [num_bins]; the Jaccard handler calls its scorer with
    3 bins and the requested count for the quantile thresholds, and its
    result does depend on it (2 against 3 quantile bins on the sample
    table). *)
Theorem combine_middle_bins_uses_three_bins :
  (forall nb ts nf,
      num_bins (BaseUncertaintyEvaluator nb ts nf true) = 3
      /\ original_num_bins (BaseUncertaintyEvaluator nb ts nf true) = nb)
  /\ (forall eb preds pairs nb ts nf log fin,
         evaluate_bounds eb preds pairs nb ts nf true = (log, Ok fin) ->
         bound_final_axes 3 fin)
  /\ (forall preds pairs nb ts nf log fin,
         evaluate_jaccard preds pairs nb ts nf true = (log, Ok fin) ->
         jaccard_results_axes 3 fin)
  /\ (forall preds pairs nb ts nf s log fin,
         get_mean_errors preds pairs nb ts nf s true = (log, Ok fin) ->
         error_results_axes 3 fin)
  /\ (forall eb preds pairs nb nb' ts nf,
         evaluate_bounds eb preds pairs nb ts nf true
         = evaluate_bounds eb preds pairs nb' ts nf true)
  /\ (forall preds pairs nb nb' ts nf s,
         get_mean_errors preds pairs nb ts nf s true
         = get_mean_errors preds pairs nb' ts nf s true)
  /\ (forall nb ts nf fd uncertainty_type kw,
         JaccardEvaluationHandler._process_single_fold
           (BaseUncertaintyEvaluator nb ts nf true) fd uncertainty_type kw
         = bin_wise_jaccard (fd_errors fd) (fd_bins fd) 3 nb ts
                            uncertainty_type true)
  /\ evaluate_jaccard [("m"%string, Fixture.table3)] [[Fixture.key]]
                      2 [0%Z] 1 true
     <> evaluate_jaccard [("m"%string, Fixture.table3)] [[Fixture.key]]
                         3 [0%Z] 1 true.
Proof.
  split; [intros; split; reflexivity|].
  split; [intros eb preds pairs nb ts nf log fin H;
          exact (evaluate_bounds_axes _ _ _ _ _ _ true _ _ H)|].
  split; [intros preds pairs nb ts nf log fin H;
          exact (evaluate_jaccard_axes _ _ _ _ _ true _ _ H)|].
  split; [intros preds pairs nb ts nf s log fin H;
          exact (get_mean_errors_axes _ _ _ _ _ _ true _ _ H)|].
  split.
  { intros. unfold evaluate_bounds. apply evaluate_congr; reflexivity. }
  split.
  { intros. unfold get_mean_errors. apply evaluate_congr; reflexivity. }
  split; [reflexivity|].
  intros H. vm_compute in H. discriminate H.
Qed.

Lemma combine_middle_bins_uses_three_bins_witness :
  exists log fin,
    evaluate_bounds (Some Fixture.bounds3) [("m"%string, Fixture.table3)]
                    [[Fixture.key]] 5 [0%Z] 1 true = (log, Ok fin)
    /\ bound_final_axes 3 fin.
Proof.
  eexists. eexists. split.
  - vm_compute. reflexivity.
  - apply (proj1 (proj2 combine_middle_bins_uses_three_bins)
             (Some Fixture.bounds3) [("m"%string, Fixture.table3)]
             [[Fixture.key]] 5 [0%Z] 1
             [Extracted "m" Fixture.key 0; Scored "m" Fixture.key 0]).
    vm_compute. reflexivity.
Defined.

(** * Further properties of the two modules *)

(** ** quantile_binning_and_est_errors: exceptions, shape and order *)

Lemma foldM_raises_only {A S} (P : exn -> Prop) (f : S -> A -> result S) :
  (forall s x e, f s x = Raise e -> P e) ->
  forall xs s e, foldM f xs s = Raise e -> P e.
Proof.
  intros Hf xs; induction xs as [|x xs IH]; simpl; intros s e H;
    [discriminate|].
  destruct (f s x) as [s1|e1] eqn:Hx; simpl in H.
  - eapply IH; eauto.
  - inversion H; subst. eapply Hf; eauto.
Qed.

Lemma mapM_raises_only {A B} (P : exn -> Prop) (f : A -> result B) :
  (forall x e, f x = Raise e -> P e) ->
  forall xs e, mapM f xs = Raise e -> P e.
Proof.
  intros Hf xs; induction xs as [|x xs IH]; simpl; intros e H;
    [discriminate|].
  destruct (f x) as [b|e1] eqn:Hx; simpl in H.
  - destruct (mapM f xs) as [bs|e2]; simpl in H; [discriminate|].
    inversion H; subst. now apply IH.
  - inversion H; subst. eapply Hf; eauto.
Qed.

Lemma index_raises {A} (l : list A) i e : index l i = Raise e -> e = IndexError.
Proof. unfold index. destruct (nth_error l i); intros H; now inversion H. Qed.

Lemma index_last_raises {A} (l : list A) e :
  index_last l = Raise e -> e = IndexError.
Proof. unfold index_last. destruct (rev l); intros H; now inversion H. Qed.

Lemma np_quantile_raises a q e : np_quantile a q = Raise e -> e = IndexError.
Proof.
  unfold np_quantile. destruct (sort a); intros H; now inversion H.
Qed.

Lemma np_quantile_is_value a q v :
  np_quantile a q = Ok v -> v = quantile_value a q.
Proof. intros H. unfold quantile_value. now rewrite H. Qed.

Lemma quantile_levels_raises n e :
  quantile_levels n = Raise e -> e = ZeroDivisionError.
Proof. destruct n; simpl; intros H; now inversion H. Qed.

Lemma quantile_step_raises predict unc s q e :
  Quantiles.quantile_step predict unc s q = Raise e -> e = IndexError.
Proof.
  unfold Quantiles.quantile_step. destruct s as [ub ee].
  destruct (np_quantile unc q) as [v|e1] eqn:Hq; simpl.
  - destruct (index (predict [v]) 0) as [x|e2] eqn:Hi; simpl; intros H;
      inversion H; subst. eapply index_raises; eauto.
  - intros H; inversion H; subst. eapply np_quantile_raises; eauto.
Qed.

Lemma quantile_steps_shape predict unc qs :
  forall ub0 ee0 ub ee,
    foldM (Quantiles.quantile_step predict unc) qs (ub0, ee0) = Ok (ub, ee) ->
    ub = ub0 ++ map (fun q => [quantile_value unc q]) qs
    /\ length ee = length ee0 + length qs.
Proof.
  induction qs as [|q qs IH]; simpl; intros ub0 ee0 ub ee H.
  - inversion H; subst. rewrite app_nil_r. split; [reflexivity|lia].
  - apply bind_ok in H. destruct H as ([ub1 ee1] & Hstep & H).
    unfold Quantiles.quantile_step in Hstep. inv_bind Hstep.
    inversion Hstep; subst; clear Hstep.
    apply IH in H. destruct H as [-> Hlen].
    apply np_quantile_is_value in Ha. subst a.
    rewrite <- app_assoc. split; [reflexivity|].
    rewrite Hlen, length_app. simpl. lia.
Qed.

Lemma levels_sorted (n start len : nat) :
  StronglySorted Qle
    (map (fun k => (of_nat (S k) / of_nat n)%Q) (seq start len)).
Proof.
  revert start; induction len as [|len IH]; intros start; simpl;
    constructor; [apply IH|].
  apply Forall_forall. intros x Hx. apply in_map_iff in Hx.
  destruct Hx as (k & <- & Hk). apply in_seq in Hk.
  apply level_le. lia.
Qed.

Lemma StronglySorted_map {A B} (R : A -> A -> Prop) (R' : B -> B -> Prop)
  (g : A -> B) (l : list A) :
  (forall x y, R x y -> R' (g x) (g y)) ->
  StronglySorted R l -> StronglySorted R' (map g l).
Proof.
  intros Hg. induction 1 as [|x l Hl IH Hx]; simpl; constructor; auto.
  apply Forall_map. eapply Forall_impl; [|exact Hx]. auto.
Qed.

Lemma quantile_value_le a q1 q2 :
  (q1 <= q2)%Q -> (quantile_value a q1 <= quantile_value a q2)%Q.
Proof.
  intros Hq. destruct a as [|x a].
  - unfold quantile_value. simpl. apply Qle_refl.
  - apply quantile_value_mono; [discriminate|assumption].
Qed.

Lemma sorted_first_last (l : list Q) a b :
  StronglySorted Qle l -> index l 0 = Ok a -> index_last l = Ok b ->
  (a <= b)%Q.
Proof.
  intros Hs Ha Hb. destruct l as [|x l]; [discriminate|].
  unfold index in Ha. simpl in Ha. inversion Ha; subst x.
  apply StronglySorted_inv in Hs. destruct Hs as [_ Hall].
  unfold index_last in Hb. simpl in Hb.
  destruct (rev l) as [|y r] eqn:Hr; simpl in Hb.
  - inversion Hb; subst. apply Qle_refl.
  - inversion Hb; subst. rewrite Forall_forall in Hall. apply Hall.
    apply in_rev. rewrite Hr. now left.
Qed.

Lemma concat_index_first (ub : list (list Q)) v :
  index ub 0 = Ok [v] -> index (concat ub) 0 = Ok v.
Proof.
  destruct ub as [|b ub]; [discriminate|].
  unfold index. simpl. intros H. inversion H; subst. reflexivity.
Qed.

Lemma concat_index_last (ub : list (list Q)) v :
  index_last ub = Ok [v] -> index_last (concat ub) = Ok v.
Proof.
  unfold index_last. intros H.
  destruct (rev ub) as [|y r] eqn:Hr; inversion H; subst.
  rewrite <- (rev_involutive ub), Hr. simpl.
  rewrite concat_app. simpl. rewrite rev_app_distr. reflexivity.
Qed.

(** X1.  The order of the checks and the exceptions that can leave
    [quantile_binning_and_est_errors]: a length mismatch raises
    [ValueError] whatever the type; with equal lengths a type that is
    neither ["quantile"] nor ["error-wise"] raises [ValueError] before
    the regression is fitted; and any exception of the call is
    [ValueError], [ZeroDivisionError], [IndexError] or the one raised by
    the fit. *)
Theorem quantile_binning_exceptions
  (fit : list Q -> list Q -> result (list Q -> list Q))
  (errors uncertainties : list Q) (num_bins : nat) (type : string)
  (acceptable_thresh : Q) (combine_middle_bins : bool) :
  let call :=
    Quantiles.quantile_binning_and_est_errors fit errors uncertainties
      num_bins type acceptable_thresh combine_middle_bins in
  (length errors <> length uncertainties -> call = Raise ValueError)
  /\ (type <> "quantile"%string -> type <> "error-wise"%string ->
      call = Raise ValueError)
  /\ (forall e, call = Raise e ->
                e = ValueError \/ e = ZeroDivisionError \/ e = IndexError
                \/ fit uncertainties errors = Raise e).
Proof.
  cbv zeta. unfold Quantiles.quantile_binning_and_est_errors.
  destruct (Nat.eqb_spec (length errors) (length uncertainties)) as [Hl|Hl];
    simpl.
  2:{ repeat split; auto. intros e H. inversion H; auto. }
  split; [congruence|].
  destruct (String.eqb_spec type "quantile") as [->|Hq]; simpl.
  - split; [congruence|]. intros e.
    destruct (fit uncertainties errors) as [predict|e0]; simpl;
      [|intros H; inversion H; subst; auto].
    destruct (quantile_levels num_bins) as [qs|e1] eqn:Hlev; simpl.
    + destruct (foldM _ qs ([], [])) as [[ub ee]|e2] eqn:Hf; simpl.
      * destruct combine_middle_bins; [|discriminate].
        destruct (index ee 0) eqn:H1; simpl;
          [|intros H; inversion H; subst; apply index_raises in H1; auto].
        destruct (index_last ee) eqn:H2; simpl;
          [|intros H; inversion H; subst; apply index_last_raises in H2;
            auto].
        destruct (index ub 0) eqn:H3; simpl;
          [|intros H; inversion H; subst; apply index_raises in H3; auto].
        destruct (index_last ub) eqn:H4; simpl;
          [discriminate
          |intros H; inversion H; subst; apply index_last_raises in H4; auto].
      * intros H; inversion H; subst.
        apply (foldM_raises_only (fun e => e = IndexError)) in Hf; auto.
        intros s x e0. apply quantile_step_raises.
    + intros H; inversion H; subst.
      apply quantile_levels_raises in Hlev. auto.
  - destruct (String.eqb_spec type "error-wise") as [->|He]; simpl.
    + split; [congruence|]. intros e.
      destruct (fit uncertainties errors) as [predict|e0]; simpl;
        [|intros H; inversion H; subst; auto].
      destruct combine_middle_bins; simpl; intros H; inversion H; auto.
    + split; [reflexivity|]. intros e H; inversion H; auto.
Qed.

(** X2.  What a successful call in ["quantile"] mode returns: as many
    boundaries as estimated errors, [num_bins - 1] of them (2 with
    [combine_middle_bins]), every boundary a one-element list, and the
    boundaries in ascending order.  It returns only for equal lengths,
    [num_bins >= 1], and [num_bins >= 2] with [combine_middle_bins]. *)
Theorem quantile_binning_shape
  (fit : list Q -> list Q -> result (list Q -> list Q))
  (errors uncertainties : list Q) (num_bins : nat) (acceptable_thresh : Q)
  (combine_middle_bins : bool) (uncert_boundaries : list (list Q))
  (estimated_errors : list Q) :
  Quantiles.quantile_binning_and_est_errors fit errors uncertainties
    num_bins "quantile" acceptable_thresh combine_middle_bins
  = Ok (uncert_boundaries, estimated_errors) ->
  length errors = length uncertainties
  /\ (if combine_middle_bins then 2 else 1) <= num_bins
  /\ length uncert_boundaries
     = (if combine_middle_bins then 2 else num_bins - 1)
  /\ length estimated_errors = length uncert_boundaries
  /\ Forall (fun b => length b = 1) uncert_boundaries
  /\ StronglySorted Qle (concat uncert_boundaries).
Proof.
  unfold Quantiles.quantile_binning_and_est_errors.
  destruct (Nat.eqb_spec (length errors) (length uncertainties)) as [Hl|Hl];
    simpl; [|discriminate].
  destruct (fit uncertainties errors) as [predict|e0]; simpl; [|discriminate].
  destruct num_bins as [|n]; simpl; [discriminate|].
  rewrite Nat.sub_0_r.
  set (f := fun k => (of_nat (S k) / of_nat (S n))%Q).
  set (g := fun q => [quantile_value uncertainties q]).
  destruct (foldM _ (map f (range n)) ([], [])) as [[ub ee]|e2] eqn:Hf;
    simpl; [|discriminate].
  apply quantile_steps_shape in Hf. destruct Hf as [Hub Hee].
  simpl in Hub, Hee. rewrite length_map in Hee. unfold range in Hee, Hub.
  rewrite length_seq in Hee. fold g in Hub.
  assert (Hsorted : StronglySorted Qle (concat ub)).
  { subst ub. unfold g. rewrite map_map.
    replace (concat (map (fun x => [quantile_value uncertainties (f x)])
                         (seq 0 n)))
      with (map (quantile_value uncertainties) (map f (seq 0 n))).
    - eapply StronglySorted_map; [|apply levels_sorted].
      intros x y. apply quantile_value_le.
    - rewrite map_map. induction (seq 0 n); simpl; congruence. }
  assert (Hone : Forall (fun b => length b = 1) ub).
  { subst ub. apply Forall_map. apply Forall_forall. reflexivity. }
  assert (Hlen : length ub = n).
  { subst ub. now rewrite !length_map, length_seq. }
  clear Hub. destruct combine_middle_bins.
  - intros H. inv_bind H. inversion H; subst uncert_boundaries estimated_errors.
    clear H. split; [assumption|]. split.
    { destruct n; [|lia]. destruct ee; [discriminate Ha|simpl in Hee; lia]. }
    split; [reflexivity|]. split; [reflexivity|].
    pose proof (index_Forall _ _ _ _ Hone Ha1) as L1.
    assert (L2 : length a2 = 1).
    { unfold index_last in Ha2. destruct (rev ub) as [|y r] eqn:Hr;
        inversion Ha2; subst.
      rewrite Forall_forall in Hone. apply Hone. apply in_rev.
      rewrite Hr. now left. }
    split; [repeat constructor; assumption|].
    destruct a1 as [|v1 [|]]; try discriminate.
    destruct a2 as [|v2 [|]]; try discriminate.
    simpl. repeat constructor.
    apply (sorted_first_last (concat ub)); [assumption| |].
    + now apply concat_index_first.
    + now apply concat_index_last.
  - intros H. inversion H; subst uncert_boundaries estimated_errors.
    repeat split; try assumption; try lia.
Qed.

Lemma quantile_binning_shape_witness :
  length [[6 # 3]; [9 # 3]]%Q = 3 - 1
  /\ StronglySorted Qle (concat [[6 # 3]; [9 # 3]]%Q).
Proof.
  pose proof (quantile_binning_shape (fun _ _ => Ok (fun x => x))
                [1; 1; 1; 1]%Q [1; 2; 3; 4]%Q 3 5%Q false
                [[6 # 3]; [9 # 3]]%Q [6 # 3; 9 # 3]%Q) as H.
  split; [reflexivity|]. apply H. vm_compute. reflexivity.
Defined.

(** ** bin_wise_bound_eval: accuracies and intervals *)

Lemma count_correct_from num_bins q fold_bounds errs :
  forall c0 c,
    foldM (fun inner_bin_correct error =>
             ok <- within_bounds num_bins q fold_bounds error ;;
             Ok (if ok then S inner_bin_correct else inner_bin_correct))
          errs c0 = Ok c ->
    c0 <= c <= c0 + length errs.
Proof.
  induction errs as [|e errs IH]; simpl; intros c0 c H.
  - inversion H; lia.
  - apply bind_ok in H. destruct H as (c1 & H1 & H).
    apply bind_ok in H1. destruct H1 as (b & _ & H1).
    inversion H1; subst c1. apply IH in H. destruct b; lia.
Qed.

Lemma count_correct_le num_bins q fold_bounds errs c :
  count_correct num_bins q fold_bounds errs = Ok c -> c <= length errs.
Proof. intros H. apply count_correct_from in H. lia. Qed.

Lemma of_nat_nonneg n : (0 <= of_nat n)%Q.
Proof.
  unfold of_nat. change 0%Q with (inject_Z 0). rewrite <- Zle_Qle. lia.
Qed.

Lemma of_nat_pos n : 0 < n -> (0 < of_nat n)%Q.
Proof.
  intros H. unfold of_nat. change 0%Q with (inject_Z 0).
  rewrite <- Zlt_Qlt. lia.
Qed.

Lemma of_nat_le n m : n <= m -> (of_nat n <= of_nat m)%Q.
Proof. intros H. unfold of_nat. rewrite <- Zle_Qle. lia. Qed.

Lemma accuracy_of_fraction c n : c <= n -> fraction (accuracy_of c n).
Proof.
  intros Hcn. unfold accuracy_of, fraction.
  destruct (Nat.eqb_spec c 0) as [->|Hc]; [split; [apply Qle_refl|discriminate]|].
  destruct (Nat.eqb_spec n 0) as [->|Hn]; [lia|].
  split.
  - apply Qle_shift_div_l; [apply of_nat_pos; lia|].
    rewrite Qmult_0_l. apply of_nat_nonneg.
  - apply Qle_shift_div_r; [apply of_nat_pos; lia|].
    rewrite Qmult_1_l. now apply of_nat_le.
Qed.

(** X3.  The accuracy recorded for a bin is a fraction: it lies between
    0 and 1 whenever the bound look-ups succeed, because the number of
    errors counted as correct never exceeds the size of the bin. *)
Theorem bound_accuracy_is_fraction
  (num_bins q : nat) (fold_bounds inbin_errors : list Q) (a : Q) :
  accuracy_bin num_bins q fold_bounds inbin_errors = Ok a ->
  fraction a
  /\ exists c, count_correct num_bins q fold_bounds inbin_errors = Ok c
               /\ c <= length inbin_errors
               /\ a = accuracy_of c (length inbin_errors).
Proof.
  unfold accuracy_bin. intros H. inv_bind H. inversion H; subst a; clear H.
  pose proof (count_correct_le _ _ _ _ _ Ha0) as Hle.
  split; [now apply accuracy_of_fraction|].
  exists a0. auto.
Qed.

Lemma bound_accuracy_is_fraction_witness : fraction (1 # 2).
Proof.
  apply (bound_accuracy_is_fraction 3 0 [3; 5]%Q [2; 4]%Q (1 # 2)).
  vm_compute. reflexivity.
Defined.

Lemma Qltb_lt a b : Qltb a b = true <-> (a < b)%Q.
Proof.
  unfold Qltb. rewrite negb_true_iff. split.
  - intros H. apply Qnot_le_lt. intros Hle. apply Qle_bool_iff in Hle.
    congruence.
  - intros H. destruct (Qle_bool b a) eqn:E; [|reflexivity].
    apply Qle_bool_iff in E. lra.
Qed.

Lemma Qle_bool_reflect a b : reflect (a <= b)%Q (Qle_bool a b).
Proof. apply iff_reflect. symmetry. apply Qle_bool_iff. Qed.

Lemma Qltb_reflect a b : reflect (a < b)%Q (Qltb a b).
Proof. apply iff_reflect. symmetry. apply Qltb_lt. Qed.

Lemma bin_of_le fold_bounds e : bin_of fold_bounds e <= length fold_bounds.
Proof. unfold bin_of. apply filter_length_le. Qed.

(** In ascending bounds the thresholds below an error form a prefix. *)
Lemma bin_of_prefix fold_bounds e :
  StronglySorted Qle fold_bounds ->
  forall i, i < length fold_bounds ->
            (i < bin_of fold_bounds e <-> (nth i fold_bounds 0 < e)%Q).
Proof.
  unfold bin_of. induction 1 as [|x l Hl IH Hx]; simpl; intros i Hi; [lia|].
  rewrite Forall_forall in Hx.
  destruct (Qltb_reflect x e) as [Hlt|Hge]; simpl.
  - destruct i as [|i]; [split; [auto|lia]|].
    rewrite <- IH by lia. lia.
  - assert (Hnil : filter (fun b => Qltb b e) l = []).
    { clear IH Hl Hi. induction l as [|y l IHl]; simpl; [reflexivity|].
      destruct (Qltb_reflect y e) as [Hy'|].
      - specialize (Hx y (or_introl eq_refl)). lra.
      - apply IHl. intros z Hz. apply Hx. now right. }
    rewrite Hnil. simpl. split; [lia|]. intros Hlt. exfalso.
    destruct i as [|i]; [contradiction|].
    assert (Hin : In (nth i l 0%Q) l) by (apply nth_In; lia).
    specialize (Hx _ Hin). lra.
Qed.

(** X4.  With ascending bounds, one for every bin but the last, the
    intervals of [bin_wise_bound_eval] do not overlap and cover the
    positive errors: a positive error passes the test of exactly one
    bin, the one whose index is the number of bounds below the error.
    An error that is not positive never passes the test of bin 0. *)
Theorem within_bounds_selects_one_bin
  (num_bins q : nat) (fold_bounds : list Q) (error : Q) :
  2 <= num_bins ->
  length fold_bounds = num_bins - 1 ->
  StronglySorted Qle fold_bounds ->
  q < num_bins ->
  ((0 < error)%Q ->
   within_bounds num_bins q fold_bounds error
   = Ok (Nat.eqb q (bin_of fold_bounds error)))
  /\ ((error <= 0)%Q ->
      within_bounds num_bins 0 fold_bounds error = Ok false).
Proof.
  intros Hnb Hlen Hsorted Hq.
  pose proof (bin_of_le fold_bounds error) as Hk.
  pose proof (bin_of_prefix fold_bounds error Hsorted) as Hpre.
  set (k := bin_of fold_bounds error) in *.
  split.
  - intros Hpos. unfold within_bounds.
    destruct (Nat.eqb_spec q 0) as [->|Hq0].
    + rewrite (index_nth fold_bounds 0 0%Q) by lia. cbn [Py.bind]. f_equal.
      pose proof (Hpre 0 ltac:(lia)) as H0.
      apply Bool.eq_iff_eq_true.
      rewrite andb_true_iff, Qle_bool_iff, Qltb_lt, Nat.eqb_eq. split.
      * intros [Hle _].
        assert (Hn : ~ 0 < k) by (intros C; apply H0 in C; lra). lia.
      * intros <-. split; [|assumption].
        destruct (Qlt_le_dec (nth 0 fold_bounds 0%Q) error) as [C|C];
          [apply H0 in C; lia|exact C].
    + destruct (Nat.ltb_spec q (num_bins - 1)) as [Hlt|Hge].
      * rewrite (index_nth fold_bounds (q - 1) 0%Q) by lia.
        rewrite (index_nth fold_bounds q 0%Q) by lia. cbn [Py.bind]. f_equal.
        pose proof (Hpre (q - 1) ltac:(lia)) as H1.
        pose proof (Hpre q ltac:(lia)) as H2.
        apply Bool.eq_iff_eq_true.
        rewrite andb_true_iff, Qle_bool_iff, Qltb_lt, Nat.eqb_eq. split.
        -- intros [Hle Hgt]. apply H1 in Hgt.
           assert (Hn : ~ q < k) by (intros C; apply H2 in C; lra). lia.
        -- intros Heq. split.
           ++ destruct (Qlt_le_dec (nth q fold_bounds 0%Q) error) as [C|C];
                [apply H2 in C; lia|exact C].
           ++ apply H1. lia.
      * rewrite (index_nth fold_bounds (q - 1) 0%Q) by lia. cbn [Py.bind].
        f_equal. pose proof (Hpre (q - 1) ltac:(lia)) as H1.
        apply Bool.eq_iff_eq_true. rewrite Qltb_lt, Nat.eqb_eq. split.
        -- intros Hgt. apply H1 in Hgt. lia.
        -- intros Heq. apply H1. lia.
  - intros Hneg. unfold within_bounds. cbn [Nat.eqb].
    rewrite (index_nth fold_bounds 0 0%Q) by lia. cbn [Py.bind]. f_equal.
    destruct (Qltb_reflect 0 error); [lra|]. apply andb_false_r.
Qed.

Lemma within_bounds_selects_one_bin_witness :
  within_bounds 3 1 [3; 5]%Q 4 = Ok (Nat.eqb 1 (bin_of [3; 5]%Q 4)).
Proof.
  refine (proj1 (within_bounds_selects_one_bin 3 1 [3; 5]%Q 4 _ _ _ _) _).
  - lia.
  - reflexivity.
  - repeat constructor; discriminate.
  - lia.
  - reflexivity.
Defined.

(** ** Indexed updates, entry by entry *)

Lemma index_ok_nth {A} (l : list A) i x (d : A) :
  index l i = Ok x -> i < length l /\ x = nth i l d.
Proof.
  unfold index. destruct (nth_error l i) eqn:H; intros E; inversion E; subst.
  split.
  - apply nth_error_Some. congruence.
  - symmetry. now apply nth_error_nth.
Qed.

Lemma set_index_nth {A} (l : list A) i x l' :
  set_index l i x = Ok l' ->
  i < length l /\ length l' = length l
  /\ forall j d, nth j l' d = if Nat.eqb j i then x else nth j l d.
Proof.
  revert i l'; induction l as [|y l IH]; intros [|i] l' H; simpl in H;
    try discriminate.
  - inversion H; subst. simpl. split; [lia|]. split; [reflexivity|].
    intros [|j] d; reflexivity.
  - inv_bind H. inversion H; subst. destruct (IH _ _ Ha) as (Hi & Hl & Hn).
    simpl. split; [lia|]. split; [lia|].
    intros [|j] d; simpl; [reflexivity|apply Hn].
Qed.

Lemma set_index_total {A} (l : list A) i x :
  i < length l -> exists l', set_index l i x = Ok l'.
Proof.
  revert i; induction l as [|y l IH]; intros [|i] H; simpl in *; try lia.
  - eauto.
  - destruct (IH i ltac:(lia)) as (l' & ->). simpl. eauto.
Qed.

Lemma extend_at_nth {A} (l : list (list A)) i xs l' :
  extend_at l i xs = Ok l' ->
  i < length l /\ length l' = length l
  /\ forall j, nth j l' [] = if Nat.eqb j i then nth i l [] ++ xs
                             else nth j l [].
Proof.
  unfold extend_at. intros H. inv_bind H.
  destruct (index_ok_nth _ _ _ [] Ha) as [Hi ->].
  destruct (set_index_nth _ _ _ _ H) as (_ & Hl & Hn). auto.
Qed.

Lemma append_at_nth {A} (l : list (list A)) i x l' :
  append_at l i x = Ok l' ->
  i < length l /\ length l' = length l
  /\ forall j, nth j l' [] = if Nat.eqb j i then nth i l [] ++ [x]
                             else nth j l [].
Proof. apply (extend_at_nth l i [x]). Qed.

Lemma extend_at_total {A} (l : list (list A)) i xs :
  i < length l -> exists l', extend_at l i xs = Ok l'.
Proof.
  intros H. unfold extend_at. rewrite (index_nth l i []) by assumption.
  simpl. now apply set_index_total.
Qed.

Lemma append_at_total {A} (l : list (list A)) i x :
  i < length l -> exists l', append_at l i x = Ok l'.
Proof. apply (extend_at_total l i [x]). Qed.

Lemma extend_at2_nth {A} (l : list (list (list A))) i j xs l' :
  extend_at2 l i j xs = Ok l' ->
  i < length l /\ j < length (nth i l []) /\ length l' = length l
  /\ (forall a, length (nth a l' []) = length (nth a l []))
  /\ forall a b, nth b (nth a l' []) []
                 = if Nat.eqb a i && Nat.eqb b j
                   then nth j (nth i l []) [] ++ xs
                   else nth b (nth a l []) [].
Proof.
  unfold extend_at2. intros H. inv_bind H.
  destruct (index_ok_nth _ _ _ [] Ha) as [Hi ->].
  destruct (extend_at_nth _ _ _ _ Ha0) as (Hj & Hl0 & Hn0).
  destruct (set_index_nth _ _ _ _ H) as (_ & Hl & Hn).
  split; [assumption|]. split; [assumption|]. split; [assumption|]. split.
  - intros a. rewrite Hn. destruct (Nat.eqb_spec a i); subst; auto.
  - intros a b. rewrite Hn. destruct (Nat.eqb_spec a i); subst; simpl; auto.
Qed.

Lemma append_at2_nth {A} (l : list (list (list A))) i j x l' :
  append_at2 l i j x = Ok l' ->
  i < length l /\ j < length (nth i l []) /\ length l' = length l
  /\ (forall a, length (nth a l' []) = length (nth a l []))
  /\ forall a b, nth b (nth a l' []) []
                 = if Nat.eqb a i && Nat.eqb b j
                   then nth j (nth i l []) [] ++ [x]
                   else nth b (nth a l []) [].
Proof. apply (extend_at2_nth l i j [x]). Qed.

Lemma extend_at2_total {A} (l : list (list (list A))) i j xs :
  i < length l -> j < length (nth i l []) ->
  exists l', extend_at2 l i j xs = Ok l'.
Proof.
  intros Hi Hj. unfold extend_at2. rewrite (index_nth l i []) by assumption.
  simpl. destruct (extend_at_total (nth i l []) j xs Hj) as (row & ->).
  simpl. now apply set_index_total.
Qed.

Lemma append_at2_total {A} (l : list (list (list A))) i j x :
  i < length l -> j < length (nth i l []) ->
  exists l', append_at2 l i j x = Ok l'.
Proof. apply (extend_at2_total l i j [x]). Qed.

(** Loops over [range] and [enumerate] with an invariant that follows
    the index. *)
Lemma foldM_seq_inv {S} (P : nat -> S -> Prop) (f : S -> nat -> result S)
  (len : nat) :
  forall start s s',
    P start s ->
    (forall q s1 s2, start <= q < start + len -> P q s1 -> f s1 q = Ok s2 ->
                     P (Datatypes.S q) s2) ->
    foldM f (seq start len) s = Ok s' ->
    P (start + len) s'.
Proof.
  induction len as [|len IH]; simpl; intros start s s' Hs Hstep H.
  - inversion H; subst. now rewrite Nat.add_0_r.
  - apply bind_ok in H. destruct H as (s1 & H1 & H).
    rewrite <- Nat.add_succ_comm. apply (IH (Datatypes.S start) s1).
    + apply (Hstep start s); [lia|assumption|assumption].
    + intros q sa sb Hq. apply Hstep. lia.
    + exact H.
Qed.

Lemma foldM_enum_inv {A S} (P : nat -> S -> Prop)
  (f : S -> nat * A -> result S) (l : list A) :
  forall start s s',
    P start s ->
    (forall i x s1 s2, start <= i < start + length l -> In x l -> P i s1 ->
                       f s1 (i, x) = Ok s2 -> P (Datatypes.S i) s2) ->
    foldM f (combine (seq start (length l)) l) s = Ok s' ->
    P (start + length l) s'.
Proof.
  induction l as [|x l IH]; simpl; intros start s s' Hs Hstep H.
  - inversion H; subst. now rewrite Nat.add_0_r.
  - apply bind_ok in H. destruct H as (s1 & H1 & H).
    rewrite <- Nat.add_succ_comm. apply (IH (Datatypes.S start) s1).
    + apply (Hstep start x s); [lia|now left|assumption|assumption].
    + intros i y sa sb Hi Hy. apply Hstep; [lia|now right].
    + exact H.
Qed.

(** ** bin_wise_bound_eval: the shape of what it returns *)

(** Decides every comparison of naturals in the goal and closes the
    cases by arithmetic. *)
Ltac nat_cases :=
  repeat match goal with
         | |- context [Nat.ltb ?a ?b] => destruct (Nat.ltb_spec a b)
         | |- context [Nat.eqb ?a ?b] => destruct (Nat.eqb_spec a b)
         end;
  cbn [andb orb length Nat.add]; try lia; try reflexivity.

Lemma bound_bin_step_shape n_targets n_bins k q fold_bounds pbe bb bb' :
  q < n_bins -> k < n_targets ->
  length (bins_acc bb) = q -> length (bins_sizes bb) = q ->
  bound_shape n_targets n_bins k q (bb_state bb) ->
  bound_bin_step n_bins k fold_bounds pbe bb q = Ok bb' ->
  length (bins_acc bb') = S q /\ length (bins_sizes bb') = S q
  /\ bound_shape n_targets n_bins k (S q) (bb_state bb').
Proof.
  intros Hq Hk Hacc Hsz (S1 & S2 & S3 & S4 & S5 & S6 & S7 & S8) H.
  unfold bound_bin_step in H.
  apply bind_ok in H. destruct H as (errs & _ & H).
  apply bind_ok in H. destruct H as (acc & _ & H).
  apply bind_ok in H. destruct H as (perc & Hperc & H).
  apply bind_ok in H. destruct H as (size & Hsize & H).
  apply bind_ok in H. destruct H as (sep & Hsep & H).
  inversion H; subst bb'; clear H. cbn [bins_acc bins_sizes bb_state].
  rewrite !length_app. cbn [length]. split; [lia|]. split; [lia|].
  destruct (append_at_nth _ _ _ _ Hperc) as (_ & P1 & P2).
  destruct (append_at_nth _ _ _ _ Hsize) as (_ & Z1 & Z2).
  destruct (append_at2_nth _ _ _ _ _ Hsep) as (_ & _ & E1 & E2 & E3).
  unfold bound_shape.
  cbn [all_target_perc all_qs_perc all_qs_size
       all_qs_errorbound_concat_targets_sep].
  split; [assumption|]. split; [lia|]. split.
  { intros j Hj. rewrite P2. specialize (S3 j Hj).
    destruct (Nat.eqb_spec j q) as [->|Hne].
    - rewrite length_app, S3. cbn [length].
      rewrite Nat.ltb_irrefl. destruct (Nat.ltb_spec q (S q)); lia.
    - rewrite S3. destruct (Nat.ltb_spec j q), (Nat.ltb_spec j (S q)); lia. }
  split; [lia|]. split.
  { intros j Hj. rewrite Z2. specialize (S5 j Hj).
    destruct (Nat.eqb_spec j q) as [->|Hne].
    - rewrite length_app, S5. cbn [length].
      rewrite Nat.ltb_irrefl. destruct (Nat.ltb_spec q (S q)); lia.
    - rewrite S5. destruct (Nat.ltb_spec j q), (Nat.ltb_spec j (S q)); lia. }
  split; [lia|]. split.
  { intros t Ht. rewrite E2. now apply S7. }
  intros t j Ht Hj. rewrite E3.
  pose proof (S8 t j Ht Hj) as Stj. pose proof (S8 k q Hk Hq) as Skq.
  destruct (Nat.eqb_spec t k) as [->|Hne]; cbn [andb].
  - destruct (Nat.eqb_spec j q) as [->|Hne].
    + rewrite length_app, Skq. cbn [length]. nat_cases.
    + rewrite Stj. nat_cases.
  - rewrite Stj. nat_cases.
Qed.

Lemma bound_target_step_shape n_targets n_bins k bounds fe fb key st t st' :
  k < n_targets ->
  bound_shape n_targets n_bins k 0 st ->
  bound_target_step bounds fe fb key n_bins st (k, t) = Ok st' ->
  bound_shape n_targets n_bins (S k) 0 st'.
Proof.
  intros Hk Hst H. unfold bound_target_step in H.
  apply bind_ok in H. destruct H as ([te pb] & _ & H).
  apply bind_ok in H. destruct H as (fold_bounds & _ & H).
  apply bind_ok in H. destruct H as (groups & _ & H).
  apply bind_ok in H. destruct H as (bb & Hloop & H).
  apply bind_ok in H. destruct H as (ave & _ & H).
  inversion H; subst st'; clear H.
  apply (foldM_seq_inv
           (fun q bb => length (bins_acc bb) = q /\ length (bins_sizes bb) = q
                        /\ bound_shape n_targets n_bins k q (bb_state bb)))
    in Hloop.
  - destruct Hloop as (_ & _ & S1 & S2 & S3 & S4 & S5 & S6 & S7 & S8).
    cbn [Nat.add] in *. unfold bound_shape.
    cbn [all_target_perc all_qs_perc all_qs_size
         all_qs_errorbound_concat_targets_sep].
    rewrite length_app. cbn [length].
    split; [lia|]. split; [assumption|]. split.
    { intros j Hj. rewrite (S3 j Hj).
      destruct (Nat.ltb_spec j n_bins); [reflexivity|lia]. }
    split; [assumption|]. split.
    { intros j Hj. rewrite (S5 j Hj).
      destruct (Nat.ltb_spec j n_bins); [reflexivity|lia]. }
    split; [assumption|]. split; [assumption|].
    intros t0 j Ht Hj. rewrite (S8 t0 j Ht Hj).
    destruct (Nat.ltb_spec j n_bins); [|lia].
    replace (Nat.ltb j 0) with false by reflexivity.
    rewrite !andb_false_r, andb_true_r, orb_false_r.
    destruct (Nat.ltb_spec t0 k), (Nat.eqb_spec t0 k), (Nat.ltb_spec t0 (S k));
      try lia; reflexivity.
  - cbn [bins_acc bins_sizes bb_state]. auto.
  - intros q s1 s2 Hq (A1 & A2 & A3) Hstep.
    eapply bound_bin_step_shape; eauto. lia.
Qed.

Lemma nth_repeat_rows {A} (n m t : nat) :
  t < m -> nth t (repeat (@empties A n) m) [] = empties n.
Proof.
  intros H. rewrite (nth_indep _ [] (empties n)) by (now rewrite repeat_length).
  apply nth_repeat.
Qed.

Lemma bound_targets_loop_shape bounds fe fb targets key n st :
  foldM (bound_target_step bounds fe fb key n) (enumerate targets)
        {| all_target_perc := [];
           all_qs_perc := empties n;
           all_qs_size := empties n;
           all_qs_errorbound_concat_targets_sep :=
             repeat (empties n) (length targets) |} = Ok st ->
  bound_shape (length targets) n (length targets) 0 st.
Proof.
  intros Hloop. unfold enumerate in Hloop.
  apply (foldM_enum_inv
           (fun k st => bound_shape (length targets) n k 0 st))
    in Hloop.
  - exact Hloop.
  - unfold bound_shape.
    cbn [all_target_perc all_qs_perc all_qs_size
         all_qs_errorbound_concat_targets_sep length].
    rewrite !length_empties, repeat_length.
    repeat split; try reflexivity.
    + intros j Hj. unfold empties. now rewrite nth_repeat.
    + intros j Hj. unfold empties. now rewrite nth_repeat.
    + intros t Ht. rewrite nth_repeat_rows by assumption.
      apply length_empties.
    + intros t j Ht Hj. rewrite nth_repeat_rows by assumption.
      unfold empties. rewrite nth_repeat.
      replace (Nat.ltb j 0) with false by reflexivity.
      replace (Nat.ltb t 0) with false by reflexivity.
      now rewrite andb_false_r.
  - intros i x s1 s2 Hi _ Hs Hstep.
    eapply bound_target_step_shape; eauto. lia.
Qed.

(** X5.  What [bin_wise_bound_eval] returns has the shape of its
    arguments: one weighted mean per bin, one list per bin with one
    accuracy per target, and a table with one row per target, one cell
    per bin and exactly one accuracy in every cell. *)
Theorem bin_wise_bound_eval_shape
  (fold_bounds_all_targets : list (list Q)) (fold_errors : err_frame)
  (fold_bins : bin_frame) (targets : list Z) (uncertainty_type : string)
  (num_bins : nat) (r : bound_fold_result) :
  bin_wise_bound_eval fold_bounds_all_targets fold_errors fold_bins targets
                      uncertainty_type num_bins = Ok r ->
  length (bnd_mean_all_bins r) = num_bins
  /\ length (bnd_mean_all r) = num_bins
  /\ rows_of (length targets) (bnd_mean_all r)
  /\ length (bnd_all_bins_concat_targets_sep r) = length targets
  /\ Forall (fun row => length row = num_bins /\ rows_of 1 row)
            (bnd_all_bins_concat_targets_sep r).
Proof.
  unfold bin_wise_bound_eval. intros H.
  apply bind_ok in H. destruct H as (st & Hloop & H).
  inversion H; subst r; clear H.
  cbn [bnd_mean_all_bins bnd_mean_all bnd_all_bins_concat_targets_sep].
  apply bound_targets_loop_shape in Hloop.
  destruct Hloop as (S1 & S2 & S3 & S4 & S5 & S6 & S7 & S8).
  split; [rewrite length_map, length_combine; lia|].
  split; [assumption|]. split.
  { unfold rows_of. apply Forall_nth. intros j d Hj.
    rewrite (nth_indep _ d []) by assumption.
    rewrite S3 by lia. reflexivity. }
  split; [assumption|].
  apply Forall_nth. intros t d Ht. rewrite (nth_indep _ d []) by assumption.
  rewrite S6 in Ht. split; [now apply S7|].
  unfold rows_of. apply Forall_nth. intros j d' Hj.
  rewrite (nth_indep _ d' []) by assumption. rewrite S7 in Hj by assumption.
  rewrite (S8 t j Ht Hj).
  destruct (Nat.ltb_spec t (length targets)); [reflexivity|lia].
Qed.

Lemma bin_wise_bound_eval_shape_witness :
  exists r,
    bin_wise_bound_eval [[3; 5]%Q] Fixture.errors3 Fixture.bins3 [0%Z]
                        Fixture.key 3 = Ok r
    /\ length (bnd_mean_all_bins r) = 3
    /\ rows_of 1 (bnd_mean_all r).
Proof.
  eexists. split; [vm_compute; reflexivity|].
  match goal with
  | |- length (bnd_mean_all_bins ?r) = _ /\ _ =>
      pose proof (bin_wise_bound_eval_shape [[3; 5]%Q] Fixture.errors3
                    Fixture.bins3 [0%Z] Fixture.key 3 r) as H
  end.
  destruct H as (H1 & _ & H3 & _); [vm_compute; reflexivity|].
  split; [exact H1|exact H3].
Defined.

(** ** bin_wise_bound_eval: every value is a fraction *)

Lemma weighted_sums_bounds (l : list (Q * nat)) :
  Forall (fun p => fraction (fst p)) l ->
  forall ws : Q * Q,
    (0 <= fst ws)%Q /\ (fst ws <= snd ws)%Q ->
    let r := fold_left
               (fun ws p => (fst ws + fst p * of_nat (snd p),
                             snd ws + of_nat (snd p))%Q) l ws in
    (0 <= fst r)%Q /\ (fst r <= snd r)%Q.
Proof.
  induction 1 as [|[a n] l [Ha0 Ha1] Hl IH]; simpl; intros ws Hws;
    [assumption|].
  apply IH. simpl in *. pose proof (of_nat_nonneg n) as Hn.
  destruct Hws as [H0 H1]. split; nra.
Qed.

Lemma combine_fractions (accs : list Q) (sizes : list nat) :
  Forall fraction accs ->
  Forall (fun p : Q * nat => fraction (fst p)) (combine accs sizes).
Proof.
  intros H. revert sizes. induction H as [|a accs Ha H IH]; intros [|n sizes];
    simpl; constructor; auto.
Qed.

Lemma quotient_fraction (w t : Q) :
  (0 <= w)%Q -> (w <= t)%Q -> ~ (t == 0)%Q -> fraction (w / t).
Proof.
  intros H0 H1 Ht. assert (Hpos : (0 < t)%Q).
  { destruct (Qlt_le_dec 0 t) as [|Hle]; [assumption|].
    exfalso. apply Ht. lra. }
  split.
  - apply Qle_shift_div_l; [assumption|]. lra.
  - apply Qle_shift_div_r; [assumption|]. lra.
Qed.

Lemma weighted_ave_fraction accs sizes v :
  Forall fraction accs -> weighted_ave accs sizes = Ok v -> fraction v.
Proof.
  intros Hf. unfold weighted_ave, weighted_sums.
  pose proof (weighted_sums_bounds _ (combine_fractions accs sizes Hf)
                (0, 0)%Q ltac:(simpl; lra)) as [H0 H1].
  cbv zeta in H0, H1.
  destruct (Qeq_bool _ 0) eqn:E; [discriminate|].
  intros H; inversion H; subst. apply Qeq_bool_neq in E.
  now apply quotient_fraction.
Qed.

Lemma weighted_ave_bin_fraction accs sizes :
  Forall fraction accs -> fraction (weighted_ave_bin accs sizes).
Proof.
  intros Hf. unfold weighted_ave_bin, weighted_sums.
  pose proof (weighted_sums_bounds _ (combine_fractions accs sizes Hf)
                (0, 0)%Q ltac:(simpl; lra)) as [H0 H1].
  cbv zeta in H0, H1.
  destruct (Qeq_bool (fst _) 0) eqn:E1; simpl; [split; lra|].
  destruct (Qeq_bool (snd _) 0) eqn:E2; simpl; [split; lra|].
  apply Qeq_bool_neq in E2. now apply quotient_fraction.
Qed.

Lemma of_nat_S n : (of_nat (S n) == of_nat n + 1)%Q.
Proof.
  unfold of_nat. rewrite Nat2Z.inj_succ, <- Z.add_1_r, inject_Z_plus.
  reflexivity.
Qed.

Lemma Qsum_fractions_from (l : list Q) :
  Forall fraction l ->
  forall a, (a <= fold_left Qplus l a)%Q
            /\ (fold_left Qplus l a <= a + of_nat (length l))%Q.
Proof.
  induction 1 as [|x l [Hx0 Hx1] Hl IH]; intros a; simpl.
  - change (of_nat 0) with 0%Q. split; lra.
  - destruct (IH (a + x)%Q) as [H0 H1]. rewrite of_nat_S. split; lra.
Qed.

Lemma np_mean_fraction (l : list Q) m :
  Forall fraction l -> np_mean l = Some m -> fraction m.
Proof.
  intros Hf. destruct l as [|x l]; simpl; [discriminate|].
  intros H; inversion H; subst; clear H. unfold mean, Qsum.
  destruct (Qsum_fractions_from _ Hf 0) as [H0 H1].
  assert (Hpos : (0 < of_nat (length (x :: l)))%Q)
    by (apply of_nat_pos; simpl; lia).
  split.
  - apply Qle_shift_div_l; [assumption|]. lra.
  - apply Qle_shift_div_r; [assumption|]. lra.
Qed.

Lemma append_at_Forall {A} (P : A -> Prop) (l : list (list A)) i x l' :
  Forall (Forall P) l -> P x -> append_at l i x = Ok l' ->
  Forall (Forall P) l'.
Proof.
  unfold append_at. intros Hl Hx H. inv_bind H.
  eapply set_index_Forall; [exact Hl| |exact H].
  apply Forall_app. split; [|now constructor].
  eapply (index_Forall (Forall P)); eauto.
Qed.

Lemma append_at2_Forall {A} (P : A -> Prop) (l : list (list (list A)))
  i j x l' :
  Forall (Forall (Forall P)) l -> P x -> append_at2 l i j x = Ok l' ->
  Forall (Forall (Forall P)) l'.
Proof.
  unfold append_at2. intros Hl Hx H. inv_bind H.
  eapply set_index_Forall; [exact Hl| |exact H].
  eapply append_at_Forall; [|exact Hx|exact Ha0].
  eapply (index_Forall (Forall (Forall P))); eauto.
Qed.

Lemma Forall_empties {A} (P : A -> Prop) n : Forall (Forall P) (empties n).
Proof.
  apply Forall_forall. intros row H. apply repeat_spec in H. subst.
  constructor.
Qed.

Lemma bound_target_step_fractions bounds fe fb key num_bins st it st' :
  bound_fractions st ->
  bound_target_step bounds fe fb key num_bins st it = Ok st' ->
  bound_fractions st'.
Proof.
  intros Hst H. destruct it as [i target_idx]. unfold bound_target_step in H.
  apply bind_ok in H. destruct H as ([te pb] & _ & H).
  apply bind_ok in H. destruct H as (fold_bounds & _ & H).
  apply bind_ok in H. destruct H as (groups & _ & H).
  apply bind_ok in H. destruct H as (bb & Hloop & H).
  apply bind_ok in H. destruct H as (ave & Have & H).
  inversion H; subst st'; clear H.
  apply (foldM_inv (fun bb => Forall fraction (bins_acc bb)
                              /\ bound_fractions (bb_state bb))) in Hloop.
  - destruct Hloop as (Hacc & F1 & F2 & F3). unfold bound_fractions.
    cbn [all_target_perc all_qs_perc all_qs_errorbound_concat_targets_sep].
    split; [|split; assumption].
    apply Forall_app. split; [assumption|].
    constructor; [|constructor].
    eapply weighted_ave_fraction; [|exact Have]. exact Hacc.
  - clear. intros bb q bb' (Hacc & F1 & F2 & F3) H.
    unfold bound_bin_step in H.
    apply bind_ok in H. destruct H as (errs & _ & H).
    apply bind_ok in H. destruct H as (acc & Ha & H).
    apply bind_ok in H. destruct H as (perc & Hperc & H).
    apply bind_ok in H. destruct H as (size & _ & H).
    apply bind_ok in H. destruct H as (sep & Hsep & H).
    inversion H; subst bb'; clear H.
    destruct (bound_accuracy_is_fraction _ _ _ _ _ Ha) as [Hfr _].
    unfold bound_fractions.
    cbn [bins_acc bb_state all_target_perc all_qs_perc
         all_qs_errorbound_concat_targets_sep].
    split; [apply Forall_app; split; [assumption|now constructor]|].
    split; [assumption|]. split.
    + eapply append_at_Forall; eauto.
    + eapply append_at2_Forall; eauto.
  - cbn [bins_acc bb_state]. split; [constructor|assumption].
Qed.

Lemma bound_targets_loop_fractions bounds fe fb targets key n st :
  foldM (bound_target_step bounds fe fb key n) (enumerate targets)
        {| all_target_perc := [];
           all_qs_perc := empties n;
           all_qs_size := empties n;
           all_qs_errorbound_concat_targets_sep :=
             repeat (empties n) (length targets) |} = Ok st ->
  bound_fractions st.
Proof.
  intros Hloop. apply (foldM_inv bound_fractions) in Hloop.
  - exact Hloop.
  - intros s x s'. apply bound_target_step_fractions.
  - unfold bound_fractions.
    cbn [all_target_perc all_qs_perc all_qs_errorbound_concat_targets_sep].
    split; [constructor|]. split; [apply Forall_empties|].
    apply Forall_forall. intros row Hrow. apply repeat_spec in Hrow. subst.
    apply Forall_empties.
Qed.

(** X6.  Every number [bin_wise_bound_eval] returns is a fraction: the
    per-bin accuracies, the weighted mean of each bin over the targets
    and the mean over the targets of their weighted means all lie
    between 0 and 1. *)
Theorem bin_wise_bound_eval_fractions
  (fold_bounds_all_targets : list (list Q)) (fold_errors : err_frame)
  (fold_bins : bin_frame) (targets : list Z) (uncertainty_type : string)
  (num_bins : nat) (r : bound_fold_result) :
  bin_wise_bound_eval fold_bounds_all_targets fold_errors fold_bins targets
                      uncertainty_type num_bins = Ok r ->
  Forall fraction (bnd_mean_all_bins r)
  /\ Forall (Forall fraction) (bnd_mean_all r)
  /\ Forall (Forall (Forall fraction)) (bnd_all_bins_concat_targets_sep r)
  /\ (forall m, bnd_mean_all_targets r = Some m -> fraction m).
Proof.
  unfold bin_wise_bound_eval. intros H.
  apply bind_ok in H. destruct H as (st & Hloop & H).
  inversion H; subst r; clear H.
  cbn [bnd_mean_all_bins bnd_mean_all bnd_all_bins_concat_targets_sep
       bnd_mean_all_targets].
  apply bound_targets_loop_fractions in Hloop.
  destruct Hloop as (F1 & F2 & F3).
  split; [|split; [assumption|split; [assumption|]]].
  - apply Forall_map. apply Forall_forall. intros [accs sizes] Hin.
    simpl. apply weighted_ave_bin_fraction.
    apply in_combine_l in Hin. rewrite Forall_forall in F2. auto.
  - intros m. now apply np_mean_fraction.
Qed.

Lemma bin_wise_bound_eval_fractions_witness :
  exists r,
    bin_wise_bound_eval [[3; 5]%Q] Fixture.errors3 Fixture.bins3 [0%Z]
                        Fixture.key 3 = Ok r
    /\ Forall fraction (bnd_mean_all_bins r).
Proof.
  eexists. split; [vm_compute; reflexivity|].
  match goal with
  | |- Forall fraction (bnd_mean_all_bins ?r) =>
      refine (proj1 (bin_wise_bound_eval_fractions [[3; 5]%Q] Fixture.errors3
                       Fixture.bins3 [0%Z] Fixture.key 3 r _))
  end.
  vm_compute. reflexivity.
Defined.

(** ** bin_wise_jaccard: recall and precision are fractions *)

Lemma mem_In x l : mem x l = true <-> In x l.
Proof.
  unfold mem. rewrite existsb_exists. split.
  - intros (y & Hy & E). apply String.eqb_eq in E. now subst.
  - intros H. exists x. split; [assumption|apply String.eqb_refl].
Qed.

Lemma count_in_le_pred pred gt : count_in pred gt <= length pred.
Proof. unfold count_in. apply filter_length_le. Qed.

Lemma count_in_le_gt pred gt :
  NoDup pred -> count_in pred gt <= length gt.
Proof.
  intros Hnd. unfold count_in. apply NoDup_incl_length.
  - now apply NoDup_filter.
  - intros x Hx. apply filter_In in Hx. destruct Hx as [_ Hx].
    now apply mem_In.
Qed.

Lemma ratio_fraction c n : c <= n -> 0 < n -> fraction (of_nat c / of_nat n).
Proof.
  intros Hc Hn. split.
  - apply Qle_shift_div_l; [now apply of_nat_pos|].
    rewrite Qmult_0_l. apply of_nat_nonneg.
  - apply Qle_shift_div_r; [now apply of_nat_pos|].
    rewrite Qmult_1_l. now apply of_nat_le.
Qed.

Lemma recall_precision_fractions pred gt :
  NoDup pred ->
  fraction (fst (recall_precision pred gt))
  /\ fraction (snd (recall_precision pred gt)).
Proof.
  intros Hnd. unfold recall_precision.
  destruct gt as [|g gt].
  - simpl. split; split; lra.
  - cbn [length Nat.eqb fst snd]. split.
    + apply ratio_fraction; [|simpl; lia].
      now apply (count_in_le_gt pred (g :: gt)).
    + destruct pred as [|p pred]; [simpl; split; lra|].
      cbn [length Nat.eqb andb]. apply ratio_fraction; [|simpl; lia].
      apply (count_in_le_pred (p :: pred)).
Qed.

(** X7.  For every predicted group the grouping loop builds for a
    target, and whatever group it is compared with, the recall and the
    precision of [bin_wise_jaccard] lie between 0 and 1: the ids of a
    predicted group are distinct, so the matches counted never exceed
    the size of either group. *)
Theorem jaccard_recall_precision_fractions
  (fold_errors : err_frame) (fold_bins : bin_frame) (target_idx : Z)
  (key : string) (num_bins : nat) (true_errors_ti : dict Q)
  (pred_bins_ti : dict Z) (groups : list (list string * list Q))
  (pred_b_keys gt_bins_keys : list string) :
  target_dicts fold_errors fold_bins target_idx key None
  = Ok (true_errors_ti, pred_bins_ti) ->
  group_bins true_errors_ti pred_bins_ti num_bins = Ok groups ->
  In pred_b_keys (map fst groups) ->
  NoDup pred_b_keys
  /\ fraction (fst (recall_precision pred_b_keys gt_bins_keys))
  /\ fraction (snd (recall_precision pred_b_keys gt_bins_keys)).
Proof.
  intros Hd Hg Hin.
  destruct (target_dicts_NoDup _ _ _ _ _ _ _ Hd) as [_ Hpb].
  assert (Hnd : NoDup pred_b_keys).
  { apply group_bins_keys in Hg. rewrite Forall_forall in Hg.
    apply in_map_iff in Hin. destruct Hin as (g & <- & Hgin).
    destruct (Hg g Hgin) as (j & ->). unfold inner_list.
    now apply NoDup_keys_filter. }
  split; [assumption|]. now apply recall_precision_fractions.
Qed.

Lemma jaccard_recall_precision_fractions_witness :
  NoDup ["a"; "b"]%string
  /\ fraction (fst (recall_precision ["a"; "b"]%string ["b"; "c"]%string))
  /\ fraction (snd (recall_precision ["a"; "b"]%string ["b"; "c"]%string)).
Proof.
  apply (jaccard_recall_precision_fractions Fixture.errors3 Fixture.bins3 0%Z
           Fixture.key 2 (fst Fixture.dicts3) (snd Fixture.dicts3)
           Fixture.groups3).
  - vm_compute. reflexivity.
  - vm_compute. reflexivity.
  - vm_compute. left. reflexivity.
Defined.

(** ** Groups as partitions *)

Lemma filter_or_exclusive {A} (p r : A -> bool) (l : list A) :
  (forall x, p x = true -> r x = true -> False) ->
  Permutation (filter (fun x => p x || r x) l) (filter p l ++ filter r l).
Proof.
  intros Hex. induction l as [|x l IH]; simpl; [constructor|].
  destruct (p x) eqn:Hp; destruct (r x) eqn:Hr; simpl.
  - exfalso. eauto.
  - now constructor.
  - now apply Permutation_cons_app.
  - assumption.
Qed.

(** Tests indexed by [0 .. n-1] of which an entry passes at most one
    split the entries that pass any of them. *)
Lemma partition_by_index {A} (g : A -> nat -> bool) (l : list A) (n : nat) :
  (forall x q q', g x q = true -> g x q' = true -> q = q') ->
  Permutation (concat (map (fun q => filter (fun x => g x q) l) (seq 0 n)))
              (filter (fun x => existsb (g x) (seq 0 n)) l).
Proof.
  intros Hex. induction n as [|n IH].
  - simpl. induction l; simpl; auto.
  - rewrite seq_S, map_app, concat_app. cbn [Nat.add map concat].
    rewrite app_nil_r.
    rewrite (filter_ext (fun x => existsb (g x) (seq 0 n ++ [n]))
                        (fun x => existsb (g x) (seq 0 n) || g x n)).
    + rewrite filter_or_exclusive.
      * now apply Permutation_app_tail.
      * intros x Hx Hn. apply existsb_exists in Hx.
        destruct Hx as (q & Hq & Hgq). apply in_seq in Hq.
        specialize (Hex x q n Hgq Hn). lia.
    + intros x. rewrite existsb_app. simpl. now rewrite orb_false_r.
Qed.

Lemma label_in_range_exists num_bins label :
  existsb (fun q => Z.eqb (Z.of_nat q) label) (seq 0 num_bins)
  = label_in_range num_bins label.
Proof.
  apply Bool.eq_iff_eq_true. rewrite existsb_exists.
  unfold label_in_range. rewrite andb_true_iff, Z.leb_le, Z.ltb_lt. split.
  - intros (q & Hq & E). apply in_seq in Hq. apply Z.eqb_eq in E. lia.
  - intros [H0 H1]. exists (Z.to_nat label). split.
    + apply in_seq. lia.
    + apply Z.eqb_eq. lia.
Qed.

Lemma group_bins_ids te pb num_bins groups :
  group_bins te pb num_bins = Ok groups ->
  map fst groups = map (inner_list pb) (range num_bins).
Proof.
  unfold group_bins. generalize (range num_bins) as js. intros js.
  revert groups. induction js as [|j js IH]; simpl; intros groups H.
  - now inversion H.
  - apply bind_ok in H. destruct H as (g & Hg & H).
    apply bind_ok in H. destruct H as (gs & Hgs & H).
    inversion H; subst. simpl. f_equal; [|now apply IH].
    unfold group_bin in Hg. inv_bind Hg. now inversion Hg.
Qed.

Lemma lookup_error_present (te : dict Q) id_ :
  In id_ (keys te) -> exists e, lookup_error te id_ = Ok e.
Proof.
  unfold lookup_error, keys. induction te as [|[k v] te IH]; simpl; [tauto|].
  intros [->|Hin].
  - rewrite String.eqb_refl. simpl. unfold index. simpl. eauto.
  - destruct (String.eqb k id_); simpl; [unfold index; simpl; eauto|auto].
Qed.

Lemma mapM_ok_all {A B} (f : A -> result B) (xs : list A) :
  (forall x, In x xs -> exists y, f x = Ok y) -> exists ys, mapM f xs = Ok ys.
Proof.
  induction xs as [|x xs IH]; simpl; intros H; [eauto|].
  destruct (H x (or_introl eq_refl)) as (y & ->). simpl.
  destruct IH as (ys & ->); [intros z Hz; apply H; now right|].
  simpl. eauto.
Qed.

(** X8.  The predicted groups of a target split its in-range ids: in
    bin order they hold every id whose label is one of
    [0 .. num_bins-1] exactly once and no other id (an id with any other
    label is in no group); the grouping loop succeeds exactly when every
    such id has an entry in the error map. *)
Theorem predicted_groups_partition
  (fold_errors : err_frame) (fold_bins : bin_frame) (target_idx : Z)
  (key : string) (num_bins : nat) (true_errors_ti : dict Q)
  (pred_bins_ti : dict Z) :
  target_dicts fold_errors fold_bins target_idx key None
  = Ok (true_errors_ti, pred_bins_ti) ->
  (is_ok (group_bins true_errors_ti pred_bins_ti num_bins) = true
   <-> (forall id_ label,
           In (id_, label) pred_bins_ti ->
           label_in_range num_bins label = true ->
           In id_ (keys true_errors_ti)))
  /\ forall groups,
      group_bins true_errors_ti pred_bins_ti num_bins = Ok groups ->
      length groups = num_bins
      /\ Permutation
           (concat (map fst groups))
           (keys (filter (fun kv => label_in_range num_bins (snd kv))
                         pred_bins_ti))
      /\ NoDup (concat (map fst groups)).
Proof.
  intros Hd. destruct (target_dicts_NoDup _ _ _ _ _ _ _ Hd) as [_ Hpb].
  set (te := true_errors_ti) in *. set (pb := pred_bins_ti) in *.
  split.
  - split.
    + intros Hok id_ label Hin Hr.
      destruct (in_dec string_dec id_ (keys te)) as [|Hnot]; [assumption|].
      exfalso. unfold label_in_range in Hr.
      apply andb_true_iff in Hr. destruct Hr as [H0 H1].
      apply Z.leb_le in H0. apply Z.ltb_lt in H1.
      rewrite (group_bins_dangling te pb id_ (Z.to_nat label) num_bins)
        in Hok; [discriminate| |lia|assumption].
      now rewrite Z2Nat.id.
    + intros Hall. unfold group_bins.
      destruct (mapM_ok_all (group_bin te pb) (range num_bins)) as (gs & ->);
        [|reflexivity].
      intros j Hj. unfold range in Hj. apply in_seq in Hj. unfold group_bin.
      destruct (mapM_ok_all (lookup_error te) (inner_list pb j)) as (es & ->);
        [|simpl; eauto].
      intros id_ Hid. apply lookup_error_present.
      apply inner_list_In in Hid. apply (Hall id_ (Z.of_nat j) Hid).
      unfold label_in_range. apply andb_true_iff.
      rewrite Z.leb_le, Z.ltb_lt. lia.
  - intros groups Hg.
    assert (Hperm : Permutation
                      (concat (map fst groups))
                      (keys (filter (fun kv => label_in_range num_bins (snd kv))
                                    pb))).
    { rewrite (group_bins_ids _ _ _ _ Hg). unfold inner_list, range, keys.
      rewrite <- (map_map (fun j => filter (fun kv => Z.eqb (Z.of_nat j) (snd kv))
                                          pb) (map fst)).
      rewrite <- concat_map. apply Permutation_map.
      rewrite (partition_by_index
                 (fun kv q => Z.eqb (Z.of_nat q) (snd kv)) pb num_bins).
      - rewrite (filter_ext _ (fun kv => label_in_range num_bins (snd kv)));
          [reflexivity|]. intros kv. apply label_in_range_exists.
      - intros kv q q' Hq Hq'. apply Z.eqb_eq in Hq, Hq'. lia. }
    split; [|split; [exact Hperm|]].
    + apply mapM_ok_length in Hg. unfold range in Hg.
      now rewrite length_seq in Hg.
    + eapply Permutation_NoDup; [symmetry; exact Hperm|].
      unfold keys. now apply NoDup_keys_filter.
Qed.

Lemma predicted_groups_partition_witness :
  length Fixture.groups3 = 2
  /\ NoDup (concat (map fst Fixture.groups3)).
Proof.
  pose proof (proj2 (predicted_groups_partition Fixture.errors3 Fixture.bins3
                       0%Z Fixture.key 2 (fst Fixture.dicts3)
                       (snd Fixture.dicts3) ltac:(vm_compute; reflexivity))
                Fixture.groups3 ltac:(vm_compute; reflexivity)) as H.
  split; [exact (proj1 H)|exact (proj2 (proj2 H))].
Defined.

(** ** The ground-truth quantile groups, without combined middle bins *)

(** On ascending thresholds the test of group [q] is passed by the
    errors with exactly [q] thresholds below them. *)
Lemma in_group_bin_of ts q kv :
  StronglySorted Qle ts -> ts <> [] -> q <= length ts ->
  in_group ts q kv = Nat.eqb q (bin_of ts (snd kv)).
Proof.
  intros Hsorted Hts Hq.
  assert (Hlen : 0 < length ts) by (destruct ts; simpl; [congruence|lia]).
  pose proof (bin_of_le ts (snd kv)) as Hk.
  pose proof (bin_of_prefix ts (snd kv) Hsorted) as Hpre.
  set (e := snd kv) in *. set (k := bin_of ts e) in *.
  unfold in_group, in_quantile_group. fold e.
  destruct (Nat.eqb_spec q 0) as [->|Hq0].
  - rewrite (index_nth ts 0 0%Q) by lia. cbn [Py.bind].
    pose proof (Hpre 0 ltac:(lia)) as H0.
    apply Bool.eq_iff_eq_true. rewrite Qle_bool_iff, Nat.eqb_eq. split.
    + intros Hle.
      assert (Hn : ~ 0 < k) by (intros C; apply H0 in C; lra). lia.
    + intros <-.
      destruct (Qlt_le_dec (nth 0 ts 0%Q) e) as [C|C];
        [apply H0 in C; lia|exact C].
  - destruct (Nat.ltb_spec q (length ts)) as [Hlt|Hge].
    + rewrite (index_nth ts (q - 1) 0%Q) by lia.
      rewrite (index_nth ts q 0%Q) by lia. cbn [Py.bind].
      pose proof (Hpre (q - 1) ltac:(lia)) as H1.
      pose proof (Hpre q ltac:(lia)) as H2.
      apply Bool.eq_iff_eq_true.
      rewrite andb_true_iff, Qle_bool_iff, Qltb_lt, Nat.eqb_eq. split.
      * intros [Hle Hgt]. apply H1 in Hgt.
        assert (Hn : ~ q < k) by (intros C; apply H2 in C; lra). lia.
      * intros Heq. split.
        -- destruct (Qlt_le_dec (nth q ts 0%Q) e) as [C|C];
             [apply H2 in C; lia|exact C].
        -- apply H1. lia.
    + rewrite (index_nth ts (q - 1) 0%Q) by lia. cbn [Py.bind].
      pose proof (Hpre (q - 1) ltac:(lia)) as H1.
      apply Bool.eq_iff_eq_true. rewrite Qltb_lt, Nat.eqb_eq. split.
      * intros Hgt. apply H1 in Hgt. lia.
      * intros Heq. apply H1. lia.
Qed.

(** The thresholds of a map that is not empty: one quantile per level,
    ascending. *)
Lemma quantile_thresholds_plain (te : dict Q) (n : nat) :
  te <> [] -> 1 <= n ->
  exists ts,
    quantile_thresholds_of te n false = Ok ts
    /\ length ts = n - 1
    /\ StronglySorted Qle ts.
Proof.
  intros Hte Hn.
  set (a := sort (map snd te)).
  assert (Ha : a <> []).
  { apply sort_not_nil. intros H. apply map_eq_nil in H. contradiction. }
  set (f := fun k => (of_nat (S k) / of_nat n)%Q).
  exists (map (quantile_value a) (map f (range (n - 1)))).
  split; [|split].
  - unfold quantile_thresholds_of. fold a.
    replace (quantile_levels n) with (Ok (map f (range (n - 1))))
      by (destruct n; [lia|reflexivity]).
    cbn [Py.bind]. rewrite (mapM_total _ (quantile_value a)); [reflexivity|].
    intros q _. now apply np_quantile_value.
  - unfold range. now rewrite !length_map, length_seq.
  - apply (StronglySorted_map Qle Qle).
    + intros x y. apply quantile_value_le.
    + apply levels_sorted.
Qed.

Lemma nth_error_range_map {B} (g : nat -> B) (n q : nat) (y : B) :
  nth_error (map g (range n)) q = Some y -> q < n /\ y = g q.
Proof.
  intros H.
  assert (Hq : q < n).
  { assert (Hs : nth_error (map g (range n)) q <> None) by congruence.
    apply nth_error_Some in Hs. unfold range in Hs.
    now rewrite length_map, length_seq in Hs. }
  split; [assumption|].
  rewrite nth_error_map in H. unfold range in H.
  rewrite (nth_error_nth' (seq 0 n) 0) in H by (rewrite length_seq; lia).
  rewrite seq_nth in H by lia. simpl in H. congruence.
Qed.

(** X9.  Without [combine_middle_bins], for the error map of a target
    that is not empty and [Q >= 2], the ground-truth partition has [Q]
    groups that together hold every id of the map exactly once, and the
    groups are ordered by error: every error of a group is strictly
    below every error of a later group. *)
Theorem quantile_groups_ordered_partition
  (fold_errors : err_frame) (fold_bins : bin_frame) (target_idx : Z)
  (key : string) (true_errors_ti : dict Q) (pred_bins_ti : dict Z)
  (Q : nat) :
  target_dicts fold_errors fold_bins target_idx key None
  = Ok (true_errors_ti, pred_bins_ti) ->
  true_errors_ti <> [] ->
  2 <= Q ->
  exists gs,
    quantile_groups true_errors_ti Q false = Ok gs
    /\ length gs = Q
    /\ Permutation (concat (map snd gs)) (keys true_errors_ti)
    /\ NoDup (concat (map snd gs))
    /\ forall q q' g g' e e',
        nth_error gs q = Some g -> nth_error gs q' = Some g' -> q < q' ->
        In e (fst g) -> In e' (fst g') -> (e < e')%Q.
Proof.
  intros Hd Hte HQ.
  destruct (target_dicts_NoDup _ _ _ _ _ _ _ Hd) as [Hnd _].
  set (te := true_errors_ti) in *.
  destruct (quantile_thresholds_plain te Q Hte ltac:(lia))
    as (ts & Hts & Hlen & Hsorted).
  assert (Hne : ts <> []) by (destruct ts; simpl in Hlen; [lia|discriminate]).
  set (n := length ts + 1).
  exists (map (group_of ts te) (range n)).
  assert (Hperm : Permutation
                    (concat (map snd (map (group_of ts te) (range n))))
                    (keys te)).
  { rewrite map_map. unfold group_of, keys, range. cbn [snd].
    rewrite <- (map_map (fun q => filter (in_group ts q) te) (map fst)).
    rewrite <- concat_map. apply Permutation_map.
    rewrite (map_ext_in _ (fun q => filter
                                     (fun kv => Nat.eqb q (bin_of ts (snd kv)))
                                     te)).
    - rewrite (partition_by_index
                 (fun kv q => Nat.eqb q (bin_of ts (snd kv))) te n).
      + rewrite (filter_ext _ (fun _ => true)).
        * clear. induction te as [|x l IH]; simpl; [constructor|].
          now constructor.
        * intros kv. apply existsb_exists. exists (bin_of ts (snd kv)).
          split; [|apply Nat.eqb_refl].
          apply in_seq. pose proof (bin_of_le ts (snd kv)). unfold n. lia.
      + intros kv q q' Hq Hq'. apply Nat.eqb_eq in Hq, Hq'. lia.
    - intros q Hq. apply in_seq in Hq. apply filter_ext. intros kv.
      apply in_group_bin_of; [assumption|assumption|unfold n in Hq; lia]. }
  split; [|split; [|split; [exact Hperm|split]]].
  - unfold quantile_groups. rewrite Hts. cbn [Py.bind].
    now apply quantile_groups_of_thresholds.
  - unfold range, n. rewrite length_map, length_seq. lia.
  - eapply Permutation_NoDup; [symmetry; exact Hperm|exact Hnd].
  - intros q q' g g' e e' Hg Hg' Hlt He He'.
    apply nth_error_range_map in Hg, Hg'.
    destruct Hg as [Hq ->]. destruct Hg' as [Hq' ->].
    unfold group_of in He, He'. cbn [fst] in He, He'.
    apply in_map_iff in He, He'.
    destruct He as (kv & <- & Hkv). destruct He' as (kv' & <- & Hkv').
    apply filter_In in Hkv, Hkv'.
    destruct Hkv as [_ Hkv]. destruct Hkv' as [_ Hkv'].
    rewrite in_group_bin_of in Hkv, Hkv'
      by (try assumption; unfold n in *; lia).
    apply Nat.eqb_eq in Hkv, Hkv'.
    pose proof (bin_of_prefix ts (snd kv) Hsorted q
                  ltac:(unfold n in *; lia)) as H1.
    pose proof (bin_of_prefix ts (snd kv') Hsorted q
                  ltac:(unfold n in *; lia)) as H2.
    assert (Hup : (nth q ts 0 < snd kv')%Q) by (apply H2; lia).
    destruct (Qlt_le_dec (nth q ts 0%Q) (snd kv)) as [C|C].
    + apply H1 in C. lia.
    + lra.
Qed.

Lemma quantile_groups_ordered_partition_witness :
  exists gs,
    quantile_groups (fst Fixture.dicts3) 2 false = Ok gs /\ length gs = 2.
Proof.
  destruct (quantile_groups_ordered_partition Fixture.errors3 Fixture.bins3
              0%Z Fixture.key (fst Fixture.dicts3) (snd Fixture.dicts3) 2
              ltac:(vm_compute; reflexivity) ltac:(discriminate) ltac:(lia))
    as (gs & Hgs & Hlen & _).
  exists gs. split; assumption.
Defined.

(** X10.  How the ground-truth grouping fails or how many groups it
    gives: [num_bins_quantiles = 0] raises [ZeroDivisionError];
    [num_bins_quantiles = 1] on a map that is not empty raises
    [IndexError], there being no threshold to read; and whenever the
    grouping returns, it returns three groups with
    [combine_middle_bins] and [num_bins_quantiles] groups without. *)
Theorem quantile_groups_count
  (true_errors_ti : dict Q) (num_bins_quantiles : nat)
  (combine_middle_bins : bool) :
  (num_bins_quantiles = 0 ->
   quantile_groups true_errors_ti num_bins_quantiles combine_middle_bins
   = Raise ZeroDivisionError)
  /\ (num_bins_quantiles = 1 -> true_errors_ti <> [] ->
      quantile_groups true_errors_ti num_bins_quantiles combine_middle_bins
      = Raise IndexError)
  /\ forall gs,
      quantile_groups true_errors_ti num_bins_quantiles combine_middle_bins
      = Ok gs ->
      length gs = if combine_middle_bins then 3 else num_bins_quantiles.
Proof.
  split; [|split].
  - intros ->. reflexivity.
  - intros -> Hte. unfold quantile_groups, quantile_thresholds_of.
    cbn [quantile_levels Nat.sub range seq map mapM Py.bind].
    destruct combine_middle_bins; [reflexivity|].
    cbn [Py.bind length Nat.add range seq mapM].
    destruct true_errors_ti as [|kv te]; [congruence|]. reflexivity.
  - intros gs H. unfold quantile_groups in H.
    apply bind_ok in H. destruct H as (ts & Hts & H).
    apply mapM_ok_length in H. unfold range in H. rewrite length_seq in H.
    rewrite H. clear H. unfold quantile_thresholds_of in Hts.
    apply bind_ok in Hts. destruct Hts as (qs & Hqs & Hts).
    apply bind_ok in Hts. destruct Hts as (ts' & Hts' & Hts).
    apply mapM_ok_length in Hts'.
    destruct combine_middle_bins.
    + apply bind_ok in Hts. destruct Hts as (a & _ & Hts).
      apply bind_ok in Hts. destruct Hts as (b & _ & Hts).
      injection Hts as <-. reflexivity.
    + injection Hts as <-. rewrite Hts'.
      destruct num_bins_quantiles as [|n]; [discriminate|].
      injection Hqs as <-. unfold range.
      rewrite length_map, length_seq. lia.
Qed.

Lemma quantile_groups_count_witness :
  quantile_groups (fst Fixture.dicts3) 1 false = Raise IndexError.
Proof.
  apply (proj1 (proj2 (quantile_groups_count (fst Fixture.dicts3) 1 false)));
    [reflexivity|discriminate].
Defined.

(** ** The order of the steps of a run *)

Lemma stage_nil log full : stage log log false full.
Proof.
  exists []. split; [now rewrite app_nil_r|]. split; [now exists full|].
  discriminate.
Qed.

Lemma stage_done log : stage log log true [].
Proof.
  exists []. split; [now rewrite app_nil_r|]. split; [now exists []|auto].
Qed.

Lemma stage_seq log log1 log2 ok full1 full2 :
  stage log log1 true full1 -> stage log1 log2 ok full2 ->
  stage log log2 ok (full1 ++ full2).
Proof.
  intros (d1 & -> & _ & H1) (d2 & -> & (rest & ->) & H2).
  rewrite (H1 eq_refl). exists (full1 ++ d2).
  split; [now rewrite app_assoc|]. split.
  - exists rest. now rewrite app_assoc.
  - intros Hok. now rewrite (H2 Hok) at 1.
Qed.

Lemma stage_stop log log1 ok full1 full2 :
  stage log log1 ok full1 -> stage log log1 false (full1 ++ full2).
Proof.
  intros (d1 & -> & (rest & ->) & _). exists d1. split; [reflexivity|].
  split; [|discriminate]. exists (rest ++ full2). now rewrite app_assoc.
Qed.

Section Template_order.
Context {Acc FR Res Fin : Type} (h : handler Acc FR Res Fin)
        (self : evaluator).

Lemma process_folds_from_stage data_structs uncertainty_type kw folds :
  forall acc log,
    stage log
          (fst (process_folds_from h self data_structs uncertainty_type kw
                                   folds acc log))
          (is_ok (snd (process_folds_from h self data_structs
                                          uncertainty_type kw folds acc log)))
          (flat_map (fold_events (kw_model kw) uncertainty_type) folds).
Proof.
  induction folds as [|fold folds IH]; intros acc log;
    cbn [process_folds_from flat_map].
  - apply stage_done.
  - destruct (extract h data_structs fold uncertainty_type) as [fd|e];
      [|apply stage_nil].
    destruct (process_single_fold h self fd uncertainty_type kw) as [fr|e].
    + assert (Hfold : stage log
                        ((log ++ [Extracted (kw_model kw) uncertainty_type fold])
                           ++ [Scored (kw_model kw) uncertainty_type fold])
                        true
                        (fold_events (kw_model kw) uncertainty_type fold)).
      { exists (fold_events (kw_model kw) uncertainty_type fold).
        split; [now rewrite <- app_assoc|]. split; [now exists []|auto]. }
      destruct (accumulate_fold_result h self acc fr) as [acc'|e].
      * eapply stage_seq; [exact Hfold|apply IH].
      * cbn [fst snd is_ok]. eapply stage_stop. exact Hfold.
    + cbn [fst snd is_ok].
      exists [Extracted (kw_model kw) uncertainty_type fold].
      split; [reflexivity|]. split; [|discriminate].
      eexists. unfold fold_events. cbn [app]. reflexivity.
Qed.

Lemma evaluate_pairs_stage data_structs kw pairs :
  forall model r log,
    stage log
          (fst (evaluate_pairs h self model data_structs kw pairs r log))
          (is_ok (snd (evaluate_pairs h self model data_structs kw pairs r
                                      log)))
          (flat_map (fun uncertainty_type =>
                       flat_map (fold_events (kw_model kw) uncertainty_type)
                                (range (num_folds self)))
                    (pair_types pairs)).
Proof.
  induction pairs as [|pair pairs IH]; intros model r log;
    cbn [evaluate_pairs pair_types map flat_map].
  - apply stage_done.
  - destruct (index pair 0) as [uncertainty_type|e] eqn:Hi;
      [|apply stage_nil].
    assert (Hhd : hd EmptyString pair = uncertainty_type).
    { destruct pair; unfold index in Hi; simpl in *; congruence. }
    rewrite Hhd.
    pose proof (process_folds_from_stage
                  data_structs uncertainty_type kw (range (num_folds self))
                  (initialize_fold_accumulator h self) log) as Hpf.
    fold (process_folds h self data_structs uncertainty_type kw log) in Hpf.
    destruct (process_folds h self data_structs uncertainty_type kw log)
      as [log1 [acc|e]]; cbn [fst snd is_ok] in Hpf.
    + destruct (aggregate_results h r model uncertainty_type acc) as [r'|e].
      * eapply stage_seq; [exact Hpf|apply IH].
      * cbn [fst snd is_ok]. eapply stage_stop. exact Hpf.
    + cbn [fst snd is_ok]. eapply stage_stop. exact Hpf.
Qed.

Lemma evaluate_models_stage pairs kw bin_predictions :
  forall r log,
    stage log
          (fst (evaluate_models h self bin_predictions pairs kw r log))
          (is_ok (snd (evaluate_models h self bin_predictions pairs kw r log)))
          (schedule (keys bin_predictions) (pair_types pairs)
                    (num_folds self)).
Proof.
  unfold schedule.
  induction bin_predictions as [|[model data_structs] rest IH]; intros r log;
    cbn [evaluate_models keys map fst flat_map].
  - apply stage_done.
  - match goal with
    | |- context [evaluate_pairs ?a ?b ?c ?d ?k ?f ?g ?i] =>
        pose proof (evaluate_pairs_stage d k f c g i) as Hp;
        destruct (evaluate_pairs a b c d k f g i) as [log1 [r1|err]]
    end; cbn [fst snd is_ok kw_model] in Hp.
    + eapply stage_seq; [exact Hp|apply IH].
    + cbn [fst snd is_ok]. eapply stage_stop. exact Hp.
Qed.

(** X11.  The order in which [evaluate] works, for every evaluator built
    on the template: models in the order of [bin_predictions], for each
    model the first entry of every uncertainty pair in order, for each
    of these the folds [0 .. num_folds-1], each fold extracted and then
    scored.  A run that returns has made exactly these steps; a run
    that raises has made an initial segment of them. *)
Theorem evaluate_follows_schedule
  (bin_predictions : dict data_frame) (uncertainty_pairs : list (list string))
  (kw : kwargs) :
  prefix (fst (evaluate h self bin_predictions uncertainty_pairs kw))
         (schedule (keys bin_predictions) (pair_types uncertainty_pairs)
                   (num_folds self))
  /\ (is_ok (snd (evaluate h self bin_predictions uncertainty_pairs kw))
      = true ->
      fst (evaluate h self bin_predictions uncertainty_pairs kw)
      = schedule (keys bin_predictions) (pair_types uncertainty_pairs)
                 (num_folds self)).
Proof.
  pose proof (evaluate_models_stage uncertainty_pairs kw bin_predictions
                                    (initialize_results h self) []) as Hm.
  unfold evaluate.
  destruct (evaluate_models h self bin_predictions uncertainty_pairs kw
                            (initialize_results h self) [])
    as [log [r|e]]; cbn [fst snd is_ok] in *;
    destruct Hm as (done & -> & Hpre & Hfull); cbn [app]; split; auto.
Qed.

End Template_order.

Lemma evaluate_follows_schedule_witness :
  fst (evaluate_bounds (Some Fixture.bounds3) [("m"%string, Fixture.table3)]
                       [[Fixture.key]] 5 [0%Z] 1 true)
  = schedule ["m"%string] [Fixture.key] 1.
Proof.
  apply (proj2 (evaluate_follows_schedule
                  BoundEvaluationHandler.methods
                  (BaseUncertaintyEvaluator 5 [0%Z] 1 true)
                  [("m"%string, Fixture.table3)] [[Fixture.key]]
                  {| kw_model := "";
                     kw_estimated_bounds := Some Fixture.bounds3;
                     kw_error_scaling_factor := None |})).
  vm_compute. reflexivity.
Defined.

(** ** One value per fold in the aggregated bound accuracies *)

Section Template_counting.
Context {Acc FR Res Fin : Type} (h : handler Acc FR Res Fin)
        (self : evaluator).
Variable IF : FR -> Prop.
Variable IA : nat -> Acc -> Prop.
Variable IR : Res -> Prop.
Hypothesis IF_fold :
  forall fd uncertainty_type kw fr,
    process_single_fold h self fd uncertainty_type kw = Ok fr -> IF fr.
Hypothesis IA_init : IA 0 (initialize_fold_accumulator h self).
Hypothesis IA_step :
  forall k acc fr acc',
    IA k acc -> IF fr -> accumulate_fold_result h self acc fr = Ok acc' ->
    IA (S k) acc'.
Hypothesis IR_init : IR (initialize_results h self).
Hypothesis IR_step :
  forall r model uncertainty_type acc r',
    IR r -> IA (num_folds self) acc ->
    aggregate_results h r model uncertainty_type acc = Ok r' -> IR r'.

Lemma process_folds_from_count data_structs uncertainty_type kw folds :
  forall k acc log log' acc',
    IA k acc ->
    process_folds_from h self data_structs uncertainty_type kw folds acc log
    = (log', Ok acc') ->
    IA (k + length folds) acc'.
Proof.
  induction folds as [|fold folds IH]; simpl; intros k acc log log' acc' Ha H.
  - inversion H; subst. now rewrite Nat.add_0_r.
  - destruct (extract h data_structs fold uncertainty_type); [|discriminate].
    destruct (process_single_fold h self a uncertainty_type kw) eqn:Hfr;
      [|discriminate].
    destruct (accumulate_fold_result h self acc a0) eqn:Hacc; [|discriminate].
    rewrite <- Nat.add_succ_comm. eapply IH; [|exact H].
    eapply IA_step; eauto.
Qed.

Lemma evaluate_pairs_count model data_structs kw pairs :
  forall r log log' r',
    IR r ->
    evaluate_pairs h self model data_structs kw pairs r log = (log', Ok r') ->
    IR r'.
Proof.
  induction pairs as [|pair pairs IH]; simpl; intros r log log' r' Hr H.
  - inversion H; subst; assumption.
  - destruct (index pair 0) as [uncertainty_type|]; [|discriminate].
    destruct (process_folds h self data_structs uncertainty_type kw log)
      as [log1 [acc|]] eqn:Hpf; [|discriminate].
    destruct (aggregate_results h r model uncertainty_type acc) eqn:Hagg;
      [|discriminate].
    eapply IH; [|exact H]. eapply IR_step; [exact Hr| |exact Hagg].
    unfold process_folds in Hpf.
    apply (process_folds_from_count _ _ _ _ 0) in Hpf; [|exact IA_init].
    unfold range in Hpf. now rewrite length_seq in Hpf.
Qed.

Lemma evaluate_models_count pairs kw bin_predictions :
  forall r log log' r',
    IR r ->
    evaluate_models h self bin_predictions pairs kw r log = (log', Ok r') ->
    IR r'.
Proof.
  induction bin_predictions as [|[model data_structs] rest IH]; simpl;
    intros r log log' r' Hr H.
  - inversion H; subst; assumption.
  - match type of H with
    | context [evaluate_pairs ?a ?b ?c ?d ?k ?f ?g ?i] =>
        destruct (evaluate_pairs a b c d k f g i) as [log1 [r1|]] eqn:Hp;
          [|discriminate]
    end.
    eapply IH; [|exact H]. eapply evaluate_pairs_count; eauto.
Qed.

Lemma evaluate_count bin_predictions pairs kw log fin :
  evaluate h self bin_predictions pairs kw = (log, Ok fin) ->
  exists r, IR r /\ fin = finalize_results h r.
Proof.
  unfold evaluate. intros H.
  destruct (evaluate_models h self bin_predictions pairs kw
                            (initialize_results h self) [])
    as [log1 [r|]] eqn:Hm; [|discriminate].
  inversion H; subst. exists r. split; [|reflexivity].
  eapply evaluate_models_count; [exact IR_init|exact Hm].
Qed.

End Template_counting.

Lemma extend_at_Forall {A} (P : A -> Prop) (l : list (list A)) i xs l' :
  Forall (Forall P) l -> Forall P xs -> extend_at l i xs = Ok l' ->
  Forall (Forall P) l'.
Proof.
  unfold extend_at. intros Hl Hx H. inv_bind H.
  eapply set_index_Forall; [exact Hl| |exact H].
  apply Forall_app. split; [|assumption].
  eapply (index_Forall (Forall P)); eauto.
Qed.

Lemma rows_of_nth {A} (n k : nat) (l : list (list A)) :
  length l = n ->
  (rows_of k l <-> forall j, j < n -> length (nth j l []) = k).
Proof.
  intros Hl. unfold rows_of. rewrite Forall_nth. subst n. split.
  - intros H j Hj. now apply H.
  - intros H j d Hj. rewrite (nth_indep _ d []) by assumption. now apply H.
Qed.

Lemma dict_set_Forall {V} (P : V -> Prop) (d : dict V) k v :
  Forall (fun kv => P (snd kv)) d -> P v ->
  Forall (fun kv => P (snd kv)) (dict_set d k v).
Proof.
  intros Hd Hv. induction Hd as [|[k' v'] d Hkv Hd IH]; simpl.
  - constructor; [assumption|constructor].
  - destruct (String.eqb k k'); constructor; auto.
Qed.

Lemma fraction_table_rev n k l :
  fraction_table n k l -> fraction_table n k (rev l).
Proof.
  intros (H1 & H2 & H3). unfold fraction_table, rows_of in *.
  rewrite length_rev. split; [assumption|]. split; now apply Forall_rev.
Qed.

Lemma fraction_table_empties n : fraction_table n 0 (empties n).
Proof.
  unfold fraction_table, rows_of, empties. rewrite repeat_length.
  split; [reflexivity|].
  split; apply Forall_forall; intros row H; apply repeat_spec in H; subst;
    [reflexivity|constructor].
Qed.

Lemma bound_fold_result_ok self fd uncertainty_type kw fr :
  BoundEvaluationHandler._process_single_fold self fd uncertainty_type kw
  = Ok fr ->
  bound_fold_ok (num_bins self) (length (targets self)) fr.
Proof.
  unfold BoundEvaluationHandler._process_single_fold. intros H.
  destruct (falsy_dict (kw_estimated_bounds kw) || falsy_str (kw_model kw));
    [discriminate|].
  inv_bind H. unfold bin_wise_bound_eval in H.
  apply bind_ok in H. destruct H as (st & Hloop & H).
  inversion H; subst fr; clear H.
  destruct (bound_targets_loop_shape _ _ _ _ _ _ _ Hloop)
    as (_ & S2 & S3 & S4 & _).
  destruct (bound_targets_loop_fractions _ _ _ _ _ _ _ Hloop) as (_ & F2 & _).
  unfold bound_fold_ok, fraction_table.
  cbn [bnd_mean_all_bins bnd_mean_all].
  split; [rewrite length_map, length_combine; lia|]. split.
  - apply Forall_map. apply Forall_forall. intros [accs sizes] Hin.
    simpl. apply weighted_ave_bin_fraction.
    apply in_combine_l in Hin. rewrite Forall_forall in F2. auto.
  - split; [assumption|]. split; [|assumption].
    apply (proj2 (rows_of_nth (num_bins self) _ _ S2)). intros j Hj.
    now rewrite (S3 j Hj).
Qed.

Lemma bound_accumulate_target_keeps fr idx_bin acc t acc' :
  BoundEvaluationHandler.accumulate_target fr idx_bin acc t = Ok acc' ->
  BoundEvaluationHandler.fold_learned_bounds_mean_bins acc'
  = BoundEvaluationHandler.fold_learned_bounds_mean_bins acc
  /\ BoundEvaluationHandler.fold_learned_bounds_bins_targetsnotsep acc'
     = BoundEvaluationHandler.fold_learned_bounds_bins_targetsnotsep acc.
Proof.
  unfold BoundEvaluationHandler.accumulate_target. intros H. inv_bind H.
  inversion H; subst. simpl. auto.
Qed.

Lemma bound_accumulate_bin_count self n n_targets k q fr acc acc' :
  bound_fold_ok n n_targets fr -> q < n ->
  bound_acc_partial n n_targets k q acc ->
  BoundEvaluationHandler.accumulate_bin self fr acc q = Ok acc' ->
  bound_acc_partial n n_targets k (S q) acc'.
Proof.
  intros (L1 & F1 & L2 & R2 & F2) Hq (A1 & A2 & A3 & A4 & A5 & A6) H.
  unfold BoundEvaluationHandler.accumulate_bin in H. inv_bind H.
  assert (Hkeep :
            BoundEvaluationHandler.fold_learned_bounds_mean_bins acc' = a0
            /\ BoundEvaluationHandler.fold_learned_bounds_bins_targetsnotsep
                 acc' = a2).
  { eapply (foldM_inv
              (fun s =>
                 BoundEvaluationHandler.fold_learned_bounds_mean_bins s = a0
                 /\ BoundEvaluationHandler.fold_learned_bounds_bins_targetsnotsep
                      s = a2)); [| |exact H].
    - intros s t s' [E1 E2] Hs.
      apply bound_accumulate_target_keeps in Hs. destruct Hs as [-> ->]. auto.
    - simpl. auto. }
  destruct Hkeep as [Emb Ens].
  unfold bound_acc_partial. cbn zeta. rewrite Emb, Ens.
  destruct (append_at_nth _ _ _ _ Ha0) as (_ & Hl0 & Hn0).
  destruct (extend_at_nth _ _ _ _ Ha2) as (_ & Hl2 & Hn2).
  pose proof (index_Forall fraction _ _ _ F1 Ha) as Hv.
  pose proof (index_Forall (Forall fraction) _ _ _ F2 Ha1) as Hma.
  pose proof (index_Forall (fun row => length row = n_targets) _ _ _ R2 Ha1)
    as Hlen. cbn beta in Hlen.
  split; [lia|]. split; [lia|]. split; [|split; [|split]].
  - intros j Hj. rewrite Hn0.
    destruct (Nat.eqb_spec j q) as [->|Hne].
    + rewrite length_app, (A3 q Hq). rewrite Nat.ltb_irrefl.
      replace (Nat.ltb q (S q)) with true
        by (symmetry; apply Nat.ltb_lt; lia).
      simpl. lia.
    + rewrite (A3 j Hj).
      destruct (Nat.ltb_spec j q); destruct (Nat.ltb_spec j (S q)); lia.
  - intros j Hj. rewrite Hn2.
    destruct (Nat.eqb_spec j q) as [->|Hne].
    + rewrite length_app, (A4 q Hq), Hlen. rewrite Nat.ltb_irrefl.
      replace (Nat.ltb q (S q)) with true
        by (symmetry; apply Nat.ltb_lt; lia).
      simpl. lia.
    + rewrite (A4 j Hj).
      destruct (Nat.ltb_spec j q); destruct (Nat.ltb_spec j (S q)); lia.
  - exact (append_at_Forall fraction _ _ _ _ A5 Hv Ha0).
  - exact (extend_at_Forall fraction _ _ _ _ A6 Hma Ha2).
Qed.

Lemma bound_accumulate_count self n n_targets k acc fr acc' :
  bound_acc_count n n_targets k acc -> bound_fold_ok n n_targets fr ->
  BoundEvaluationHandler._accumulate_fold_result self acc fr = Ok acc' ->
  bound_acc_count n n_targets (S k) acc'.
Proof.
  intros ((A1 & A2 & A3) & (B1 & B2 & B3)) Hfr H.
  unfold BoundEvaluationHandler._accumulate_fold_result in H.
  pose proof Hfr as (L1 & _).
  unfold range in H. rewrite L1 in H.
  apply (foldM_seq_inv (bound_acc_partial n n_targets k)) in H.
  - destruct H as (P1 & P2 & P3 & P4 & P5 & P6). cbn [Nat.add] in *.
    unfold bound_acc_count, fraction_table.
    repeat split; try assumption.
    + apply (proj2 (rows_of_nth n _ _ P1)). intros j Hj. rewrite (P3 j Hj).
      replace (Nat.ltb j n) with true by (symmetry; apply Nat.ltb_lt; lia).
      reflexivity.
    + apply (proj2 (rows_of_nth n _ _ P2)). intros j Hj. rewrite (P4 j Hj).
      replace (Nat.ltb j n) with true by (symmetry; apply Nat.ltb_lt; lia).
      reflexivity.
  - unfold bound_acc_partial. cbn.
    pose proof (proj1 (rows_of_nth n _ _ A1) A2) as A2'.
    pose proof (proj1 (rows_of_nth n _ _ B1) B2) as B2'.
    repeat split; auto.
  - intros q s1 s2 Hq Hs1 Hs2.
    eapply bound_accumulate_bin_count; eauto. lia.
Qed.

Lemma bound_aggregate_target_keeps key acc r t r' :
  BoundEvaluationHandler.aggregate_target key acc r t = Ok r' ->
  BoundEvaluationHandler.all_bound_percents r'
  = BoundEvaluationHandler.all_bound_percents r
  /\ BoundEvaluationHandler.all_bound_percents_notargetsep r'
     = BoundEvaluationHandler.all_bound_percents_notargetsep r.
Proof.
  unfold BoundEvaluationHandler.aggregate_target. intros H. inv_bind H.
  inversion H; subst. simpl. auto.
Qed.

Lemma bound_aggregate_count n n_targets n_folds r model uncertainty_type
  acc r' :
  bound_results_count n n_targets n_folds r ->
  bound_acc_count n n_targets n_folds acc ->
  BoundEvaluationHandler._aggregate_results r model uncertainty_type acc
  = Ok r' ->
  bound_results_count n n_targets n_folds r'.
Proof.
  intros [R1 R2] [A1 A2] H.
  unfold BoundEvaluationHandler._aggregate_results in H.
  eapply (foldM_inv (bound_results_count n n_targets n_folds)); [| |exact H].
  - intros s t s' Hs Hstep. apply bound_aggregate_target_keeps in Hstep.
    destruct Hstep as [E1 E2]. unfold bound_results_count.
    now rewrite E1, E2.
  - unfold bound_results_count. simpl. split.
    + apply (dict_set_Forall (fraction_table n n_folds)); [assumption|].
      now apply fraction_table_rev.
    + apply (dict_set_Forall (fraction_table n (n_folds * n_targets)));
        [assumption|]. now apply fraction_table_rev.
Qed.

(** X12.  In what [evaluate_bounds] returns, every entry of
    ["Error Bounds All"] holds one list per bin (three with
    [combine_middle_bins]) with exactly one value per fold, and every
    entry of ["all_bound_percents_notargetsep"] one list per bin with
    one value per fold and target; all these values are fractions. *)
Theorem evaluate_bounds_one_value_per_fold
  (estimated_bounds : option (dict bounds_frame))
  (bin_predictions : dict data_frame) (uncertainty_pairs : list (list string))
  (num_bins_arg : nat) (targets_arg : list Z) (num_folds_arg : nat)
  (combine : bool) (log : list event) (fin : BoundEvaluationHandler.final) :
  evaluate_bounds estimated_bounds bin_predictions uncertainty_pairs
                  num_bins_arg targets_arg num_folds_arg combine
  = (log, Ok fin) ->
  Forall (fun kv => fraction_table (if combine then 3 else num_bins_arg)
                                   num_folds_arg (snd kv))
         (BoundEvaluationHandler.Error_Bounds_All fin)
  /\ Forall (fun kv => fraction_table (if combine then 3 else num_bins_arg)
                                      (num_folds_arg * length targets_arg)
                                      (snd kv))
            (BoundEvaluationHandler.final_all_bound_percents_notargetsep fin).
Proof.
  unfold evaluate_bounds. intros H.
  set (self := BaseUncertaintyEvaluator num_bins_arg targets_arg num_folds_arg
                                        combine) in *.
  set (n := if combine then 3 else num_bins_arg).
  apply (evaluate_count
           BoundEvaluationHandler.methods self
           (bound_fold_ok n (length targets_arg))
           (bound_acc_count n (length targets_arg))
           (bound_results_count n (length targets_arg) num_folds_arg)) in H.
  - destruct H as (r & [R1 R2] & ->). simpl. auto.
  - intros fd ut kw fr Hfr.
    apply (bound_fold_result_ok self fd ut kw fr Hfr).
  - split; simpl; apply fraction_table_empties.
  - intros k acc fr acc' Ha Hf Hacc.
    eapply bound_accumulate_count; eauto.
  - split; constructor.
  - intros r model ut acc r' Hr Ha Hagg.
    eapply bound_aggregate_count; eauto.
Qed.

Lemma evaluate_bounds_one_value_per_fold_witness :
  exists log fin,
    evaluate_bounds (Some Fixture.bounds3) [("m"%string, Fixture.table3)]
                    [[Fixture.key]] 5 [0%Z] 1 true = (log, Ok fin)
    /\ Forall (fun kv => fraction_table 3 1 (snd kv))
              (BoundEvaluationHandler.Error_Bounds_All fin).
Proof.
  eexists. eexists. split.
  - vm_compute. reflexivity.
  - apply (proj1 (evaluate_bounds_one_value_per_fold
                    (Some Fixture.bounds3) [("m"%string, Fixture.table3)]
                    [[Fixture.key]] 5 [0%Z] 1 true
                    [Extracted "m" Fixture.key 0; Scored "m" Fixture.key 0]
                    _ ltac:(vm_compute; reflexivity))).
Defined.

(** ** ErrorEvaluationHandler: every aggregated output is reversed *)







(** ** Folds cut from one table have no dangling id *)

Lemma dict_get_Forall {V} (P : V -> Prop) (d : dict V) k v :
  Forall (fun kv => P (snd kv)) d -> dict_get d k = Ok v -> P v.
Proof.
  induction 1 as [|[k' v'] d Hkv Hd IH]; simpl; [discriminate|].
  destruct (String.eqb k k'); [|assumption].
  intros E. inversion E; subst. exact Hkv.
Qed.

Lemma rows3_aligned (uid : list string) (tgt : list Z) (ecol : list Q)
  (bcol : list Z) :
  length ecol = length bcol ->
  Forall2 aligned (rows3 Build_err_row uid tgt ecol)
          (rows3 Build_bin_row uid tgt bcol).
Proof.
  unfold rows3. generalize (combine uid tgt) as l. intros l. revert ecol bcol.
  induction l as [|x l IH]; intros [|e ecol] [|b bcol] H; simpl in *;
    try discriminate; constructor.
  - split; reflexivity.
  - apply IH. lia.
Qed.

Lemma select_Forall2 {A B} (R : A -> B -> Prop) (l1 : list A) (l2 : list B) :
  Forall2 R l1 l2 ->
  forall mask, Forall2 R (select mask l1) (select mask l2).
Proof.
  unfold select. induction 1 as [|x y l1 l2 Hxy Hl IH]; intros [|m mask];
    simpl; try constructor.
  destruct m; simpl; [constructor; [assumption|]|]; apply IH.
Qed.

Lemma aligned_uids (l1 : list err_row) (l2 : list bin_row) :
  Forall2 aligned l1 l2 -> map e_uid l1 = map b_uid l2.
Proof.
  induction 1 as [|x y l1 l2 [Hu _] Hl IH]; simpl; [reflexivity|].
  now rewrite Hu, IH.
Qed.

Lemma group_bins_same_keys (te : dict Q) (pb : dict Z) num_bins :
  keys te = keys pb -> exists groups, group_bins te pb num_bins = Ok groups.
Proof.
  intros Hk. unfold group_bins. apply mapM_ok_all. intros j _.
  unfold group_bin.
  destruct (mapM_ok_all (lookup_error te) (inner_list pb j)) as (es & ->);
    [|simpl; eauto].
  intros id_ Hid. apply lookup_error_present. rewrite Hk.
  apply inner_list_In in Hid. unfold keys.
  change id_ with (fst (id_, Z.of_nat j)). now apply in_map.
Qed.

(** X14.  The errors and the bins of a fold that [extract_fold_data]
    cuts from one table describe the same samples: for every target
    and scaling the two dictionaries of the scorers are built and have
    the same ids in the same order, so the grouping loop finds an
    error for every id it looks up and returns, whatever the number of
    bins. *)
Theorem extracted_fold_has_no_dangling_id
  (data_structs : data_frame) (fold : nat) (uncertainty_type : string)
  (fd : fold_data) (target_idx : Z) (scale : option Q) (num_bins : nat) :
  well_formed data_structs ->
  extract_fold_data data_structs fold uncertainty_type = Ok fd ->
  exists true_errors_ti pred_bins_ti groups,
    target_dicts (fd_errors fd) (fd_bins fd) target_idx uncertainty_type scale
    = Ok (true_errors_ti, pred_bins_ti)
    /\ keys true_errors_ti = keys pred_bins_ti
    /\ group_bins true_errors_ti pred_bins_ti num_bins = Ok groups.
Proof.
  intros (_ & _ & We & Wb) H. unfold extract_fold_data in H. inv_bind H.
  inversion H; subst fd; clear H.
  pose proof (dict_get_Forall
                (fun col => length col = length (df_uid data_structs))
                _ _ _ We Ha) as Le.
  pose proof (dict_get_Forall
                (fun col => length col = length (df_uid data_structs))
                _ _ _ Wb Ha0) as Lb.
  cbn beta in Le, Lb.
  unfold target_dicts, true_errors_rows, pred_bins_rows.
  cbn [fd_errors fd_bins ef_type bf_type ef_rows bf_rows].
  rewrite String.eqb_refl. cbn [Py.bind].
  match goal with
  | |- context [dict_zip (map e_uid ?te) _] => set (rows_e := te)
  end.
  match goal with
  | |- context [dict_zip (map b_uid ?pb) _] => set (rows_b := pb)
  end.
  assert (Hal : Forall2 aligned rows_e rows_b).
  { unfold rows_e, rows_b. apply select_Forall2. apply select_Forall2.
    apply rows3_aligned. congruence. }
  assert (Hkeys : keys (dict_zip (map e_uid rows_e)
                                 match scale with
                                 | Some s => map (fun r => (e_error r * s)%Q)
                                                 rows_e
                                 | None => map e_error rows_e
                                 end)
                  = keys (dict_zip (map b_uid rows_b) (map b_bin rows_b))).
  { rewrite (aligned_uids _ _ Hal). apply keys_dict_zip_values.
    pose proof (Forall2_length Hal) as Hlen.
    destruct scale; now rewrite !length_map. }
  destruct (group_bins_same_keys _ _ num_bins Hkeys) as (groups & Hg).
  eexists. eexists. exists groups. split; [reflexivity|]. split; assumption.
Qed.

Lemma extracted_fold_has_no_dangling_id_witness :
  exists true_errors_ti pred_bins_ti groups,
    target_dicts Fixture.errors3 Fixture.bins3 0%Z Fixture.key None
    = Ok (true_errors_ti, pred_bins_ti)
    /\ keys true_errors_ti = keys pred_bins_ti
    /\ group_bins true_errors_ti pred_bins_ti 2 = Ok groups.
Proof.
  apply (extracted_fold_has_no_dangling_id
           Fixture.table3 0 Fixture.key
           {| fd_errors := Fixture.errors3; fd_bins := Fixture.bins3;
              fd_filter := [true; true; true]; fd_fold_num := None |}
           0%Z None 2).
  - vm_compute. repeat split; repeat constructor.
  - vm_compute. reflexivity.
Defined.

(** ** bin_wise_errors as a function of the grouped errors *)

Lemma foldM_seq_total {S} (P : nat -> S -> Prop) (f : S -> nat -> result S)
  (len : nat) :
  forall start s,
    P start s ->
    (forall q s1, start <= q < start + len -> P q s1 ->
                  exists s2, f s1 q = Ok s2 /\ P (Datatypes.S q) s2) ->
    exists s', foldM f (seq start len) s = Ok s' /\ P (start + len) s'.
Proof.
  induction len as [|len IH]; simpl; intros start s Hs Hstep.
  - exists s. rewrite Nat.add_0_r. auto.
  - destruct (Hstep start s ltac:(lia) Hs) as (s1 & -> & Hs1). simpl.
    rewrite <- Nat.add_succ_comm. apply IH; [assumption|].
    intros q s2 Hq. apply Hstep. lia.
Qed.

Lemma firstn_S_nth {A} (l : list A) (q : nat) (d : A) :
  q < length l -> firstn (S q) l = firstn q l ++ [nth q l d].
Proof.
  revert q; induction l as [|x l IH]; intros [|q] H; simpl in *; try lia.
  - reflexivity.
  - f_equal. apply IH. lia.
Qed.

Lemma nth_map_seq {B} (f : nat -> B) (n b : nat) (d : B) :
  b < n -> nth b (map f (seq 0 n)) d = f b.
Proof.
  intros H. rewrite (nth_indep _ d (f 0)) by (now rewrite length_map, length_seq).
  now rewrite map_nth, seq_nth.
Qed.

Lemma nth_map_nil {A B} (f : list A -> list B) (l : list (list A)) (t : nat) :
  f [] = [] -> nth t (map f l) [] = f (nth t l []).
Proof.
  intros E. transitivity (nth t (map f l) (f [])); [now rewrite E|].
  apply map_nth.
Qed.

Ltac nat_bool :=
  repeat match goal with
         | |- context [Nat.ltb ?a ?b] => destruct (Nat.ltb_spec a b)
         | |- context [Nat.eqb ?a ?b] => destruct (Nat.eqb_spec a b)
         end;
  cbn [andb orb]; subst; try lia; try reflexivity.

Lemma error_bin_step_progress n_targets n done row q st inner :
  length done < n_targets -> q < n -> length row = n ->
  error_progress n_targets n done row q st ->
  inner = flat_map cell_means (firstn q row) ->
  exists st' inner',
    error_bin_step (length done) row (st, inner) q = Ok (st', inner')
    /\ error_progress n_targets n done row (S q) st'
    /\ inner' = flat_map cell_means (firstn (S q) row).
Proof.
  intros Hk Hq Hrow (P1 & P2 & P3 & P4 & P5 & P6) Hin.
  unfold error_bin_step. rewrite (index_nth row q []) by lia. cbn [Py.bind].
  rewrite (firstn_S_nth row q []) by lia. rewrite flat_map_app.
  cbn [flat_map]. rewrite app_nil_r.
  destruct (nth q row []) as [|e es] eqn:E.
  - exists st, inner. split; [reflexivity|]. split.
    + unfold error_progress.
      split; [assumption|]. split; [assumption|]. split; [|split; [|split]];
        try assumption.
      * intros b Hb. rewrite (P3 b Hb).
        destruct (Nat.eq_dec b q) as [->|Hne].
        -- rewrite E. nat_bool.
        -- nat_bool.
      * intros t b Ht Hb. rewrite (P6 t b Ht Hb).
        destruct (Nat.eq_dec b q) as [->|Hne].
        -- rewrite E. nat_bool.
        -- nat_bool.
    + cbn. now rewrite app_nil_r.
  - destruct (append_at_total (all_qs_error st) q (mean (e :: es))
                ltac:(lia)) as (qs & Hqs).
    destruct (append_at2_total (all_qs_error_concat_targets_sep st)
                (length done) q (e :: es) ltac:(lia)
                ltac:(rewrite P5; lia)) as (sep & Hsep).
    rewrite Hqs. cbn [Py.bind]. rewrite Hsep. cbn [Py.bind].
    eexists. eexists. split; [reflexivity|].
    destruct (append_at_nth _ _ _ _ Hqs) as (_ & Q1 & Q2).
    destruct (append_at2_nth _ _ _ _ _ Hsep) as (_ & _ & E1 & E2 & E3).
    split; [|rewrite Hin; reflexivity].
    unfold error_progress.
    cbn [all_target_error all_qs_error all_qs_error_concat_targets_sep].
    split; [assumption|]. split; [lia|]. split; [|split; [lia|split]].
    + intros b Hb. rewrite Q2.
      destruct (Nat.eqb_spec b q) as [->|Hne].
      * rewrite (P3 q Hq), E, Nat.ltb_irrefl, app_nil_r.
        replace (Nat.ltb q (S q)) with true
          by (symmetry; apply Nat.ltb_lt; lia).
        reflexivity.
      * rewrite (P3 b Hb). nat_bool.
    + intros t Ht. rewrite E2. now apply P5.
    + intros t b Ht Hb. rewrite E3.
      destruct (Nat.eqb_spec t (length done)) as [->|Hne]; cbn [andb].
      * destruct (Nat.eqb_spec b q) as [->|Hne].
        -- rewrite (P6 (length done) q Hk Hq), E.
           rewrite Nat.ltb_irrefl, Nat.eqb_refl. cbn [andb].
           rewrite Nat.ltb_irrefl.
           replace (Nat.ltb q (S q)) with true
             by (symmetry; apply Nat.ltb_lt; lia).
           reflexivity.
        -- rewrite (P6 (length done) b Hk Hb).
           rewrite Nat.ltb_irrefl, Nat.eqb_refl. cbn [andb]. nat_bool.
      * rewrite (P6 t b Ht Hb). nat_bool.
Qed.

Lemma error_progress_next n_targets n done row st :
  length row = n ->
  error_progress n_targets n done row n st ->
  forall row',
    error_progress n_targets n (done ++ [row]) row' 0
      {| all_target_error :=
           all_target_error st ++ [np_mean (flat_map cell_means row)];
         all_qs_error := all_qs_error st;
         all_qs_error_concat_targets_sep :=
           all_qs_error_concat_targets_sep st |}.
Proof.
  intros Hrow (P1 & P2 & P3 & P4 & P5 & P6) row'.
  unfold error_progress.
  cbn [all_target_error all_qs_error all_qs_error_concat_targets_sep].
  split; [|split; [assumption|split; [|split; [assumption|split]]]].
  - rewrite map_app, P1. reflexivity.
  - intros b Hb. rewrite (P3 b Hb), flat_map_app. cbn [flat_map].
    replace (Nat.ltb b n) with true by (symmetry; apply Nat.ltb_lt; lia).
    cbn [Nat.ltb Nat.leb]. now rewrite !app_nil_r.
  - assumption.
  - intros t b Ht Hb. rewrite (P6 t b Ht Hb), length_app. cbn [length].
    replace (Nat.ltb b n) with true by (symmetry; apply Nat.ltb_lt; lia).
    replace (Nat.ltb b 0) with false by reflexivity.
    rewrite andb_false_r, andb_true_r.
    destruct (Nat.ltb_spec t (length done)) as [Hlt|Hge].
    + replace (Nat.ltb t (length done + 1)) with true
        by (symmetry; apply Nat.ltb_lt; lia).
      now rewrite app_nth1.
    + destruct (Nat.eqb_spec t (length done)) as [->|Hne].
      * replace (Nat.ltb (length done) (length done + 1)) with true
          by (symmetry; apply Nat.ltb_lt; lia).
        rewrite app_nth2, Nat.sub_diag by lia. reflexivity.
      * replace (Nat.ltb t (length done + 1)) with false
          by (symmetry; apply Nat.ltb_ge; lia).
        reflexivity.
Qed.

Lemma error_progress_start n_targets n done row row' st :
  error_progress n_targets n done row 0 st ->
  error_progress n_targets n done row' 0 st.
Proof.
  intros (P1 & P2 & P3 & P4 & P5 & P6). unfold error_progress.
  split; [assumption|]. split; [assumption|]. split; [exact P3|].
  split; [assumption|]. split; [assumption|].
  intros t b Ht Hb. rewrite (P6 t b Ht Hb).
  replace (Nat.ltb b 0) with false by reflexivity.
  now rewrite andb_false_r.
Qed.

Lemma target_groups_length fe fb n key s t row :
  target_groups fe fb n key s t = Ok row -> length row = n.
Proof.
  unfold target_groups. intros H. inv_bind H. inversion H; subst.
  rewrite length_map. apply mapM_ok_length in Ha0. unfold range in Ha0.
  now rewrite length_seq in Ha0.
Qed.

Lemma error_target_step_progress n_targets n fe fb key s done st t :
  length done < n_targets ->
  error_progress n_targets n done [] 0 st ->
  rel_result (fun st' row => error_progress n_targets n (done ++ [row]) [] 0 st')
             (error_target_step fe fb n key s st (length done, t))
             (target_groups fe fb n key s t).
Proof.
  intros Hk Hst.
  pose proof (target_groups_length fe fb n key s t) as Hlen.
  unfold error_target_step, target_groups in *.
  destruct (target_dicts fe fb t key (Some s)) as [[te pb]|e];
    [|reflexivity].
  cbn [Py.bind fst snd] in *.
  destruct (group_bins te pb n) as [groups|e]; [|reflexivity].
  cbn [Py.bind] in *. specialize (Hlen _ eq_refl).
  set (row := map snd groups) in *.
  destruct (foldM_seq_total
              (fun q s1 => error_progress n_targets n done row q (fst s1)
                           /\ snd s1 = flat_map cell_means (firstn q row))
              (error_bin_step (length done) row) n 0 (st, []))
    as ([st' inner] & Hloop & Hst' & Hinner).
  - split; [|reflexivity]. cbn [fst].
    now apply (error_progress_start n_targets n done []).
  - intros q [s1 inner] Hq [Hs1 Hin]. cbn [fst snd] in *.
    destruct (error_bin_step_progress n_targets n done row q s1 inner
                Hk ltac:(lia) Hlen Hs1 Hin) as (s2 & inner' & E & Hs2 & Hin').
    exists (s2, inner'). auto.
  - unfold range. rewrite Hloop. cbn [Py.bind rel_result fst snd] in *.
    rewrite Hinner, firstn_all2 by lia.
    now apply error_progress_next.
Qed.

Lemma error_targets_loop n_targets n fe fb key s ts :
  forall done st,
    length done + length ts <= n_targets ->
    error_progress n_targets n done [] 0 st ->
    rel_result (fun st' rows =>
                  error_progress n_targets n (done ++ rows) [] 0 st'
                  /\ length rows = length ts
                  /\ Forall (fun row => length row = n) rows)
               (foldM (error_target_step fe fb n key s)
                      (combine (seq (length done) (length ts)) ts) st)
               (mapM (target_groups fe fb n key s) ts).
Proof.
  induction ts as [|t ts IH]; intros done st Hlen Hst; cbn [length seq combine].
  - cbn. rewrite app_nil_r. auto.
  - cbn [foldM mapM].
    pose proof (error_target_step_progress n_targets n fe fb key s done st t
                  ltac:(cbn [length] in Hlen; lia) Hst) as Hstep.
    pose proof (target_groups_length fe fb n key s t) as Hrow.
    destruct (error_target_step fe fb n key s st (length done, t)) as [st1|e1];
      destruct (target_groups fe fb n key s t) as [row|e2];
      cbn [rel_result Py.bind] in *; try contradiction; [|assumption].
    specialize (IH (done ++ [row]) st1).
    rewrite length_app in IH. cbn [length] in IH, Hlen.
    replace (length done + 1) with (S (length done)) in IH by lia.
    specialize (IH ltac:(lia) Hstep).
    destruct (foldM (error_target_step fe fb n key s)
                    (combine (seq (S (length done)) (length ts)) ts) st1)
      as [st2|e1];
      destruct (mapM (target_groups fe fb n key s) ts) as [rows|e2];
      cbn [rel_result Py.bind] in *; try contradiction; [|assumption].
    destruct IH as (Hp & Hl & Hf). rewrite <- app_assoc in Hp.
    split; [exact Hp|]. split; [cbn [length]; lia|].
    constructor; auto.
Qed.

Lemma error_targets_loop_start n fe fb key s targets :
  rel_result (fun st' groups =>
                error_progress (length targets) n groups [] 0 st'
                /\ length groups = length targets
                /\ Forall (fun row => length row = n) groups)
             (foldM (error_target_step fe fb n key s) (enumerate targets)
                    {| all_target_error := [];
                       all_qs_error := empties n;
                       all_qs_error_concat_targets_sep :=
                         repeat (empties n) (length targets) |})
             (mapM (target_groups fe fb n key s) targets).
Proof.
  unfold enumerate.
  apply (error_targets_loop (length targets) n fe fb key s targets []).
  - cbn [length]. lia.
  - unfold error_progress.
    cbn [all_target_error all_qs_error all_qs_error_concat_targets_sep
         map flat_map length].
    split; [reflexivity|]. split; [apply length_empties|].
    split; [|split; [apply repeat_length|split]].
    + intros b Hb. unfold empties. now rewrite nth_repeat.
    + intros t Ht. rewrite nth_repeat_rows by assumption.
      apply length_empties.
    + intros t b Ht Hb. rewrite nth_repeat_rows by assumption.
      unfold empties. rewrite nth_repeat.
      replace (Nat.ltb t 0) with false by reflexivity.
      replace (Nat.ltb b 0) with false by reflexivity.
      now rewrite andb_false_r.
Qed.

(** X15.  [bin_wise_errors] is a function of the scaled errors grouped
    by target and predicted bin: it raises what the grouping of the
    first failing target raises, and otherwise every bin's list holds,
    in target order, the mean error of each target that has samples in
    the bin (a target with none contributes nothing), the per-target
    table holds each non-empty group as one entry, a bin's mean is the
    mean of its list or [None] when the list is empty, and the overall
    mean is the mean over the targets of the mean of their bin means. *)
Theorem bin_wise_errors_closed_form
  (fold_errors : err_frame) (fold_bins : bin_frame) (num_bins : nat)
  (targets : list Z) (uncertainty_key : string) (error_scaling_factor : Q) :
  bin_wise_errors fold_errors fold_bins num_bins targets uncertainty_key
                  error_scaling_factor
  = (groups <- mapM (target_groups fold_errors fold_bins num_bins
                                   uncertainty_key error_scaling_factor)
                    targets ;;
     Ok (errors_of_groups num_bins groups)).
Proof.
  unfold bin_wise_errors.
  pose proof (error_targets_loop_start num_bins fold_errors fold_bins
                uncertainty_key error_scaling_factor targets) as Hloop.
  destruct (foldM _ (enumerate targets) _) as [st|e1];
    destruct (mapM _ targets) as [groups|e2];
    cbn [rel_result Py.bind] in *; try contradiction; [|congruence].
  destruct Hloop as ((P1 & P2 & P3 & P4 & P5 & P6) & Hl & Hf).
  assert (Hqs : all_qs_error st
                = map (fun b => flat_map
                                  (fun row => cell_means (nth b row []))
                                  groups) (range num_bins)).
  { apply (nth_ext _ _ [] []).
    - unfold range. now rewrite length_map, length_seq.
    - intros b Hb. rewrite P2 in Hb. rewrite (P3 b Hb).
      replace (Nat.ltb b 0) with false by reflexivity. rewrite app_nil_r.
      unfold range. now rewrite nth_map_seq by lia. }
  assert (Hsep : all_qs_error_concat_targets_sep st = map (map cell) groups).
  { apply (nth_ext _ _ [] []).
    - rewrite length_map. lia.
    - intros t Ht. rewrite P4 in Ht.
      rewrite (nth_map_nil (map cell)) by reflexivity.
      apply (nth_ext _ _ [] []).
      + rewrite length_map, (P5 t Ht).
        rewrite Forall_forall in Hf. symmetry. apply Hf. apply nth_In. lia.
      + intros b Hb. rewrite (P5 t Ht) in Hb. rewrite (P6 t b Ht Hb).
        replace (Nat.ltb t (length groups)) with true
          by (symmetry; apply Nat.ltb_lt; lia).
        now rewrite (nth_map_nil cell) by reflexivity. }
  unfold errors_of_groups. cbn zeta. now rewrite P1, Hqs, Hsep.
Qed.

(** ** One mean per fold in the aggregated bin errors *)









(** ** bin_wise_jaccard as a function of the compared groups *)

Lemma nth_map_in {A B} (f : A -> B) (l : list A) (b : nat) (d : A) (d' : B) :
  b < length l -> nth b (map f l) d' = f (nth b l d).
Proof.
  intros H. rewrite (nth_indep _ d' (f d)) by (now rewrite length_map).
  apply map_nth.
Qed.

Lemma columns_step n score done ys l pg l' :
  length ys < n ->
  columns n score done ys l ->
  append_at l (length ys) (score pg) = Ok l' ->
  columns n score done (ys ++ [pg]) l'.
Proof.
  intros Hq [C1 C2] H.
  destruct (append_at_nth _ _ _ _ H) as (_ & Hl & Hn).
  split; [lia|]. intros b Hb. rewrite Hn, length_app. cbn [length].
  destruct (Nat.eqb_spec b (length ys)) as [->|Hne].
  - rewrite (C2 _ Hq), Nat.ltb_irrefl, app_nil_r.
    replace (Nat.ltb (length ys) (length ys + 1)) with true
      by (symmetry; apply Nat.ltb_lt; lia).
    now rewrite nth_middle.
  - rewrite (C2 b Hb).
    destruct (Nat.ltb_spec b (length ys)) as [Hlt|Hge].
    + replace (Nat.ltb b (length ys + 1)) with true
        by (symmetry; apply Nat.ltb_lt; lia).
      now rewrite app_nth1 by assumption.
    + replace (Nat.ltb b (length ys + 1)) with false
        by (symmetry; apply Nat.ltb_ge; lia).
      reflexivity.
Qed.

Lemma columns_next n score done row l :
  length row = n ->
  columns n score done row l ->
  columns n score (done ++ [row]) [] l.
Proof.
  intros Hrow [C1 C2]. split; [assumption|]. intros b Hb.
  rewrite (C2 b Hb). unfold column_of. rewrite map_app. cbn [map length].
  replace (Nat.ltb b (length row)) with true
    by (symmetry; apply Nat.ltb_lt; lia).
  replace (Nat.ltb b 0) with false by reflexivity.
  now rewrite app_nil_r.
Qed.

Lemma columns_start n score done ys l :
  columns n score done [] l -> length ys = 0 -> columns n score done ys l.
Proof. intros H Hys. apply length_zero_iff_nil in Hys. now subst. Qed.

Lemma jaccard_table_step n_targets n done ys sep pg sep' :
  length done < n_targets -> length ys < n ->
  jaccard_table n_targets n done ys sep ->
  append_at2 sep (length done) (length ys) (pair_jaccard pg) = Ok sep' ->
  jaccard_table n_targets n done (ys ++ [pg]) sep'.
Proof.
  intros Hk Hq (T1 & T2 & T3) H.
  destruct (append_at2_nth _ _ _ _ _ H) as (_ & _ & E1 & E2 & E3).
  split; [lia|]. split; [intros t Ht; rewrite E2; now apply T2|].
  intros t b Ht Hb. rewrite E3, length_app. cbn [length].
  destruct (Nat.ltb_spec t (length done)) as [Hlt|Hge].
  - replace (Nat.eqb t (length done)) with false
      by (symmetry; apply Nat.eqb_neq; lia).
    cbn [andb]. rewrite (T3 t b Ht Hb).
    replace (Nat.ltb t (length done)) with true
      by (symmetry; apply Nat.ltb_lt; lia).
    reflexivity.
  - destruct (Nat.eqb_spec t (length done)) as [->|Hne]; cbn [andb].
    + destruct (Nat.eqb_spec b (length ys)) as [->|Hnb].
      * rewrite (T3 _ _ Hk Hq), !Nat.ltb_irrefl, Nat.eqb_refl. cbn [andb app].
        replace (Nat.ltb (length ys) (length ys + 1)) with true
          by (symmetry; apply Nat.ltb_lt; lia).
        now rewrite nth_middle.
      * rewrite (T3 _ b Hk Hb), Nat.ltb_irrefl, Nat.eqb_refl. cbn [andb].
        destruct (Nat.ltb_spec b (length ys)) as [Hlt|Hgt].
        -- replace (Nat.ltb b (length ys + 1)) with true
             by (symmetry; apply Nat.ltb_lt; lia).
           now rewrite app_nth1 by assumption.
        -- replace (Nat.ltb b (length ys + 1)) with false
             by (symmetry; apply Nat.ltb_ge; lia).
           reflexivity.
    + rewrite (T3 t b Ht Hb).
      replace (Nat.ltb t (length done)) with false
        by (symmetry; apply Nat.ltb_ge; lia).
      replace (Nat.eqb t (length done)) with false
        by (symmetry; apply Nat.eqb_neq; lia).
      reflexivity.
Qed.

Lemma jaccard_table_next n_targets n done row sep :
  length row = n ->
  jaccard_table n_targets n done row sep ->
  jaccard_table n_targets n (done ++ [row]) [] sep.
Proof.
  intros Hrow (T1 & T2 & T3). split; [assumption|]. split; [assumption|].
  intros t b Ht Hb. rewrite (T3 t b Ht Hb), length_app. cbn [length].
  replace (Nat.ltb b (length row)) with true
    by (symmetry; apply Nat.ltb_lt; lia).
  replace (Nat.ltb b 0) with false by reflexivity.
  rewrite andb_false_r, andb_true_r.
  destruct (Nat.ltb_spec t (length done)) as [Hlt|Hge].
  - replace (Nat.ltb t (length done + 1)) with true
      by (symmetry; apply Nat.ltb_lt; lia).
    now rewrite app_nth1.
  - destruct (Nat.eqb_spec t (length done)) as [->|Hne].
    + replace (Nat.ltb (length done) (length done + 1)) with true
        by (symmetry; apply Nat.ltb_lt; lia).
      now rewrite nth_middle.
    + replace (Nat.ltb t (length done + 1)) with false
        by (symmetry; apply Nat.ltb_ge; lia).
      reflexivity.
Qed.

Lemma jaccard_bin_step_progress n_targets n done ys pk kg jb :
  length done < n_targets -> length ys < n ->
  jaccard_bins_progress n_targets n done ys jb ->
  rel_result (fun jb' pg => jaccard_bins_progress n_targets n done (ys ++ [pg])
                                                  jb')
             (jaccard_bin_step (length done) pk kg jb (length ys))
             (pair_at pk kg (length ys)).
Proof.
  intros Hk Hq ((P1 & P2 & P3 & CJ & CR & CP & T) & I1 & I2 & I3).
  unfold jaccard_bin_step, pair_at.
  destruct (index pk (length ys)) as [p|e]; [|reflexivity]. cbn [Py.bind].
  destruct (index kg (length ys)) as [g|e]; [|reflexivity]. cbn [Py.bind].
  pose proof CJ as [LJ _]. pose proof CR as [LR _]. pose proof CP as [LP _].
  pose proof T as (LT & RT & _).
  destruct (append_at_total (all_qs_jacc (jb_state jb)) (length ys)
              (jaccard_similarity p g) ltac:(lia)) as (qj & Hqj).
  destruct (append_at2_total (all_qs_jacc_concat_targets_sep (jb_state jb))
              (length done) (length ys) (jaccard_similarity p g)
              ltac:(lia) ltac:(rewrite RT; lia)) as (sep & Hsep).
  rewrite Hqj. cbn [Py.bind]. rewrite Hsep. cbn [Py.bind].
  destruct (recall_precision p g) as [recall precision] eqn:Hrp.
  destruct (append_at_total (all_qs_recall (jb_state jb)) (length ys)
              recall ltac:(lia)) as (qr & Hqr).
  destruct (append_at_total (all_qs_precision (jb_state jb)) (length ys)
              precision ltac:(lia)) as (qp & Hqp).
  rewrite Hqr. cbn [Py.bind]. rewrite Hqp. cbn [Py.bind rel_result].
  assert (Er : recall = pair_recall (p, g))
    by (unfold pair_recall; cbn [fst snd]; now rewrite Hrp).
  assert (Ep : precision = pair_precision (p, g))
    by (unfold pair_precision; cbn [fst snd]; now rewrite Hrp).
  unfold jaccard_bins_progress, jaccard_progress.
  cbn [jb_state inner_jaccard_sims inner_recalls inner_precisions
       all_target_jacc all_target_recall all_target_precision
       all_qs_jacc all_qs_recall all_qs_precision
       all_qs_jacc_concat_targets_sep].
  rewrite !map_app, I1, I2, I3. cbn [map]. subst recall precision.
  refine (conj (conj P1 (conj P2 (conj P3 (conj _ (conj _ (conj _ _))))))
               (conj eq_refl (conj eq_refl eq_refl))).
  - apply (columns_step n pair_jaccard done ys _ (p, g) qj Hq CJ Hqj).
  - apply (columns_step n pair_recall done ys _ (p, g) qr Hq CR Hqr).
  - apply (columns_step n pair_precision done ys _ (p, g) qp Hq CP Hqp).
  - apply (jaccard_table_step n_targets n done ys _ (p, g) sep Hk Hq T Hsep).
Qed.

Lemma jaccard_bins_loop n_targets n done pk kg len :
  forall ys jb,
    length done < n_targets -> length ys + len <= n ->
    jaccard_bins_progress n_targets n done ys jb ->
    rel_result (fun jb' rest =>
                  jaccard_bins_progress n_targets n done (ys ++ rest) jb'
                  /\ length rest = len)
               (foldM (jaccard_bin_step (length done) pk kg)
                      (seq (length ys) len) jb)
               (mapM (pair_at pk kg) (seq (length ys) len)).
Proof.
  induction len as [|len IH]; intros ys jb Hk Hlen Hjb; cbn [seq foldM mapM].
  - cbn. rewrite app_nil_r. auto.
  - pose proof (jaccard_bin_step_progress n_targets n done ys pk kg jb Hk
                  ltac:(lia) Hjb) as Hstep.
    destruct (jaccard_bin_step (length done) pk kg jb (length ys)) as [jb1|e1];
      destruct (pair_at pk kg (length ys)) as [pg|e2];
      cbn [rel_result Py.bind] in *; try contradiction; [|assumption].
    specialize (IH (ys ++ [pg]) jb1 Hk).
    rewrite length_app in IH. cbn [length] in IH.
    replace (length ys + 1) with (S (length ys)) in IH by lia.
    specialize (IH ltac:(lia) Hstep).
    destruct (foldM (jaccard_bin_step (length done) pk kg)
                    (seq (S (length ys)) len) jb1) as [jb2|e1];
      destruct (mapM (pair_at pk kg) (seq (S (length ys)) len))
      as [rest|e2];
      cbn [rel_result Py.bind] in *; try contradiction; [|assumption].
    destruct IH as [Hp Hl]. rewrite <- app_assoc in Hp.
    split; [exact Hp|cbn [length]; lia].
Qed.

Lemma jaccard_progress_next n_targets n done row jb :
  length row = n ->
  jaccard_bins_progress n_targets n done row jb ->
  jaccard_progress n_targets n (done ++ [row]) []
    {| all_target_jacc :=
         all_target_jacc (jb_state jb) ++ [np_mean (inner_jaccard_sims jb)];
       all_qs_jacc := all_qs_jacc (jb_state jb);
       all_qs_jacc_concat_targets_sep :=
         all_qs_jacc_concat_targets_sep (jb_state jb);
       all_target_recall :=
         all_target_recall (jb_state jb) ++ [np_mean (inner_recalls jb)];
       all_qs_recall := all_qs_recall (jb_state jb);
       all_target_precision :=
         all_target_precision (jb_state jb)
         ++ [np_mean (inner_precisions jb)];
       all_qs_precision := all_qs_precision (jb_state jb) |}.
Proof.
  intros Hrow ((P1 & P2 & P3 & CJ & CR & CP & T) & I1 & I2 & I3).
  unfold jaccard_progress.
  cbn [all_target_jacc all_target_recall all_target_precision
       all_qs_jacc all_qs_recall all_qs_precision
       all_qs_jacc_concat_targets_sep].
  rewrite !map_app, P1, P2, P3, I1, I2, I3. cbn [map].
  refine (conj eq_refl (conj eq_refl (conj eq_refl
            (conj _ (conj _ (conj _ _)))))).
  - now apply columns_next.
  - now apply columns_next.
  - now apply columns_next.
  - now apply (jaccard_table_next n_targets n done row).
Qed.

Lemma target_pairs_length fe fb n qn key cmb t row :
  target_pairs fe fb n qn key cmb t = Ok row -> length row = n.
Proof.
  unfold target_pairs. intros H. inv_bind H.
  apply mapM_ok_length in H. unfold range in H.
  now rewrite length_seq in H.
Qed.

Lemma jaccard_target_step_progress n_targets n qn fe fb key cmb done st t :
  length done < n_targets ->
  jaccard_progress n_targets n done [] st ->
  rel_result (fun st' row => jaccard_progress n_targets n (done ++ [row]) [] st')
             (jaccard_target_step fe fb n qn key cmb st (length done, t))
             (target_pairs fe fb n qn key cmb t).
Proof.
  intros Hk Hst.
  pose proof (target_pairs_length fe fb n qn key cmb t) as Hlen.
  unfold jaccard_target_step, target_pairs in *.
  destruct (target_dicts fe fb t key None) as [[te pb]|e]; [|reflexivity].
  cbn [Py.bind fst snd] in *.
  destruct (group_bins te pb n) as [groups|e]; [|reflexivity].
  cbn [Py.bind] in *.
  destruct (quantile_groups te qn cmb) as [qgroups|e]; [|reflexivity].
  cbn [Py.bind] in *.
  set (pk := rev (map fst groups)) in *.
  set (kg := rev (map snd qgroups)) in *.
  pose proof (jaccard_bins_loop n_targets n done pk kg n []
                {| inner_jaccard_sims := []; inner_recalls := [];
                   inner_precisions := []; jb_state := st |}
                Hk ltac:(cbn [length]; lia)) as Hloop.
  cbn [length app] in Hloop. unfold range in *.
  specialize (Hloop ltac:(split; [exact Hst|repeat split])).
  destruct (foldM (jaccard_bin_step (length done) pk kg) (seq 0 n) _)
    as [jb|e1];
    destruct (mapM (pair_at pk kg) (seq 0 n)) as [row|e2];
    cbn [rel_result Py.bind] in *; try contradiction; [|assumption].
  destruct Hloop as [Hp _].
  apply jaccard_progress_next; [now apply Hlen|assumption].
Qed.

Lemma jaccard_targets_loop n_targets n qn fe fb key cmb ts :
  forall done st,
    length done + length ts <= n_targets ->
    jaccard_progress n_targets n done [] st ->
    rel_result (fun st' rows =>
                  jaccard_progress n_targets n (done ++ rows) [] st'
                  /\ length rows = length ts
                  /\ Forall (fun row => length row = n) rows)
               (foldM (jaccard_target_step fe fb n qn key cmb)
                      (combine (seq (length done) (length ts)) ts) st)
               (mapM (target_pairs fe fb n qn key cmb) ts).
Proof.
  induction ts as [|t ts IH]; intros done st Hlen Hst; cbn [length seq combine].
  - cbn. rewrite app_nil_r. auto.
  - cbn [foldM mapM].
    pose proof (jaccard_target_step_progress n_targets n qn fe fb key cmb
                  done st t ltac:(cbn [length] in Hlen; lia) Hst) as Hstep.
    pose proof (target_pairs_length fe fb n qn key cmb t) as Hrow.
    destruct (jaccard_target_step fe fb n qn key cmb st (length done, t))
      as [st1|e1];
      destruct (target_pairs fe fb n qn key cmb t) as [row|e2];
      cbn [rel_result Py.bind] in *; try contradiction; [|assumption].
    specialize (IH (done ++ [row]) st1).
    rewrite length_app in IH. cbn [length] in IH, Hlen.
    replace (length done + 1) with (S (length done)) in IH by lia.
    specialize (IH ltac:(lia) Hstep).
    destruct (foldM (jaccard_target_step fe fb n qn key cmb)
                    (combine (seq (S (length done)) (length ts)) ts) st1)
      as [st2|e1];
      destruct (mapM (target_pairs fe fb n qn key cmb) ts) as [rows|e2];
      cbn [rel_result Py.bind] in *; try contradiction; [|assumption].
    destruct IH as (Hp & Hl & Hf). rewrite <- app_assoc in Hp.
    split; [exact Hp|]. split; [cbn [length]; lia|].
    constructor; auto.
Qed.

Lemma columns_empties n score : columns n score [] [] (empties n).
Proof.
  split; [apply length_empties|]. intros b Hb.
  unfold empties. now rewrite nth_repeat.
Qed.

Lemma columns_all n score rows l :
  columns n score rows [] l -> l = map (column_of score rows) (range n).
Proof.
  intros [C1 C2]. apply (nth_ext _ _ [] []).
  - unfold range. now rewrite length_map, length_seq.
  - intros b Hb. rewrite C1 in Hb. rewrite (C2 b Hb).
    cbn [length]. replace (Nat.ltb b 0) with false by reflexivity.
    rewrite app_nil_r. unfold range. now rewrite nth_map_seq by lia.
Qed.

Lemma jaccard_targets_loop_start n qn fe fb key cmb targets :
  rel_result (fun st' rows =>
                jaccard_progress (length targets) n rows [] st'
                /\ length rows = length targets
                /\ Forall (fun row => length row = n) rows)
             (foldM (jaccard_target_step fe fb n qn key cmb)
                    (enumerate targets)
                    {| all_target_jacc := [];
                       all_qs_jacc := empties n;
                       all_qs_jacc_concat_targets_sep :=
                         repeat (empties n) (length targets);
                       all_target_recall := [];
                       all_qs_recall := empties n;
                       all_target_precision := [];
                       all_qs_precision := empties n |})
             (mapM (target_pairs fe fb n qn key cmb) targets).
Proof.
  unfold enumerate.
  apply (jaccard_targets_loop (length targets) n qn fe fb key cmb targets []).
  - cbn [length]. lia.
  - unfold jaccard_progress.
    cbn [all_target_jacc all_target_recall all_target_precision
         all_qs_jacc all_qs_recall all_qs_precision
         all_qs_jacc_concat_targets_sep map].
    refine (conj eq_refl (conj eq_refl (conj eq_refl
              (conj (columns_empties _ _) (conj (columns_empties _ _)
                 (conj (columns_empties _ _) (conj _ (conj _ _)))))))).
    + apply repeat_length.
    + intros t Ht. rewrite nth_repeat_rows by assumption.
      apply length_empties.
    + intros t b Ht Hb. rewrite nth_repeat_rows by assumption.
      unfold empties. rewrite nth_repeat. cbn [length].
      replace (Nat.ltb t 0) with false by reflexivity.
      replace (Nat.ltb b 0) with false by reflexivity.
      now rewrite andb_false_r.
Qed.

(** X17.  [bin_wise_jaccard] is a function of the groups it compares:
    for every target it flips the predicted groups and the ground-truth
    groups and pairs them position by position, so position [b] of
    every output compares the predicted group of the [b]-th highest bin
    with the [b]-th highest ground-truth group; it raises what the
    grouping or pairing of the first failing target raises, and
    otherwise every per-bin list holds the score of each target in
    target order, the per-target table holds each Jaccard score as one
    entry, and the means are taken over these lists. *)
Theorem bin_wise_jaccard_closed_form
  (fold_errors : err_frame) (fold_bins : bin_frame)
  (num_bins num_bins_quantiles : nat) (targets : list Z)
  (uncertainty_key : string) (combine_middle_bins : bool) :
  bin_wise_jaccard fold_errors fold_bins num_bins num_bins_quantiles targets
                   uncertainty_key combine_middle_bins
  = (rows <- mapM (target_pairs fold_errors fold_bins num_bins
                                num_bins_quantiles uncertainty_key
                                combine_middle_bins) targets ;;
     Ok (jaccard_of_pairs num_bins rows)).
Proof.
  unfold bin_wise_jaccard.
  pose proof (jaccard_targets_loop_start num_bins num_bins_quantiles
                fold_errors fold_bins uncertainty_key combine_middle_bins
                targets) as Hloop.
  destruct (foldM _ (enumerate targets) _) as [st|e1];
    destruct (mapM _ targets) as [rows|e2];
    cbn [rel_result Py.bind] in *; try contradiction; [|congruence].
  destruct Hloop as ((P1 & P2 & P3 & CJ & CR & CP & T1 & T2 & T3) & Hl & Hf).
  apply columns_all in CJ, CR, CP.
  assert (Hsep : all_qs_jacc_concat_targets_sep st
                 = map (fun row => map (fun pg => [pair_jaccard pg]) row)
                       rows).
  { apply (nth_ext _ _ [] []).
    - rewrite length_map. lia.
    - intros t Ht. rewrite T1 in Ht.
      rewrite (nth_map_nil (fun row => map (fun pg => [pair_jaccard pg]) row))
        by reflexivity.
      assert (Hrow : length (nth t rows []) = num_bins).
      { rewrite Forall_forall in Hf. apply Hf. apply nth_In. lia. }
      apply (nth_ext _ _ [] []).
      + now rewrite length_map, (T2 t Ht).
      + intros b Hb. rewrite (T2 t Ht) in Hb. rewrite (T3 t b Ht Hb).
        replace (Nat.ltb t (length rows)) with true
          by (symmetry; apply Nat.ltb_lt; lia).
        now rewrite (nth_map_in (fun pg => [pair_jaccard pg]) _ _ ([], []))
          by lia. }
  unfold jaccard_of_pairs. cbn zeta.
  now rewrite P1, P2, P3, CJ, CR, CP, Hsep.
Qed.

(** ** One mean per fold in the aggregated Jaccard, recall and precision *)

Lemma counted_partial_step {A} n k q (l : list (list A)) x l' :
  q < n -> counted_partial n k q l -> append_at l q x = Ok l' ->
  counted_partial n k (S q) l'.
Proof.
  intros Hq [C1 C2] H.
  destruct (append_at_nth _ _ _ _ H) as (_ & Hl & Hn).
  split; [lia|]. intros j Hj. rewrite Hn.
  destruct (Nat.eqb_spec j q) as [->|Hne].
  - rewrite length_app, (C2 q Hq). rewrite Nat.ltb_irrefl.
    replace (Nat.ltb q (S q)) with true by (symmetry; apply Nat.ltb_lt; lia).
    simpl. lia.
  - rewrite (C2 j Hj).
    destruct (Nat.ltb_spec j q); destruct (Nat.ltb_spec j (S q)); lia.
Qed.

Lemma counted_start {A} n k (l : list (list A)) :
  counted n k l -> counted_partial n k 0 l.
Proof.
  intros [C1 C2]. split; [assumption|]. intros j Hj.
  replace (Nat.ltb j 0) with false by reflexivity.
  now apply (proj1 (rows_of_nth n _ _ C1) C2).
Qed.

Lemma counted_finish {A} n k (l : list (list A)) :
  counted_partial n k n l -> counted n (S k) l.
Proof.
  intros [C1 C2]. split; [assumption|].
  apply (proj2 (rows_of_nth n _ _ C1)). intros j Hj. rewrite (C2 j Hj).
  replace (Nat.ltb j n) with true by (symmetry; apply Nat.ltb_lt; lia).
  reflexivity.
Qed.

Lemma counted_empties {A} n : counted n 0 (@empties A n).
Proof.
  split; [apply length_empties|].
  unfold rows_of, empties. apply Forall_forall. intros row Hrow.
  apply repeat_spec in Hrow. now subst.
Qed.

Lemma jaccard_fold_result_bins self fd uncertainty_type kw fr :
  JaccardEvaluationHandler._process_single_fold self fd uncertainty_type kw
  = Ok fr ->
  length (jac_mean_all_bins fr)
  = fst (JaccardEvaluationHandler.scorer_bins self).
Proof.
  unfold JaccardEvaluationHandler._process_single_fold.
  intros H.
  assert (Hgen : forall n qn,
             bin_wise_jaccard (fd_errors fd) (fd_bins fd) n qn (targets self)
                              uncertainty_type (combine_middle_bins self)
             = Ok fr ->
             length (jac_mean_all_bins fr) = n).
  { clear H. intros n qn H. unfold bin_wise_jaccard in H.
    apply bind_ok in H. destruct H as (st & Hloop & H).
    inversion H; subst fr; clear H. cbn [jac_mean_all_bins].
    rewrite length_map.
    pose proof (jaccard_targets_loop_start
                  n qn (fd_errors fd) (fd_bins fd) uncertainty_type
                  (combine_middle_bins self) (targets self)) as Hrel.
    rewrite Hloop in Hrel.
    destruct (mapM _ (targets self)) as [rows|e];
      cbn [rel_result] in Hrel; [|contradiction].
    destruct Hrel as ((_ & _ & _ & [CJ _] & _) & _). exact CJ. }
  destruct (JaccardEvaluationHandler.scorer_bins self) as [n qn].
  now apply Hgen in H.
Qed.

Lemma jaccard_accumulate_target_keeps fr idx_bin acc t acc' :
  JaccardEvaluationHandler.accumulate_target fr idx_bin acc t = Ok acc' ->
  JaccardEvaluationHandler.fold_mean_bins acc'
  = JaccardEvaluationHandler.fold_mean_bins acc
  /\ JaccardEvaluationHandler.fold_mean_bins_recall acc'
     = JaccardEvaluationHandler.fold_mean_bins_recall acc
  /\ JaccardEvaluationHandler.fold_mean_bins_precision acc'
     = JaccardEvaluationHandler.fold_mean_bins_precision acc.
Proof.
  unfold JaccardEvaluationHandler.accumulate_target. intros H. inv_bind H.
  inversion H; subst. cbn. auto.
Qed.

Lemma jaccard_accumulate_bin_count self n k q fr acc acc' :
  q < n ->
  jaccard_acc_partial n k q acc ->
  JaccardEvaluationHandler.accumulate_bin self fr acc q = Ok acc' ->
  jaccard_acc_partial n k (S q) acc'.
Proof.
  intros Hq (A1 & A2 & A3) H.
  unfold JaccardEvaluationHandler.accumulate_bin in H.
  apply bind_ok in H. destruct H as (mj & _ & H).
  apply bind_ok in H. destruct H as (mb & Hmb & H).
  apply bind_ok in H. destruct H as (aj & _ & H).
  apply bind_ok in H. destruct H as (ab & _ & H).
  apply bind_ok in H. destruct H as (mr & _ & H).
  apply bind_ok in H. destruct H as (mbr & Hmbr & H).
  apply bind_ok in H. destruct H as (ar & _ & H).
  apply bind_ok in H. destruct H as (abr & _ & H).
  apply bind_ok in H. destruct H as (mp & _ & H).
  apply bind_ok in H. destruct H as (mbp & Hmbp & H).
  apply bind_ok in H. destruct H as (ap & _ & H).
  apply bind_ok in H. destruct H as (abp & _ & H).
  assert (Hkeep :
            JaccardEvaluationHandler.fold_mean_bins acc' = mb
            /\ JaccardEvaluationHandler.fold_mean_bins_recall acc' = mbr
            /\ JaccardEvaluationHandler.fold_mean_bins_precision acc' = mbp).
  { eapply (foldM_inv
              (fun s =>
                 JaccardEvaluationHandler.fold_mean_bins s = mb
                 /\ JaccardEvaluationHandler.fold_mean_bins_recall s = mbr
                 /\ JaccardEvaluationHandler.fold_mean_bins_precision s = mbp));
      [| |exact H].
    - intros s t s' (E1 & E2 & E3) Hs.
      apply jaccard_accumulate_target_keeps in Hs.
      destruct Hs as (-> & -> & ->). auto.
    - cbn. auto. }
  destruct Hkeep as (E1 & E2 & E3).
  unfold jaccard_acc_partial. rewrite E1, E2, E3.
  split; [|split].
  - exact (counted_partial_step n k q _ mj mb Hq A1 Hmb).
  - exact (counted_partial_step n k q _ mr mbr Hq A2 Hmbr).
  - exact (counted_partial_step n k q _ mp mbp Hq A3 Hmbp).
Qed.

Lemma jaccard_accumulate_count self n k acc fr acc' :
  jaccard_acc_count n k acc -> length (jac_mean_all_bins fr) = n ->
  JaccardEvaluationHandler._accumulate_fold_result self acc fr = Ok acc' ->
  jaccard_acc_count n (S k) acc'.
Proof.
  intros (A1 & A2 & A3) Hfr H.
  unfold JaccardEvaluationHandler._accumulate_fold_result in H.
  unfold range in H. rewrite Hfr in H.
  apply (foldM_seq_inv (jaccard_acc_partial n k)) in H.
  - destruct H as (P1 & P2 & P3). cbn [Nat.add] in *.
    split; [|split]; now apply counted_finish.
  - split; [|split]; cbn; now apply counted_start.
  - intros q s1 s2 Hq Hs1 Hs2.
    eapply jaccard_accumulate_bin_count; eauto. lia.
Qed.

Lemma jaccard_aggregate_target_keeps key acc r t r' :
  JaccardEvaluationHandler.aggregate_target key acc r t = Ok r' ->
  JaccardEvaluationHandler.all_jaccard_data r'
  = JaccardEvaluationHandler.all_jaccard_data r
  /\ JaccardEvaluationHandler.all_recall_data r'
     = JaccardEvaluationHandler.all_recall_data r
  /\ JaccardEvaluationHandler.all_precision_data r'
     = JaccardEvaluationHandler.all_precision_data r.
Proof.
  unfold JaccardEvaluationHandler.aggregate_target. intros H. inv_bind H.
  inversion H; subst. cbn. auto.
Qed.

Lemma jaccard_aggregate_count n n_folds r model uncertainty_type acc r' :
  jaccard_results_count n n_folds r ->
  jaccard_acc_count n n_folds acc ->
  JaccardEvaluationHandler._aggregate_results r model uncertainty_type acc
  = Ok r' ->
  jaccard_results_count n n_folds r'.
Proof.
  intros (R1 & R2 & R3) (A1 & A2 & A3) H.
  unfold JaccardEvaluationHandler._aggregate_results in H.
  eapply (foldM_inv (jaccard_results_count n n_folds)); [| |exact H].
  - intros s t s' Hs Hstep. apply jaccard_aggregate_target_keeps in Hstep.
    destruct Hstep as (E1 & E2 & E3). unfold jaccard_results_count.
    now rewrite E1, E2, E3.
  - unfold jaccard_results_count. cbn.
    split; [|split];
      apply (dict_set_Forall
               (fun v : list (list (option Q)) => counted n n_folds v));
      assumption.
Qed.

(** X18.  In what [evaluate_jaccard] returns, every entry of
    ["Jaccard All"], ["Recall All"] and ["Precision All"] holds one list
    per bin (three with [combine_middle_bins]) with exactly one mean
    per fold. *)
Theorem evaluate_jaccard_one_mean_per_fold
  (bin_predictions : dict data_frame) (uncertainty_pairs : list (list string))
  (num_bins_arg : nat) (targets_arg : list Z) (num_folds_arg : nat)
  (combine : bool) (log : list event)
  (fin : JaccardEvaluationHandler.final) :
  evaluate_jaccard bin_predictions uncertainty_pairs num_bins_arg targets_arg
                   num_folds_arg combine
  = (log, Ok fin) ->
  Forall (fun kv => counted (if combine then 3 else num_bins_arg)
                            num_folds_arg (snd kv))
         (JaccardEvaluationHandler.all_jaccard_data fin)
  /\ Forall (fun kv => counted (if combine then 3 else num_bins_arg)
                               num_folds_arg (snd kv))
            (JaccardEvaluationHandler.all_recall_data fin)
  /\ Forall (fun kv => counted (if combine then 3 else num_bins_arg)
                               num_folds_arg (snd kv))
            (JaccardEvaluationHandler.all_precision_data fin).
Proof.
  unfold evaluate_jaccard. intros H.
  set (self := BaseUncertaintyEvaluator num_bins_arg targets_arg num_folds_arg
                                        combine) in *.
  set (n := if combine then 3 else num_bins_arg).
  apply (evaluate_count
           JaccardEvaluationHandler.methods self
           (fun fr => length (jac_mean_all_bins fr) = n)
           (jaccard_acc_count n)
           (jaccard_results_count n num_folds_arg)) in H.
  - destruct H as (r & R & ->). exact R.
  - intros fd ut kw fr Hfr.
    rewrite (jaccard_fold_result_bins self fd ut kw fr Hfr).
    unfold n, self, JaccardEvaluationHandler.scorer_bins. cbn.
    now destruct combine.
  - split; [|split]; cbn; apply counted_empties.
  - intros k acc fr acc' Ha Hf Hacc.
    eapply jaccard_accumulate_count; eauto.
  - split; [|split]; constructor.
  - intros r model ut acc r' Hr Ha Hagg.
    eapply jaccard_aggregate_count; eauto.
Qed.

Lemma evaluate_jaccard_one_mean_per_fold_witness :
  exists log fin,
    evaluate_jaccard [("m"%string, Fixture.table3)] [[Fixture.key]] 2 [0%Z] 1
                     false = (log, Ok fin)
    /\ Forall (fun kv => counted 2 1 (snd kv))
              (JaccardEvaluationHandler.all_jaccard_data fin).
Proof.
  eexists. eexists. split.
  - vm_compute. reflexivity.
  - apply (proj1 (evaluate_jaccard_one_mean_per_fold
                    [("m"%string, Fixture.table3)] [[Fixture.key]] 2 [0%Z] 1
                    false
                    [Extracted "m" Fixture.key 0; Scored "m" Fixture.key 0]
                    _ ltac:(vm_compute; reflexivity))).
Defined.
